(** * Titanium CLI: logger, command registrar and top-level failure handler

    A shallow embedding of three source units of the CLI

    - the [Logger] class (level filter, one-shot banner, time stamps),
    - [applyCommandConfig], which wires a declarative command descriptor
      into a command node of the command-line library,
    - the top-level [try]/[catch] of [main.js],

    and, of the code around them, of the former logger
    ([lib/logger.js]), of the argument lookup and the [cli:pre-validate]
    listener of the former entry point, and of the title and the CLI
    settings of the setup screens,

    followed by the properties established about them.  Everything the
    program does to the outside world (writes to the standard streams,
    notifications, callbacks, process exit) is recorded as a list of
    [effect]s in the order in which the code performs them. *)

From Stdlib Require Import ZArith List String Ascii Bool Lia DecimalString.
Import ListNotations.
Local Open Scope string_scope.

(* ================================================================== *)
(** * JavaScript values *)
(* ================================================================== *)

Module JS.

  (** The primitive values that descriptors, option values and method
      arguments range over. *)
Inductive value : Type :=
  | VUndefined
  | VNull
  | VBool (b : bool)
  | VNum (n : Z)
  | VStr (s : string).

  (** [!!v] *)
Definition truthy (v : value) : bool :=
    match v with
    | VUndefined | VNull => false
    | VBool b => b
    | VNum n => negb (n =? 0)%Z
    | VStr s => negb (s =? "")
    end.

  (** [a || b] *)
Definition or (a b : value) : value := if truthy a then a else b.

  (** [v !== undefined] *)
Definition defined (v : value) : bool :=
    match v with VUndefined => false | _ => true end.

  (** Truthiness of an optional string property ([undefined] when absent). *)
Definition truthy_str (o : option string) : bool :=
    match o with Some s => negb (s =? "") | None => false end.

  (** A string is kept as its code units, which the model takes below
      256.  Among these the white space and the line terminators of the
      language, which [trim] and the class [\s] of a pattern strip, are
      the controls 9 to 13, the space and the no-break space (160). *)
Definition whitespace (c : ascii) : bool :=
    let n := nat_of_ascii c in
    ((9 <=? n) && (n <=? 13))%nat || (n =? 32)%nat || (n =? 160)%nat.

Fixpoint trimStart (s : string) : string :=
    match s with
    | EmptyString => EmptyString
    | String c r => if whitespace c then trimStart r else s
    end.

Definition reverse (s : string) : string :=
    string_of_list_ascii (rev (list_ascii_of_string s)).

Definition trimEnd (s : string) : string := reverse (trimStart (reverse s)).

  (** [s.trim()] *)
Definition trim (s : string) : string := trimEnd (trimStart s).

  (** [s.startsWith(p)] *)
Definition startsWith (p s : string) : bool := String.prefix p s.

  (** [xs.join(sep)] on an array of strings. *)
Fixpoint join (sep : string) (xs : list string) : string :=
    match xs with
    | [] => ""
    | [x] => x
    | x :: rest => x ++ sep ++ join sep rest
    end.

  (** Own-property lookup in an object literal kept as its list of
      entries, in [Object.entries] order. *)
Fixpoint get {A : Type} (o : list (string * A)) (k : string) : option A :=
    match o with
    | [] => None
    | (k', a) :: rest => if k' =? k then Some a else get rest k
    end.

  (** [Object.keys(o)] *)
Definition keys {A : Type} (o : list (string * A)) : list string := map fst o.

  (** The string of a number.  [VNum n] is the number whose value is the
      integer [n]; every integer up to 2^53 in magnitude is one, and
      beyond it those of the form [m * 2^q] with [m] below 2^53.  The
      language prints the shortest digits [s] that read back as the
      number, [s * 10^t] being the closest to it among the candidates
      of that length: in full up to 21 digits, with an exponent
      beyond. *)
Definition digits (n : Z) : string :=
    NilZero.string_of_uint (N.to_uint (Z.to_N n)).

Fixpoint zeros (n : nat) : string :=
    match n with
    | O => ""
    | S k => "0" ++ zeros k
    end.

  (** Whether [v] rounds to the number [x], given twice the distances
      from [x] to the middle of the gap below and above it; a middle
      rounds to [x] when the mantissa of [x] is even. *)
Definition rounds (x lo2 hi2 : Z) (incl : bool) (v : Z) : bool :=
    let d2 := (2 * (v - x))%Z in
    if (0 <=? d2)%Z then (d2 <? hi2)%Z || (incl && (d2 =? hi2)%Z)
    else (- d2 <? lo2)%Z || (incl && (- d2 =? lo2)%Z).

  (** The pairs [(s, t)] to try for [k] digits, [d] being the number
      of digits of [x]. *)
Definition candidates (x d k : Z) : list (Z * Z) :=
    flat_map (fun t => if (t <? 0)%Z then []
                       else let s0 := (x / 10 ^ t)%Z in
                            [(s0, t); ((s0 + 1)%Z, t)])
             [d - k - 1; d - k; d - k + 1]%Z.

Definition closer (x : Z) (a b : Z * Z) : Z * Z :=
    let da := Z.abs (fst a * 10 ^ snd a - x) in
    let db := Z.abs (fst b * 10 ^ snd b - x) in
    if (da <? db)%Z then a
    else if (db <? da)%Z then b
    else if Z.even (fst a) then a else b.

Definition best (x : Z) (cs : list (Z * Z)) : option (Z * Z) :=
    match cs with
    | [] => None
    | c :: rest => Some (fold_left (closer x) rest c)
    end.

Fixpoint shortest (fuel : nat) (x lo2 hi2 : Z) (incl : bool) (d k : Z)
    : Z * Z :=
    match fuel with
    | O => (x, 0%Z)
    | S fuel' =>
        match best x (filter (fun c => (10 ^ (k - 1) <=? fst c)%Z
                                       && (fst c <? 10 ^ k)%Z
                                       && rounds x lo2 hi2 incl
                                                 (fst c * 10 ^ snd c))
                             (candidates x d k)) with
        | Some c => c
        | None => shortest fuel' x lo2 hi2 incl d (k + 1)
        end
    end.

Definition positiveToString (x : Z) : string :=
    if (x <? 2 ^ 53)%Z then digits x
    else
      let q := (Z.log2 x - 52)%Z in
      let m := (x / 2 ^ q)%Z in
      let hi2 := (2 ^ q)%Z in
      let lo2 := if (m =? 2 ^ 52)%Z then (2 ^ (q - 1))%Z else hi2 in
      let d := Z.of_nat (String.length (digits x)) in
      let (s, t) := shortest 17 x lo2 hi2 (Z.even m) d 1 in
      let ds := digits s in
      let n := (Z.of_nat (String.length ds) + t)%Z in
      if (n <=? 21)%Z then ds ++ zeros (Z.to_nat t)
      else
        match ds with
        | String c EmptyString => ds ++ "e+" ++ digits (n - 1)
        | String c rest => String c ("." ++ rest) ++ "e+" ++ digits (n - 1)
        | EmptyString => ""
        end.

  (** [String(n)], ['' + n] *)
Definition numberToString (n : Z) : string :=
    if (n <? 0)%Z then "-" ++ positiveToString (- n) else positiveToString n.

End JS.

Import JS.

(* ================================================================== *)
(** * The environment and the observable effects *)
(* ================================================================== *)

(** What the modelled code takes from its platform and its packages:
    the [chalk] styles, [util.format], [Date.prototype.toISOString] (of
    a time given in milliseconds since the epoch) and the configured
    terminal width [ticonfig.get('cli.width', 80)]. *)
Record Env : Type := {
  bold : string -> string;
  cyan : string -> string;
  gray : string -> string;
  green : string -> string;
  magenta : string -> string;
  red : string -> string;
  yellow : string -> string;
  format : string -> list value -> string;
  toISOString : Z -> string;
  cliWidth : Z
}.

Inductive stream : Type := Stdout | Stderr.

Inductive effect : Type :=
| Write (out : stream) (chunk : string)       (* out.write(chunk) *)
| Emit (event : string)                       (* this.emit(event) *)
| ConsoleLog (line : string)                  (* console.log(line) *)
| ConsoleError (line : string)                (* console.error(line) *)
| Trace (note : string)                       (* cli.debugLogger.trace(note) *)
| Invoke (callback : nat) (arg : value)       (* meta.callback(value) *)
| ExecuteCommand (node : string)              (* cli.executeCommand(args) *)
| HelpText (node : string).                   (* the help screen of a node *)

(** The quotation mark, for the messages that quote a name. *)
Definition dq : string := String (ascii_of_nat 34) EmptyString.

(** The line feed. *)
Definition lf : string := String (ascii_of_nat 10) EmptyString.

(* ================================================================== *)
(** * The Logger *)
(* ================================================================== *)

Module Logger.

  (** What [#level] can hold.  [setLevel] stores [this.levels[level]]:
      a number for the five level names, [undefined] for a name the
      table does not have, and a member of [Object.prototype] for a name
      such as [toString], which the table inherits. *)
Inductive threshold : Type :=
  | Num (n : Z)
  | Undefined
  | Inherited.

  (** The private fields of the class. *)
Record t : Type := {
    priv_banner : string;
    priv_bannerEnabled : bool;
    priv_skipBanner : bool;
    priv_bannerRendered : bool;
    priv_level : threshold;
    priv_timestampEnabled : bool
  }.

  (** The field initialisers. *)
Definition new : t := {|
    priv_banner := "";
    priv_bannerEnabled := true;
    priv_skipBanner := false;
    priv_bannerRendered := false;
    priv_level := Num 3;
    priv_timestampEnabled := false
  |}.

Definition levels : list (string * Z) :=
    [ ("trace", 1); ("debug", 2); ("info", 3); ("warn", 4); ("error", 5333) ]%Z.

  (** The property names every object literal inherits. *)
Definition objectPrototype : list string :=
    [ "constructor"; "__defineGetter__"; "__defineSetter__"; "hasOwnProperty";
      "__lookupGetter__"; "__lookupSetter__"; "isPrototypeOf";
      "propertyIsEnumerable"; "toString"; "valueOf"; "__proto__";
      "toLocaleString" ].

  (** [this.levels[level]] *)
Definition levels_get (level : string) : threshold :=
    match JS.get levels level with
    | Some n => Num n
    | None => if existsb (String.eqb level) objectPrototype
              then Inherited else Undefined
    end.

  (** Truthiness of [#level]. *)
Definition level_truthy (l : threshold) : bool :=
    match l with
    | Num n => negb (n =? 0)%Z
    | Undefined => false
    | Inherited => true
    end.

  (** [level >= this.#level], for a numeric [level].  Against
      [undefined] or an inherited member the comparison is made with
      NaN and is false. *)
Definition ge (level : Z) (l : threshold) : bool :=
    match l with
    | Num n => (n <=? level)%Z
    | Undefined | Inherited => false
    end.

Section Methods.

Variable E : Env.

    (** [render(level, out, msg)]; [now] is the time that [new Date()]
        reads. *)
Definition render (s : t) (now : Z) (level : Z) (out : stream)
               (msg : string) : list effect :=
      if ge level (priv_level s) then
        ((if priv_timestampEnabled s
          then [Write out (toISOString E now ++ " - ")]
          else [])
         ++ [Write out msg])%list
      else [].

    (** The default of the [msg = ''] parameter. *)
Definition msg_or_empty (msg : option string) : string :=
      match msg with Some m => m | None => "" end.

Definition log (s : t) (now : Z) (msg : option string)
               (args : list value) : list effect :=
      render s now 9 Stdout (format E (msg_or_empty msg) args ++ lf).

Definition trace (s : t) (now : Z) (msg : option string)
               (args : list value) : list effect :=
      render s now 1 Stdout
             (gray E "[TRACE]" ++ " " ++ format E (msg_or_empty msg) args ++ lf).

Definition debug (s : t) (now : Z) (msg : option string)
               (args : list value) : list effect :=
      render s now 2 Stdout
             (magenta E "[DEBUG]" ++ " " ++ format E (msg_or_empty msg) args ++ lf).

Definition error (s : t) (now : Z) (msg : option string)
               (args : list value) : list effect :=
      render s now 3 Stderr
             (red E ("[ERROR] " ++ format E (msg_or_empty msg) args) ++ lf).

Definition info (s : t) (now : Z) (msg : option string)
               (args : list value) : list effect :=
      render s now 4 Stdout
             (green E "[INFO]" ++ "  " ++ format E (msg_or_empty msg) args ++ lf).

Definition warn (s : t) (now : Z) (msg : option string)
               (args : list value) : list effect :=
      render s now 5 Stdout
             (yellow E ("[WARN]  " ++ format E (msg_or_empty msg) args) ++ lf).

    (** The condition of [banner()]. *)
Definition banner_due (s : t) : bool :=
      priv_bannerEnabled s && negb (priv_skipBanner s)
      && level_truthy (priv_level s) && negb (priv_bannerRendered s).

Definition banner (s : t) : t * list effect :=
      if banner_due s then
        ({| priv_banner := priv_banner s;
            priv_bannerEnabled := priv_bannerEnabled s;
            priv_skipBanner := priv_skipBanner s;
            priv_bannerRendered := true;
            priv_level := priv_level s;
            priv_timestampEnabled := priv_timestampEnabled s |},
         [ Write Stdout (priv_banner s);
           Write Stdout lf;
           Emit "cli:logger-banner" ])
      else (s, []).

    (** [bannerEnabled(b)]: sets the flag unless [b] is [undefined],
        and returns it. *)
Definition bannerEnabled (s : t) (b : value) : t * bool :=
      let s' :=
        if defined b then
          {| priv_banner := priv_banner s;
             priv_bannerEnabled := truthy b;
             priv_skipBanner := priv_skipBanner s;
             priv_bannerRendered := priv_bannerRendered s;
             priv_level := priv_level s;
             priv_timestampEnabled := priv_timestampEnabled s |}
        else s in
      (s', priv_bannerEnabled s').

Definition bannerWasRendered (s : t) : bool := priv_bannerRendered s.

Definition getBanner (s : t) : string := priv_banner s.

Definition getLevels : list string := JS.keys levels.

    (** The argument of [setBanner]. *)
Record about : Type := {
      name : string;
      copyright : string;
      version : string;
      sdkVersion : option string
    }.

Definition setBanner (s : t) (a : about) : t :=
      {| priv_banner :=
           bold E (cyan E (name a)) ++ " v" ++ version a
           ++ (match sdkVersion a with
               | Some v => if v =? "" then "" else " SDK v" ++ v
               | None => ""
               end)
           ++ lf ++ copyright a ++ lf ++ lf ++ "Want to help? "
           ++ cyan E "https://tidev.io/donate" ++ " or "
           ++ cyan E "https://tidev.io/contribute" ++ lf;
         priv_bannerEnabled := priv_bannerEnabled s;
         priv_skipBanner := priv_skipBanner s;
         priv_bannerRendered := priv_bannerRendered s;
         priv_level := priv_level s;
         priv_timestampEnabled := priv_timestampEnabled s |}.

Definition setLevel (s : t) (level : string) : t :=
      {| priv_banner := priv_banner s;
         priv_bannerEnabled := priv_bannerEnabled s;
         priv_skipBanner := priv_skipBanner s;
         priv_bannerRendered := priv_bannerRendered s;
         priv_level := levels_get level;
         priv_timestampEnabled := priv_timestampEnabled s |}.

Definition silence (s : t) : t :=
      {| priv_banner := priv_banner s;
         priv_bannerEnabled := priv_bannerEnabled s;
         priv_skipBanner := priv_skipBanner s;
         priv_bannerRendered := priv_bannerRendered s;
         priv_level := Num 0;
         priv_timestampEnabled := priv_timestampEnabled s |}.

Definition skipBanner (s : t) (b : value) : t * bool :=
      let s' :=
        if defined b then
          {| priv_banner := priv_banner s;
             priv_bannerEnabled := priv_bannerEnabled s;
             priv_skipBanner := truthy b;
             priv_bannerRendered := priv_bannerRendered s;
             priv_level := priv_level s;
             priv_timestampEnabled := priv_timestampEnabled s |}
        else s in
      (s', priv_skipBanner s').

Definition timestampEnabled (s : t) (b : value) : t * bool :=
      let s' :=
        if defined b then
          {| priv_banner := priv_banner s;
             priv_bannerEnabled := priv_bannerEnabled s;
             priv_skipBanner := priv_skipBanner s;
             priv_bannerRendered := priv_bannerRendered s;
             priv_level := priv_level s;
             priv_timestampEnabled := truthy b |}
        else s in
      (s', priv_timestampEnabled s').

    (** ** Call sequences

        A process uses its one logger through a sequence of method
        calls; [call] names one call with its arguments and, for the
        calls that may write, the time at which it is made.  What the
        listeners of [cli:logger-banner] do to the logger when they are
        notified are further calls of the sequence, made after those of
        [banner()] itself. *)
Inductive call : Type :=
    | CLog (now : Z) (msg : option string) (args : list value)
    | CTrace (now : Z) (msg : option string) (args : list value)
    | CDebug (now : Z) (msg : option string) (args : list value)
    | CError (now : Z) (msg : option string) (args : list value)
    | CInfo (now : Z) (msg : option string) (args : list value)
    | CWarn (now : Z) (msg : option string) (args : list value)
    | CRender (now : Z) (level : Z) (out : stream) (msg : string)
    | CBanner
    | CBannerEnabled (b : value)
    | CSkipBanner (b : value)
    | CTimestampEnabled (b : value)
    | CSetBanner (a : about)
    | CSetLevel (level : string)
    | CSilence.

Definition step (s : t) (c : call) : t * list effect :=
      match c with
      | CLog now msg args => (s, log s now msg args)
      | CTrace now msg args => (s, trace s now msg args)
      | CDebug now msg args => (s, debug s now msg args)
      | CError now msg args => (s, error s now msg args)
      | CInfo now msg args => (s, info s now msg args)
      | CWarn now msg args => (s, warn s now msg args)
      | CRender now level out msg => (s, render s now level out msg)
      | CBanner => banner s
      | CBannerEnabled b => (fst (bannerEnabled s b), [])
      | CSkipBanner b => (fst (skipBanner s b), [])
      | CTimestampEnabled b => (fst (timestampEnabled s b), [])
      | CSetBanner a => (setBanner s a, [])
      | CSetLevel level => (setLevel s level, [])
      | CSilence => (silence s, [])
      end.

Fixpoint run (s : t) (cs : list call) : t * list effect :=
      match cs with
      | [] => (s, [])
      | c :: rest =>
          let (s1, out1) := step s c in
          let (s2, out2) := run s1 rest in
          (s2, (out1 ++ out2)%list)
      end.

End Methods.

  (** The six calls that write a message. *)
Definition output_call (c : call) : bool :=
    match c with
    | CLog _ _ _ | CTrace _ _ _ | CDebug _ _ _
    | CError _ _ _ | CInfo _ _ _ | CWarn _ _ _ => true
    | _ => false
    end.

End Logger.

(* ================================================================== *)
(** * Command descriptors *)
(* ================================================================== *)

Module Descriptor.

(** The entry of a [flags] map, with the properties the registrar reads. *)
Module Flag.
Record t : Type := {
  abbr : option string;
  desc : option string;
  hidden : bool
}.
End Flag.

(** The entry of an [options] map.  [values] is [Some] exactly when the
    property is an array; [callback] is [Some] exactly when the property
    is a function, named here by a number. *)
Module Opt.
Record t : Type := {
  abbr : option string;
  desc : option string;
  hidden : bool;
  default : value;
  values : option (list string);
  callback : option nat
}.
End Opt.

(** An element of the [args] array. *)
Module Arg.
Record t : Type := {
  name : string;
  desc : option string;
  required : bool;
  variadic : bool;
  default : value;
  values : option (list string)
}.
End Arg.

(** A command descriptor.  The maps are kept as their entries in
    [Object.entries] order; [None] is an absent property. *)
#[warnings="-register-all"]
Inductive conf : Type := Conf {
  title : option string;
  alias : option string;
  flags : option (list (string * Flag.t));
  options : option (list (string * Opt.t));
  args : option (list Arg.t);
  subcommands : option (list (string * conf));
  defaultSubcommand : option string;
  platforms : option (list (string * conf));
  hidden : bool
}.

End Descriptor.

(* ================================================================== *)
(** * Command nodes *)
(* ================================================================== *)

(** The command nodes, their options and their events belong to the
    command-line package the CLI is built on.  The package is not among
    the sources, so this module records what [applyCommandConfig] asks
    of a node (which options, listeners, hooks and handlers it adds) and
    interprets it the way the package documents: an option found on the
    command line raises the event [option:<name>], whose listeners run
    in registration order; a value outside the choices of an option is
    reported through the node's [outputError]; the [preAction] hooks and
    then the action run once every option has been handled. *)
Module Commander.

(** Whether an option takes no value ([--name]) or an optional one
    ([--name [value]]): the two forms the registrar writes. *)
Inductive arity : Type := Boolean | OptionalValue.

(** An [Option].  The package derives [short] and [long] from the
    [flags] text; for the names of a descriptor, which hold no blank,
    comma or bar, they are the [-abbr] and [--name] the text was built
    from, and the model keeps them beside the text. *)
Record Option : Type := {
  flags : string;
  short : option string;
  long : string;
  takes : arity;
  description : option string;
  hidden : bool;
  defaultValue : value;
  argChoices : option (list string)
}.

Definition newOption (flags : string) (short : option string) (long : string)
           (takes : arity) (description : option string) : Option :=
  {| flags := flags; short := short; long := long; takes := takes;
     description := description; hidden := false;
     defaultValue := VUndefined; argChoices := None |}.

Definition hideHelp (o : Option) (hide : bool) : Option :=
  {| flags := flags o; short := short o; long := long o; takes := takes o;
     description := description o; hidden := hide;
     defaultValue := defaultValue o; argChoices := argChoices o |}.

Definition default (o : Option) (v : value) : Option :=
  {| flags := flags o; short := short o; long := long o; takes := takes o;
     description := description o; hidden := hidden o;
     defaultValue := v; argChoices := argChoices o |}.

Definition choices (o : Option) (vs : list string) : Option :=
  {| flags := flags o; short := short o; long := long o; takes := takes o;
     description := description o; hidden := hidden o;
     defaultValue := defaultValue o; argChoices := Some vs |}.

(** [option.name()]: the long flag without its two dashes. *)
Definition name (o : Option) : string :=
  if JS.startsWith "--" (long o)
  then String.substring 2 (String.length (long o) - 2) (long o)
  else long o.

(** [option.negate] *)
Definition negate (o : Option) : bool := JS.startsWith "--no-" (long o).

Definition toUpperCase (c : ascii) : ascii :=
  let n := nat_of_ascii c in
  if ((97 <=? n) && (n <=? 122))%nat then ascii_of_nat (n - 32) else c.

(** Joins the words between dashes, each word after the first with its
    first letter in upper case.  (The package does not accept a name
    with an empty word after a dash; here the dash is dropped.) *)
Fixpoint camelcase (s : string) : string :=
  match s with
  | EmptyString => EmptyString
  | String c rest =>
      if (c =? "-")%char then
        match rest with
        | EmptyString => EmptyString
        | String d rest' =>
            if (d =? "-")%char then camelcase rest
            else String (toUpperCase d) (camelcase rest')
        end
      else String c (camelcase rest)
  end.

(** [option.attributeName()]: the key of the option in the values of
    its node. *)
Definition attributeName (o : Option) : string :=
  if negate o
  then camelcase (String.substring 3 (String.length (name o) - 3) (name o))
  else camelcase (name o).

(** [option.is(arg)] *)
Definition is_flag (o : Option) (arg : string) : bool :=
  match short o with
  | Some s => (s =? arg) || (long o =? arg)
  | None => long o =? arg
  end.

(** An [Argument], with the text it was declared by. *)
Record Argument : Type := {
  arg_name : string;
  arg_description : option string;
  arg_default : value;
  arg_choices : option (list string)
}.

(** The functions that the registrar hands to a node are closures over
    its own variables.  Each kind of closure is a constructor carrying
    the variables it captures; the functions [emit], [runHook] and
    [help] below give their bodies. *)

(** A listener of an [option:<name>] event: the handler that
    [addOption] installs to store the value of its option, or the
    listener of the synthetic [--timestamp] flag. *)
Inductive Listener : Type :=
| StoreValue (o : Option)
| EnableTimestamp.

(** The [preAction] hook of an option: it captures the option name, the
    [Option], [meta.callback] and [conf.platforms]. *)
Record Hook : Type := {
  hook_name : string;
  hook_opt : Option;
  hook_callback : option nat;
  hook_platforms : option (list (string * Descriptor.conf))
}.

(** [outputError]: the default writes the message to standard error;
    [RaiseTiError] is the handler given to every subcommand. *)
Inductive OutputError : Type := WriteErr | RaiseTiError.

(** The text hook [addHelpText('beforeAll', ...)] of a subcommand. *)
Inductive HelpHook : Type := ShowBanner.

(** The action [(...args) => cli.executeCommand(args)]. *)
Inductive Action : Type := RunExecuteCommand.

(** What [conf.platforms?.[value]] finds: a descriptor of the object,
    or a member of [Object.prototype], which the object inherits. *)
Inductive PlatformConf : Type :=
| OwnPlatform (c : Descriptor.conf)
| InheritedMember (name : string).

Record HelpConfiguration : Type := {
  helpWidth : Z;
  showGlobalOptions : bool;
  sortSubcommands : bool
}.

#[warnings="-register-all"]
Inductive Command : Type := Node {
  cmd_name : string;
  cmd_title : option string;
  aliases : list string;
  options : list Option;
  optionValues : list (string * value);
  listeners : list (string * Listener);
  preActionHooks : list Hook;
  registeredArguments : list Argument;
  commands : list Command;
  defaultCommandName : option string;
  cmd_hidden : bool;
  allowUnknownOption : bool;
  helpBeforeAll : list HelpHook;
  helpConfiguration : option HelpConfiguration;
  outputError : OutputError;
  actionHandler : option Action;
  cmd_conf : option Descriptor.conf;
  cmd_module : option nat;
  cmd_platform : option PlatformConf
}.

(** [new Command(name)] *)
Definition newCommand (name : string) : Command :=
  {| cmd_name := name; cmd_title := None; aliases := []; options := [];
     optionValues := []; listeners := []; preActionHooks := [];
     registeredArguments := []; commands := []; defaultCommandName := None;
     cmd_hidden := false; allowUnknownOption := false; helpBeforeAll := [];
     helpConfiguration := None; outputError := WriteErr;
     actionHandler := None; cmd_conf := None; cmd_module := None;
     cmd_platform := None |}.

(** Field updates of a node. *)
Definition set_cmd_title (c : Command) (x : option string) : Command :=
  {| cmd_name := cmd_name c; cmd_title := x; aliases := aliases c;
     options := options c; optionValues := optionValues c;
     listeners := listeners c; preActionHooks := preActionHooks c;
     registeredArguments := registeredArguments c; commands := commands c;
     defaultCommandName := defaultCommandName c; cmd_hidden := cmd_hidden c;
     allowUnknownOption := allowUnknownOption c;
     helpBeforeAll := helpBeforeAll c;
     helpConfiguration := helpConfiguration c; outputError := outputError c;
     actionHandler := actionHandler c; cmd_conf := cmd_conf c;
     cmd_module := cmd_module c; cmd_platform := cmd_platform c |}.

Definition set_aliases (c : Command) (x : list string) : Command :=
  {| cmd_name := cmd_name c; cmd_title := cmd_title c; aliases := x;
     options := options c; optionValues := optionValues c;
     listeners := listeners c; preActionHooks := preActionHooks c;
     registeredArguments := registeredArguments c; commands := commands c;
     defaultCommandName := defaultCommandName c; cmd_hidden := cmd_hidden c;
     allowUnknownOption := allowUnknownOption c;
     helpBeforeAll := helpBeforeAll c;
     helpConfiguration := helpConfiguration c; outputError := outputError c;
     actionHandler := actionHandler c; cmd_conf := cmd_conf c;
     cmd_module := cmd_module c; cmd_platform := cmd_platform c |}.

Definition set_options (c : Command) (x : list Option) : Command :=
  {| cmd_name := cmd_name c; cmd_title := cmd_title c; aliases := aliases c;
     options := x; optionValues := optionValues c; listeners := listeners c;
     preActionHooks := preActionHooks c;
     registeredArguments := registeredArguments c; commands := commands c;
     defaultCommandName := defaultCommandName c; cmd_hidden := cmd_hidden c;
     allowUnknownOption := allowUnknownOption c;
     helpBeforeAll := helpBeforeAll c;
     helpConfiguration := helpConfiguration c; outputError := outputError c;
     actionHandler := actionHandler c; cmd_conf := cmd_conf c;
     cmd_module := cmd_module c; cmd_platform := cmd_platform c |}.

Definition set_optionValues (c : Command) (x : list (string * value)) : Command :=
  {| cmd_name := cmd_name c; cmd_title := cmd_title c; aliases := aliases c;
     options := options c; optionValues := x; listeners := listeners c;
     preActionHooks := preActionHooks c;
     registeredArguments := registeredArguments c; commands := commands c;
     defaultCommandName := defaultCommandName c; cmd_hidden := cmd_hidden c;
     allowUnknownOption := allowUnknownOption c;
     helpBeforeAll := helpBeforeAll c;
     helpConfiguration := helpConfiguration c; outputError := outputError c;
     actionHandler := actionHandler c; cmd_conf := cmd_conf c;
     cmd_module := cmd_module c; cmd_platform := cmd_platform c |}.

Definition set_listeners (c : Command) (x : list (string * Listener)) : Command :=
  {| cmd_name := cmd_name c; cmd_title := cmd_title c; aliases := aliases c;
     options := options c; optionValues := optionValues c; listeners := x;
     preActionHooks := preActionHooks c;
     registeredArguments := registeredArguments c; commands := commands c;
     defaultCommandName := defaultCommandName c; cmd_hidden := cmd_hidden c;
     allowUnknownOption := allowUnknownOption c;
     helpBeforeAll := helpBeforeAll c;
     helpConfiguration := helpConfiguration c; outputError := outputError c;
     actionHandler := actionHandler c; cmd_conf := cmd_conf c;
     cmd_module := cmd_module c; cmd_platform := cmd_platform c |}.

Definition set_preActionHooks (c : Command) (x : list Hook) : Command :=
  {| cmd_name := cmd_name c; cmd_title := cmd_title c; aliases := aliases c;
     options := options c; optionValues := optionValues c;
     listeners := listeners c; preActionHooks := x;
     registeredArguments := registeredArguments c; commands := commands c;
     defaultCommandName := defaultCommandName c; cmd_hidden := cmd_hidden c;
     allowUnknownOption := allowUnknownOption c;
     helpBeforeAll := helpBeforeAll c;
     helpConfiguration := helpConfiguration c; outputError := outputError c;
     actionHandler := actionHandler c; cmd_conf := cmd_conf c;
     cmd_module := cmd_module c; cmd_platform := cmd_platform c |}.

Definition set_registeredArguments (c : Command) (x : list Argument) : Command :=
  {| cmd_name := cmd_name c; cmd_title := cmd_title c; aliases := aliases c;
     options := options c; optionValues := optionValues c;
     listeners := listeners c; preActionHooks := preActionHooks c;
     registeredArguments := x; commands := commands c;
     defaultCommandName := defaultCommandName c; cmd_hidden := cmd_hidden c;
     allowUnknownOption := allowUnknownOption c;
     helpBeforeAll := helpBeforeAll c;
     helpConfiguration := helpConfiguration c; outputError := outputError c;
     actionHandler := actionHandler c; cmd_conf := cmd_conf c;
     cmd_module := cmd_module c; cmd_platform := cmd_platform c |}.

Definition set_commands (c : Command) (x : list Command) : Command :=
  {| cmd_name := cmd_name c; cmd_title := cmd_title c; aliases := aliases c;
     options := options c; optionValues := optionValues c;
     listeners := listeners c; preActionHooks := preActionHooks c;
     registeredArguments := registeredArguments c; commands := x;
     defaultCommandName := defaultCommandName c; cmd_hidden := cmd_hidden c;
     allowUnknownOption := allowUnknownOption c;
     helpBeforeAll := helpBeforeAll c;
     helpConfiguration := helpConfiguration c; outputError := outputError c;
     actionHandler := actionHandler c; cmd_conf := cmd_conf c;
     cmd_module := cmd_module c; cmd_platform := cmd_platform c |}.

Definition set_defaultCommandName (c : Command) (x : option string) : Command :=
  {| cmd_name := cmd_name c; cmd_title := cmd_title c; aliases := aliases c;
     options := options c; optionValues := optionValues c;
     listeners := listeners c; preActionHooks := preActionHooks c;
     registeredArguments := registeredArguments c; commands := commands c;
     defaultCommandName := x; cmd_hidden := cmd_hidden c;
     allowUnknownOption := allowUnknownOption c;
     helpBeforeAll := helpBeforeAll c;
     helpConfiguration := helpConfiguration c; outputError := outputError c;
     actionHandler := actionHandler c; cmd_conf := cmd_conf c;
     cmd_module := cmd_module c; cmd_platform := cmd_platform c |}.

Definition set_cmd_hidden (c : Command) (x : bool) : Command :=
  {| cmd_name := cmd_name c; cmd_title := cmd_title c; aliases := aliases c;
     options := options c; optionValues := optionValues c;
     listeners := listeners c; preActionHooks := preActionHooks c;
     registeredArguments := registeredArguments c; commands := commands c;
     defaultCommandName := defaultCommandName c; cmd_hidden := x;
     allowUnknownOption := allowUnknownOption c;
     helpBeforeAll := helpBeforeAll c;
     helpConfiguration := helpConfiguration c; outputError := outputError c;
     actionHandler := actionHandler c; cmd_conf := cmd_conf c;
     cmd_module := cmd_module c; cmd_platform := cmd_platform c |}.

Definition set_helpBeforeAll (c : Command) (x : list HelpHook) : Command :=
  {| cmd_name := cmd_name c; cmd_title := cmd_title c; aliases := aliases c;
     options := options c; optionValues := optionValues c;
     listeners := listeners c; preActionHooks := preActionHooks c;
     registeredArguments := registeredArguments c; commands := commands c;
     defaultCommandName := defaultCommandName c; cmd_hidden := cmd_hidden c;
     allowUnknownOption := allowUnknownOption c; helpBeforeAll := x;
     helpConfiguration := helpConfiguration c; outputError := outputError c;
     actionHandler := actionHandler c; cmd_conf := cmd_conf c;
     cmd_module := cmd_module c; cmd_platform := cmd_platform c |}.

Definition set_helpConfiguration (c : Command) (x : option HelpConfiguration) : Command :=
  {| cmd_name := cmd_name c; cmd_title := cmd_title c; aliases := aliases c;
     options := options c; optionValues := optionValues c;
     listeners := listeners c; preActionHooks := preActionHooks c;
     registeredArguments := registeredArguments c; commands := commands c;
     defaultCommandName := defaultCommandName c; cmd_hidden := cmd_hidden c;
     allowUnknownOption := allowUnknownOption c;
     helpBeforeAll := helpBeforeAll c; helpConfiguration := x;
     outputError := outputError c; actionHandler := actionHandler c;
     cmd_conf := cmd_conf c; cmd_module := cmd_module c;
     cmd_platform := cmd_platform c |}.

Definition set_outputError (c : Command) (x : OutputError) : Command :=
  {| cmd_name := cmd_name c; cmd_title := cmd_title c; aliases := aliases c;
     options := options c; optionValues := optionValues c;
     listeners := listeners c; preActionHooks := preActionHooks c;
     registeredArguments := registeredArguments c; commands := commands c;
     defaultCommandName := defaultCommandName c; cmd_hidden := cmd_hidden c;
     allowUnknownOption := allowUnknownOption c;
     helpBeforeAll := helpBeforeAll c;
     helpConfiguration := helpConfiguration c; outputError := x;
     actionHandler := actionHandler c; cmd_conf := cmd_conf c;
     cmd_module := cmd_module c; cmd_platform := cmd_platform c |}.

Definition set_actionHandler (c : Command) (x : option Action) : Command :=
  {| cmd_name := cmd_name c; cmd_title := cmd_title c; aliases := aliases c;
     options := options c; optionValues := optionValues c;
     listeners := listeners c; preActionHooks := preActionHooks c;
     registeredArguments := registeredArguments c; commands := commands c;
     defaultCommandName := defaultCommandName c; cmd_hidden := cmd_hidden c;
     allowUnknownOption := allowUnknownOption c;
     helpBeforeAll := helpBeforeAll c;
     helpConfiguration := helpConfiguration c; outputError := outputError c;
     actionHandler := x; cmd_conf := cmd_conf c; cmd_module := cmd_module c;
     cmd_platform := cmd_platform c |}.

Definition set_cmd_conf (c : Command) (x : option Descriptor.conf) : Command :=
  {| cmd_name := cmd_name c; cmd_title := cmd_title c; aliases := aliases c;
     options := options c; optionValues := optionValues c;
     listeners := listeners c; preActionHooks := preActionHooks c;
     registeredArguments := registeredArguments c; commands := commands c;
     defaultCommandName := defaultCommandName c; cmd_hidden := cmd_hidden c;
     allowUnknownOption := allowUnknownOption c;
     helpBeforeAll := helpBeforeAll c;
     helpConfiguration := helpConfiguration c; outputError := outputError c;
     actionHandler := actionHandler c; cmd_conf := x;
     cmd_module := cmd_module c; cmd_platform := cmd_platform c |}.

Definition set_cmd_module (c : Command) (x : option nat) : Command :=
  {| cmd_name := cmd_name c; cmd_title := cmd_title c; aliases := aliases c;
     options := options c; optionValues := optionValues c;
     listeners := listeners c; preActionHooks := preActionHooks c;
     registeredArguments := registeredArguments c; commands := commands c;
     defaultCommandName := defaultCommandName c; cmd_hidden := cmd_hidden c;
     allowUnknownOption := allowUnknownOption c;
     helpBeforeAll := helpBeforeAll c;
     helpConfiguration := helpConfiguration c; outputError := outputError c;
     actionHandler := actionHandler c; cmd_conf := cmd_conf c;
     cmd_module := x; cmd_platform := cmd_platform c |}.

Definition set_cmd_platform (c : Command) (x : option PlatformConf) : Command :=
  {| cmd_name := cmd_name c; cmd_title := cmd_title c; aliases := aliases c;
     options := options c; optionValues := optionValues c;
     listeners := listeners c; preActionHooks := preActionHooks c;
     registeredArguments := registeredArguments c; commands := commands c;
     defaultCommandName := defaultCommandName c; cmd_hidden := cmd_hidden c;
     allowUnknownOption := allowUnknownOption c;
     helpBeforeAll := helpBeforeAll c;
     helpConfiguration := helpConfiguration c; outputError := outputError c;
     actionHandler := actionHandler c; cmd_conf := cmd_conf c;
     cmd_module := cmd_module c; cmd_platform := x |}.

(** [setOptionValueWithSource(key, value, source)], on the values of a
    node kept as the entries of the object. *)
Fixpoint put (vs : list (string * value)) (key : string) (v : value)
  : list (string * value) :=
  match vs with
  | [] => [(key, v)]
  | (k, w) :: rest =>
      if k =? key then (k, v) :: rest else (k, w) :: put rest key v
  end.

Definition setOptionValue (c : Command) (key : string) (v : value) : Command :=
  set_optionValues c (put (optionValues c) key v).

(** [getOptionValue(key)] *)
Definition getOptionValue (c : Command) (key : string) : value :=
  match JS.get (optionValues c) key with
  | Some v => v
  | None => VUndefined
  end.

(** [_findOption(arg)] *)
Definition findOption (c : Command) (arg : string) : option Option :=
  find (fun o => is_flag o arg) (options c).

(** Modelled from the spec: [addOption(option)] of the command-line
    package, which is not among the sources.  It registers the option,
    stores its default, so that the default applies whenever the option
    is omitted, and listens to the event of the option.  A negated
    option [--no-x] defaults [x] to true unless [--x] is registered.
    (Recent versions of the package refuse an option whose flag is
    already in use on the node; the model registers it, and the
    properties that need the flags of a node to be distinct say so.) *)
Definition addOption (c : Command) (o : Option) : Command :=
  let c1 := set_options c (options c ++ [o]) in
  let c2 :=
    if negate o then
      match findOption c1 ("--" ++ String.substring 5 (String.length (long o) - 5) (long o)) with
      | Some _ => c1
      | None =>
          setOptionValue c1 (attributeName o)
            (if JS.defined (defaultValue o) then defaultValue o else VBool true)
      end
    else if JS.defined (defaultValue o)
         then setOptionValue c1 (attributeName o) (defaultValue o)
         else c1 in
  set_listeners c2 (listeners c2 ++ [("option:" ++ name o, StoreValue o)]).

(** [on(event, listener)] *)
Definition on (c : Command) (event : string) (l : Listener) : Command :=
  set_listeners c (listeners c ++ [(event, l)]).

(** [hook('preAction', listener)] *)
Definition hook (c : Command) (h : Hook) : Command :=
  set_preActionHooks c (preActionHooks c ++ [h]).





(** [addArgument(argument)], for an argument that the node accepts
    (see [refusesArgument]). *)
Definition addArgument (c : Command) (a : Argument) : Command :=
  set_registeredArguments c (registeredArguments c ++ [a]).

(** [addCommand(cmd, { isDefault, hidden })] *)
Definition addCommand (c : Command) (sub : Command) (isDefault hide : bool)
  : Command :=
  let c1 := if isDefault
            then set_defaultCommandName c (Some (cmd_name sub)) else c in
  let sub1 := if hide then set_cmd_hidden sub true else sub in
  set_commands c1 (commands c1 ++ [sub1]).

End Commander.

(* ================================================================== *)
(** * The state of the CLI and the ways a computation ends *)
(* ================================================================== *)

(** A failure value: a [TiError] with its message, or any other error
    with its stack; both may carry [before] and [after] blocks. *)
Inductive Error : Type :=
| TiError (message : string) (before after : option string)
| Unexpected (stack : string) (before after : option string).

(** The properties of the [CLI] object that the modelled code uses.
    [command] and [program] stand for the nodes they refer to. *)
Record CLI : Type := {
  ready : bool;
  logger : Logger.t;
  command : option Commander.Command;
  program : option Commander.Command
}.

Definition set_logger (cli : CLI) (l : Logger.t) : CLI :=
  {| ready := ready cli; logger := l;
     command := command cli; program := program cli |}.

Definition set_command (cli : CLI) (c : option Commander.Command) : CLI :=
  {| ready := ready cli; logger := logger cli;
     command := c; program := program cli |}.

(** How a computation ends: normally, by a [throw], or by
    [process.exit]. *)
Inductive completion (A : Type) : Type :=
| Normal (a : A)
| Throw (e : Error)
| ExitProcess (code : Z).

Arguments Normal {A} a.
Arguments Throw {A} e.
Arguments ExitProcess {A} code.

(* ================================================================== *)
(** * The registrar: [applyCommandConfig] *)
(* ================================================================== *)

Module Registrar.

Import Commander.

(** The reserved option name. *)
Definition sdk : string := "sdk".

(** The text [-abbr, ] written before a long flag when [meta.abbr] is
    truthy. *)
Definition abbrPrefix (abbr : option string) : string :=
  match abbr with
  | Some a => if a =? "" then "" else "-" ++ a ++ ", "
  | None => ""
  end.

(** The short flag that the package reads back from that text. *)
Definition shortOf (abbr : option string) : option string :=
  match abbr with
  | Some a => if a =? "" then None else Some ("-" ++ a)
  | None => None
  end.

(** The [Option] built for the entry [name: meta] of [conf.flags]. *)
Definition flagOption (name : string) (meta : Descriptor.Flag.t) : Option :=
  let opt := newOption (abbrPrefix (Descriptor.Flag.abbr meta) ++ "--" ++ name)
                       (shortOf (Descriptor.Flag.abbr meta)) ("--" ++ name)
                       Boolean (Descriptor.Flag.desc meta) in
  if Descriptor.Flag.hidden meta then hideHelp opt true else opt.

(** One turn of the loop over [conf.flags]. *)
Definition applyFlag (cmdName : string) (acc : Command * list effect)
           (entry : string * Descriptor.Flag.t) : Command * list effect :=
  let (cmd, notes) := acc in
  let (name, meta) := entry in
  (addOption cmd (flagOption name meta),
   (notes ++ [Trace ("Adding " ++ dq ++ cmdName ++ dq ++ " flag: "
                     ++ abbrPrefix (Descriptor.Flag.abbr meta) ++ "--" ++ name)])%list).

(** The [Option] built for the entry [name: meta] of [conf.options]. *)
Definition optionOption (name : string) (meta : Descriptor.Opt.t) : Option :=
  let long := "--" ++ name in
  let opt := newOption (abbrPrefix (Descriptor.Opt.abbr meta) ++ long ++ " [value]")
                       (shortOf (Descriptor.Opt.abbr meta)) long
                       OptionalValue (Descriptor.Opt.desc meta) in
  let opt := if Descriptor.Opt.hidden meta then hideHelp opt true else opt in
  let opt := if JS.defined (Descriptor.Opt.default meta)
             then default opt (Descriptor.Opt.default meta) else opt in
  match Descriptor.Opt.values meta with
  | Some vs => choices opt vs
  | None => opt
  end.

(** [typeof meta.callback === 'function' || name === 'platform'] *)
Definition wantsHook (name : string) (meta : Descriptor.Opt.t) : bool :=
  match Descriptor.Opt.callback meta with
  | Some _ => true
  | None => name =? "platform"
  end.

(** One turn of the loop over [conf.options]. *)
Definition applyOption (cmdName : string) (conf : Descriptor.conf)
           (acc : Command * list effect)
           (entry : string * Descriptor.Opt.t) : Command * list effect :=
  let (cmd, notes) := acc in
  let (name, meta) := entry in
  if name =? sdk then
    (cmd, (notes ++ [Trace ("Skipping " ++ dq ++ cmdName ++ dq
                            ++ " option: --" ++ name)])%list)
  else
    let opt := optionOption name meta in
    let note := Trace ("Adding " ++ dq ++ cmdName ++ dq ++ " option: "
                       ++ abbrPrefix (Descriptor.Opt.abbr meta)
                       ++ "--" ++ name ++ " [value]") in
    let cmd := addOption cmd opt in
    let cmd :=
      if wantsHook name meta then
        hook cmd {| hook_name := name; hook_opt := opt;
                    hook_callback := Descriptor.Opt.callback meta;
                    hook_platforms := Descriptor.platforms conf |}
      else cmd in
    (cmd, (notes ++ [note])%list).

(** The synthetic flag: [cmd.option('--timestamp', ...)] and the
    listener of its event. *)
Definition timestampOption : Option :=
  newOption "--timestamp" None "--timestamp" Boolean
            (Some "displays a timestamp in front of log lines").

(** [conf.options['log-level'] && !conf.options.timestamp]: an entry
    of the map is an object, hence truthy. *)
Definition wantsTimestamp (opts : list (string * Descriptor.Opt.t)) : bool :=
  match JS.get opts "log-level", JS.get opts "timestamp" with
  | Some _, None => true
  | _, _ => false
  end.

Definition applyTimestamp (cmdName : string)
           (opts : list (string * Descriptor.Opt.t))
           (acc : Command * list effect) : Command * list effect :=
  let (cmd, notes) := acc in
  if wantsTimestamp opts then
    (on (addOption cmd timestampOption) "option:timestamp" EnableTimestamp,
     (notes ++ [Trace ("Adding " ++ dq ++ cmdName ++ dq
                       ++ " option: --timestamp")])%list)
  else acc.

(** The text of an argument: [<name>] or [[name]], with [...] when
    variadic. *)
Definition argFormat (meta : Descriptor.Arg.t) : string :=
  let v := if Descriptor.Arg.variadic meta then "..." else "" in
  if Descriptor.Arg.required meta
  then "<" ++ Descriptor.Arg.name meta ++ v ++ ">"
  else "[" ++ Descriptor.Arg.name meta ++ v ++ "]".

(** One turn of the loop over [conf.args]. *)
Definition applyArg (cmdName : string) (acc : Command * list effect)
           (meta : Descriptor.Arg.t) : Command * list effect :=
  let (cmd, notes) := acc in
  let fmt := argFormat meta in
  (addArgument cmd
     {| arg_name := fmt;
        arg_description := Descriptor.Arg.desc meta;
        arg_default := Descriptor.Arg.default meta;
        arg_choices := Descriptor.Arg.values meta |},
   (notes ++ [Trace ("Adding " ++ dq ++ cmdName ++ dq ++ " arg: " ++ fmt)])%list).

(** The part of [applyCommandConfig] before the loop over the
    subcommands: title, alias, flags, options, the synthetic flag and
    the arguments.  The functions of this module give the node that a
    call leaves when the package accepts every registration it makes;
    [refused], among the notions below, tells when the package throws
    instead: for an alias that is the name of the node, for an
    argument that the node refuses, for a subcommand without a name. *)
Definition applyOwn (cmdName : string) (cmd : Command)
           (conf : Descriptor.conf) : Command * list effect :=
  let cmd := if JS.truthy_str (Descriptor.title conf)
             then set_cmd_title cmd (Descriptor.title conf) else cmd in
  let cmd := match Descriptor.alias conf with
             | Some a => if a =? "" then cmd
                         else set_aliases cmd (aliases cmd ++ [a])
             | None => cmd
             end in
  let acc := match Descriptor.flags conf with
             | Some fs => fold_left (applyFlag cmdName) fs (cmd, [])
             | None => (cmd, [])
             end in
  let acc := match Descriptor.options conf with
             | Some os =>
                 applyTimestamp cmdName os
                   (fold_left (applyOption cmdName conf) os acc)
             | None => acc
             end in
  match Descriptor.args conf with
  | Some args => fold_left (applyArg cmdName) args acc
  | None => acc
  end.

Section WithEnv.

Variable E : Env.

(** The node made for a subcommand before its descriptor is applied:
    [new Command(name)] with its help text hook, help configuration,
    output configuration and action. *)
Definition newSubcommand (name : string) : Command :=
  let subcmd := newCommand name in
  let subcmd := set_helpBeforeAll subcmd (helpBeforeAll subcmd ++ [ShowBanner]) in
  let subcmd := set_helpConfiguration subcmd
                  (Some {| helpWidth := cliWidth E;
                           showGlobalOptions := true;
                           sortSubcommands := true |}) in
  let subcmd := set_outputError subcmd RaiseTiError in
  set_actionHandler subcmd (Some RunExecuteCommand).

(** One turn of the loop over [conf.subcommands], given what applying
    the sub-descriptor to the new child node returns: the note, the
    [conf] and [module] properties of the child, and [addCommand]. *)
Definition attach (cmdName : string) (conf : Descriptor.conf)
           (acc : Command * list effect) (name : string)
           (subconf : Descriptor.conf) (applied : Command * list effect)
  : Command * list effect :=
  let (cmd, notes) := acc in
  let isDefault :=
    match Descriptor.defaultSubcommand conf with
    | Some d => d =? name
    | None => false
    end in
  let note :=
    Trace ("Adding subcommand " ++ dq ++ name ++ dq
           ++ (if isDefault then " (default)" else "")
           ++ " to " ++ dq ++ cmdName ++ dq) in
  let (subcmd, subnotes) := applied in
  let subcmd := set_cmd_conf subcmd (Some subconf) in
  let subcmd := set_cmd_module subcmd (cmd_module cmd) in
  (addCommand cmd subcmd isDefault (Descriptor.hidden subconf),
   (notes ++ [note] ++ subnotes)%list).

(** [applyCommandConfig(cli, cmdName, cmd, conf)]: the node after the
    call and the notes given to [cli.debugLogger.trace].  The call of
    [cli.applyConfig] on each new child node is the recursive call (see
    [applyConfig] below). *)
Fixpoint applyCommandConfig (cmdName : string) (cmd : Command)
         (conf : Descriptor.conf) {struct conf} : Command * list effect :=
  let acc := applyOwn cmdName cmd conf in
  match Descriptor.subcommands conf with
  | Some subs =>
      (fix each (subs : list (string * Descriptor.conf))
           (acc : Command * list effect) {struct subs} : Command * list effect :=
         match subs with
         | [] => acc
         | (name, subconf) :: rest =>
             each rest
                  (attach cmdName conf acc name subconf
                          (applyCommandConfig name (newSubcommand name) subconf))
         end) subs acc
  | None => acc
  end.

(** Modelled from the spec: [cli.applyConfig(name, subcmd, subconf)],
    which is not among the sources.  The registrar wires each
    sub-descriptor into its new child node recursively, so the call
    applies the sub-descriptor to the child as [applyCommandConfig]
    does. *)
Definition applyConfig (name : string) (subcmd : Command)
           (subconf : Descriptor.conf) : Command * list effect :=
  applyCommandConfig name subcmd subconf.

End WithEnv.

End Registrar.

(* ================================================================== *)
(** * Parsing and running a node *)
(* ================================================================== *)

(** What happens on a node when the command line is parsed against it,
    for the parts that the registrar wires: the [option:<name>] events
    with their listeners, the check of the choices, the [preAction]
    hooks and the action.  A computation reads and writes the [CLI]
    object and the node, produces effects, and ends normally, by a
    [throw] or by leaving the process. *)
Module Dispatch.

Import Commander.

Definition M (A : Type) : Type :=
  CLI -> Command -> CLI * Command * list effect * completion A.

Definition ret {A : Type} (a : A) : M A :=
  fun cli c => (cli, c, [], Normal a).

Definition bind {A B : Type} (m : M A) (k : A -> M B) : M B :=
  fun cli c =>
    match m cli c with
    | (cli1, c1, out1, Normal a) =>
        match k a cli1 c1 with
        | (cli2, c2, out2, r) => (cli2, c2, (out1 ++ out2)%list, r)
        end
    | (cli1, c1, out1, Throw e) => (cli1, c1, out1, Throw e)
    | (cli1, c1, out1, ExitProcess n) => (cli1, c1, out1, ExitProcess n)
    end.

Notation "x <- m ;; k" := (bind m (fun x => k))
  (at level 61, m at next level, right associativity).
Notation "m ;;; k" := (bind m (fun _ => k))
  (at level 61, right associativity).

(** [msg.replace(/^error:\s*/, '')] *)
Definition stripErrorPrefix (msg : string) : string :=
  if JS.startsWith "error:" msg
  then JS.trimStart (String.substring 6 (String.length msg - 6) msg)
  else msg.

(** Modelled from the spec: [error(message)] of a node of the
    package: the message goes to [outputError] with a line feed.  The
    default handler writes it to standard error and the node then
    leaves the process with status 1; the handler that
    [applyCommandConfig] gives to a subcommand records the node in
    [cli.command] and throws a [TiError] with the message less its
    [error:] prefix. *)
Definition error {A : Type} (message : string) : M A :=
  fun cli c =>
    match outputError c with
    | WriteErr => (cli, c, [Write Stderr (message ++ lf)], ExitProcess 1%Z)
    | RaiseTiError =>
        (set_command cli (Some c), c, [],
         Throw (TiError (stripErrorPrefix (message ++ lf)) None None))
    end.

(** The message for a value outside the choices of an option. *)
Definition invalidArgument (o : Option) (val : string) : string :=
  "error: option '" ++ flags o ++ "' argument '" ++ val
  ++ "' is invalid. Allowed choices are "
  ++ JS.join ", " (match argChoices o with Some vs => vs | None => [] end)
  ++ ".".

(** Whether the check installed by [choices] accepts the value. *)
Definition accepts (o : Option) (val : string) : bool :=
  match argChoices o with
  | Some vs => existsb (String.eqb val) vs
  | None => true
  end.

Definition store (key : string) (v : value) : M unit :=
  fun cli c => (cli, setOptionValue c key v, [], Normal tt).

(** Modelled from the spec: the handler that [addOption] installs
    for the event of its option.  [val] is the value on the command
    line, [None] when the option stands alone.  An option without a
    value becomes [true] ([false] when negated); a value outside the
    choices of the option is a usage error. *)
Definition handleOptionValue (o : Option) (val : option string) : M unit :=
  match takes o, val with
  | OptionalValue, Some v =>
      if accepts o v then store (attributeName o) (VStr v)
      else error (invalidArgument o v)
  | Boolean, _ =>
      match argChoices o with
      | Some _ => error (invalidArgument o "undefined")
      | None => store (attributeName o) (VBool (negb (negate o)))
      end
  | OptionalValue, None => store (attributeName o) (VBool (negb (negate o)))
  end.

(** The listener of [option:timestamp]:
    [if (cli.ready) cli.logger.timestampEnabled(true)]. *)
Definition enableTimestamp : M unit :=
  fun cli c =>
    ((if ready cli
      then set_logger cli (fst (Logger.timestampEnabled (logger cli) (VBool true)))
      else cli),
     c, [], Normal tt).

Definition runListener (l : Listener) (val : option string) : M unit :=
  match l with
  | StoreValue o => handleOptionValue o val
  | EnableTimestamp => enableTimestamp
  end.

(** Calls, in registration order, the listeners of [event]. *)
Fixpoint notify (ls : list (string * Listener)) (event : string)
         (val : option string) : M unit :=
  match ls with
  | [] => ret tt
  | (ev, l) :: rest =>
      if ev =? event
      then runListener l val ;;; notify rest event val
      else notify rest event val
  end.

(** [emit(event, val)] *)
Definition emit (event : string) (val : option string) : M unit :=
  fun cli c => notify (listeners c) event val cli c.

(** An option met on the command line: the flag as written and the
    value that follows it, if any. *)
Definition supplied : Type := (string * option string)%type.

(** Modelled from the spec: [parseOptions] of the package, on the
    options met on the command line.  Each flag that belongs to an
    option of the node raises the event of that option, with the value
    when the option takes one; the other flags are collected as
    unknown. *)
Fixpoint parseOptions (argv : list supplied) (unknown : list string)
  : M (list string) :=
  match argv with
  | [] => ret unknown
  | (flag, val) :: rest =>
      fun cli c =>
        match findOption c flag with
        | Some o =>
            (emit ("option:" ++ name o)
                  (match takes o with OptionalValue => val | Boolean => None end)
             ;;; parseOptions rest unknown) cli c
        | None => parseOptions rest (unknown ++ [flag])%list cli c
        end
  end.

(** [unknownOption(flag)], for the first unknown flag if there is one.
    (To the message of a long flag the package may add a hint that
    names similar flags of the node and of its ancestors; the hint is
    left out here.) *)
Definition checkForUnknownOptions (unknown : list string) : M unit :=
  match unknown with
  | [] => ret tt
  | flag :: _ =>
      fun cli c =>
        if allowUnknownOption c then ret tt cli c
        else error ("error: unknown option '" ++ flag ++ "'") cli c
  end.

(** The key that a value names in a property access: its string. *)
Definition toPropertyKey (v : value) : string :=
  match v with
  | VUndefined => "undefined"
  | VNull => "null"
  | VBool true => "true"
  | VBool false => "false"
  | VNum n => JS.numberToString n
  | VStr s => s
  end.

(** [platforms[value]]: the entry under the key that the value names
    or, when the object has none, the member of that name that it
    inherits.  What is found is an object or a function, hence truthy. *)
Definition platformsGet (ps : list (string * Descriptor.conf)) (v : value)
  : option PlatformConf :=
  match JS.get ps (toPropertyKey v) with
  | Some pc => Some (OwnPlatform pc)
  | None =>
      if existsb (String.eqb (toPropertyKey v)) Logger.objectPrototype
      then Some (InheritedMember (toPropertyKey v))
      else None
  end.

(** The body of the [preAction] hook of an option.  The assignment
    [cli.command.platform = ...] needs [cli.command] to be set. *)
Definition runHook (h : Hook) : M unit :=
  fun cli c =>
    let v := JS.or (getOptionValue c (attributeName (hook_opt h)))
                   (defaultValue (hook_opt h)) in
    let out :=
      (ConsoleLog ("preAction " ++ cmd_name c ++ " --" ++ hook_name h)
       :: match hook_callback h with
          | Some f => [Invoke f v]
          | None => []
          end)%list in
    let platformConf :=
      if hook_name h =? "platform" then
        match hook_platforms h with
        | Some ps => platformsGet ps v
        | None => None
        end
      else None in
    match platformConf with
    | Some pc =>
        match command cli with
        | Some cur =>
            (set_command cli (Some (set_cmd_platform cur (Some pc))),
             c, out, Normal tt)
        | None =>
            (cli, c, out,
             Throw (Unexpected
                      "TypeError: Cannot set properties of undefined (setting 'platform')"
                      None None))
        end
    | None => (cli, c, out, Normal tt)
    end.

Fixpoint runHooks (hs : list Hook) : M unit :=
  match hs with
  | [] => ret tt
  | h :: rest => runHook h ;;; runHooks rest
  end.

(** The action of a subcommand.  What [cli.executeCommand], which is
    not among the sources, does is recorded as one effect. *)
Definition runAction (a : Action) : M unit :=
  fun cli c =>
    match a with
    | RunExecuteCommand => (cli, c, [ExecuteCommand (cmd_name c)], Normal tt)
    end.

(** Modelled from the spec: the dispatch of a node, given the options
    of its command line.  The options are parsed and unknown flags are
    refused; on a node with an action the [preAction] hooks of the node
    fire once parsing is complete, and then the action runs.  (The
    command line holds options only.  The package does more on its way
    than is recorded here: it hands over to a default subcommand,
    answers a request for help, asks for the arguments that are
    required and runs the hooks of the ancestors of the node before
    its own.  The properties below rest on the parsing of the
    options, which comes first.) *)
Definition parseCommand (argv : list supplied) : M unit :=
  unknown <- parseOptions argv [] ;;
  fun cli c =>
    match actionHandler c with
    | Some a =>
        (checkForUnknownOptions unknown ;;;
         (fun cli' c' => runHooks (preActionHooks c') cli' c') ;;;
         runAction a) cli c
    | None => checkForUnknownOptions unknown cli c
    end.

(** The banner as the help text hook and the top-level handler ask
    for it: enabled, not skipped, rendered. *)
Definition showBanner (cli : CLI) : CLI * list effect :=
  let l1 := fst (Logger.bannerEnabled (logger cli) (VBool true)) in
  let l2 := fst (Logger.skipBanner l1 (VBool false)) in
  let (l3, out) := Logger.banner l2 in
  (set_logger cli l3, out).

Fixpoint runHelpHooks (hs : list HelpHook) (cli : CLI) : CLI * list effect :=
  match hs with
  | [] => (cli, [])
  | ShowBanner :: rest =>
      let (cli1, out1) := showBanner cli in
      let (cli2, out2) := runHelpHooks rest cli1 in
      (cli2, (out1 ++ out2)%list)
  end.

(** Modelled from the spec: [help()] of a node of the command-line
    package: the text hooks placed before the help, then the help
    screen of the node.  The call does not return: once the help is
    written the package leaves the process, with the status
    [helpStatus]. *)
Definition help (cli : CLI) (c : Command) : CLI * list effect :=
  let (cli1, out) := runHelpHooks (helpBeforeAll c) cli in
  (cli1, (out ++ [HelpText (cmd_name c)])%list).

(** Modelled from the spec: the status with which [help()] leaves the
    process, [process.exitCode || 0]: the modelled code sets no exit
    code and no node overrides the exit, so the status is 0. *)
Definition helpStatus : Z := 0.

End Dispatch.

(* ================================================================== *)
(** * The top-level handler of [main.js] *)
(* ================================================================== *)

Module Main.

Section WithEnv.

Variable E : Env.

Definition before (e : Error) : option string :=
  match e with TiError _ b _ | Unexpected _ b _ => b end.

Definition after (e : Error) : option string :=
  match e with TiError _ _ a | Unexpected _ _ a => a end.

(** The text given to [console.error]. *)
Definition report (e : Error) : string :=
  (match before e with
   | Some b => if b =? "" then "" else b ++ lf ++ lf
   | None => ""
   end)
  ++ red E (JS.trim (match e with
                     | TiError message _ _ => "Error: " ++ message
                     | Unexpected stack _ _ => stack
                     end))
  ++ lf
  ++ (match after e with
      | Some a => if a =? "" then "" else lf ++ a ++ lf
      | None => ""
      end).

(** The [catch] block: what it writes and the status it leaves the
    process with, for the failure [e] of [cli.init()] and the state of
    [cli] at that point.  When [cli.command || cli.program] is a node,
    the process ends inside its [help()]; [process.exit(1)] is reached
    only when there is none. *)
Definition handler (cli : CLI) (e : Error) : CLI * list effect * Z :=
  let (cli1, out1) := Dispatch.showBanner cli in
  let out2 := [ConsoleError (report e)] in
  match (match command cli1 with
         | Some c => Some c
         | None => program cli1
         end) with
  | Some c =>
      let (cli2, out3) := Dispatch.help cli1 c in
      (cli2, (out1 ++ out2 ++ out3)%list, Dispatch.helpStatus)
  | None => (cli1, (out1 ++ out2)%list, 1%Z)
  end.

End WithEnv.

End Main.

(* ================================================================== *)
(** * The former logger, [lib/logger.js] *)
(* ================================================================== *)

(** The logger of the former CommonJS entry point wraps a logging
    package that is not among the sources.  The module records what the
    wrapper itself does: how [logger.log] prepares its arguments before
    it hands them to the package, the banner with its flags, and the
    [log] function it gives to the console transport. *)
Module Legacy.

(** An argument of [logger.log]: a primitive value, or an [Error]
    object with its [stack] property and the text of its [toString()]. *)
Inductive arg : Type :=
| Prim (v : value)
| Err (stack : option string) (text : string).

Inductive event : Type :=
| Forward (level : arg) (msg : string)  (* origLoggerLog.apply(logger, [level, msg]) *)
| Notify (name : string)                (* emit(name) *)
| Out (line : string)                   (* console.log(line) *)
| ErrOut (line : string)                (* console.error(line) *)
| Done.                                 (* callback(null, true) *)

(** The table given to [logger.setLevels]. *)
Definition levels : list (string * Z) :=
  [ ("trace", 5); ("debug", 4); ("info", 3); ("warn", 2); ("error", 1);
    ("_", 0) ]%Z.

(** [logger.getLevels()] *)
Definition getLevels : list string :=
  filter (fun x => negb (x =? "_")) (JS.keys levels).

(** The property key that an argument names. *)
Definition keyOf (a : arg) : string :=
  match a with
  | Prim v => Dispatch.toPropertyKey v
  | Err _ text => text
  end.

(** [a in logger.levels]: the table has the key or inherits it. *)
Definition inLevels (a : arg) : bool :=
  existsb (String.eqb (keyOf a)) (JS.keys levels)
  || existsb (String.eqb (keyOf a)) Logger.objectPrototype.

(** [args.length || args.unshift(' ')] *)
Definition blankIfEmpty (args : list arg) : list arg :=
  match args with
  | [] => [Prim (VStr " ")]
  | _ => args
  end.

(** [args[0] in logger.levels || args.unshift('_')] *)
Definition withLevel (args : list arg) : list arg :=
  if inLevels (nth 0 args (Prim VUndefined)) then args
  else Prim (VStr "_") :: args.

Definition isNull (a : arg) : bool :=
  match a with
  | Prim VNull => true
  | _ => false
  end.

Fixpoint dropNulls (args : list arg) : list arg :=
  match args with
  | [] => []
  | a :: rest => if isNull a then dropNulls rest else args
  end.

(** [while (args.length && args[args.length - 1] === null) args.pop()] *)
Definition popNulls (args : list arg) : list arg :=
  rev (dropNulls (rev args)).

(** What [args[1]] becomes: the stack (or the text) of an error and a
    line feed, the empty string for [null] and [undefined], and the
    string of any other value. *)
Definition textOf (a : option arg) : string :=
  match a with
  | Some (Err stack text) =>
      (match stack with
       | Some s => if s =? "" then text else s
       | None => text
       end) ++ lf
  | Some (Prim VNull) | Some (Prim VUndefined) | None => ""
  | Some (Prim v) => Dispatch.toPropertyKey v
  end.

(** [args[1] = a] *)
Definition setSecond (args : list arg) (a : arg) : list arg :=
  match args with
  | [] => [Prim VUndefined; a]
  | [l] => [l; a]
  | l :: _ :: rest => l :: a :: rest
  end.

(** The variables of the module and the settings of the console
    transport that the wrapper reads and writes. *)
Record t : Type := {
  var_bannerEnabled : bool;
  var_bannerWasRendered : bool;
  var_timestampEnabled : bool;
  activeSdk : option string;
  consoul_silent : value;
  consoul_level : value;
  consoul_colorize : bool
}.

Section Wrapper.

(** The styles of the [colors] package are taken from the environment
    like those of [chalk]; [sprintf], the translation function [__],
    [stripColors] and the formatter [common.log] of the logging package
    are parameters, and so are the version and the copyright of the
    package information. *)
Variable E : Env.
Variable sprintf : list arg -> string.
Variable translate : string -> list string -> string.
Variable stripColors : string -> string.
Variable commonLog : string -> string -> bool -> string.
Variables version copyright : string.

(** [logger.log(...args)]: the call of the original [log] that it ends
    with.  ([padLevels] is set for the call and restored after it.) *)
Definition log (args : list arg) : list event :=
  let args := popNulls (withLevel (blankIfEmpty args)) in
  let msg := textOf (nth_error args 1) in
  let args := setSecond args (Prim (VStr msg)) in
  [ Forward (nth 0 args (Prim VUndefined))
            (if (2 <? List.length args)%nat then sprintf (tl args) else msg) ].

(** The two lines of the banner. *)
Definition bannerLines (s : t) : string * string :=
  (bold E (cyan E "Titanium CLI") ++ " v" ++ version
   ++ (match activeSdk s with
       | Some v => if v =? "" then "" else ", SDK v" ++ v
       | None => ""
       end)
   ++ ", " ++ cyan E "https://titaniumsdk.com" ++ lf ++ copyright,
   lf ++ translate "Want to help? %s or %s"
           [ cyan E "https://tidev.io/donate";
             cyan E "https://tidev.io/contribute" ]
   ++ lf).

(** [logger.banner()] *)
Definition banner (s : t) : t * list event :=
  ({| var_bannerEnabled := false;
      var_bannerWasRendered := var_bannerWasRendered s || var_bannerEnabled s;
      var_timestampEnabled := var_timestampEnabled s;
      activeSdk := activeSdk s;
      consoul_silent := consoul_silent s;
      consoul_level := consoul_level s;
      consoul_colorize := consoul_colorize s |},
   if var_bannerEnabled s
   then (log [Prim (VStr (fst (bannerLines s)))]
         ++ log [Prim (VStr (snd (bannerLines s)))]
         ++ [Notify "cli:logger-banner"])%list
   else []).

(** [logger.bannerEnabled(b)] *)
Definition bannerEnabled (s : t) (b : value) : t * bool :=
  let s' :=
    if defined b then
      {| var_bannerEnabled := truthy b;
         var_bannerWasRendered := var_bannerWasRendered s;
         var_timestampEnabled := var_timestampEnabled s;
         activeSdk := activeSdk s;
         consoul_silent := consoul_silent s;
         consoul_level := consoul_level s;
         consoul_colorize := consoul_colorize s |}
    else s in
  (s', var_bannerEnabled s').

(** [logger.timestampEnabled(b)] *)
Definition timestampEnabled (s : t) (b : value) : t * bool :=
  let s' :=
    if defined b then
      {| var_bannerEnabled := var_bannerEnabled s;
         var_bannerWasRendered := var_bannerWasRendered s;
         var_timestampEnabled := truthy b;
         activeSdk := activeSdk s;
         consoul_silent := consoul_silent s;
         consoul_level := consoul_level s;
         consoul_colorize := consoul_colorize s |}
    else s in
  (s', var_timestampEnabled s').

(** [logger.bannerWasRendered()] *)
Definition bannerWasRendered (s : t) : bool := var_bannerWasRendered s.

(** [logger.silence(val)] *)
Definition silence (s : t) (val : value) : t :=
  {| var_bannerEnabled := var_bannerEnabled s;
     var_bannerWasRendered := var_bannerWasRendered s;
     var_timestampEnabled := var_timestampEnabled s;
     activeSdk := activeSdk s;
     consoul_silent := val;
     consoul_level := consoul_level s;
     consoul_colorize := consoul_colorize s |}.

(** [logger.setLevel(n)] *)
Definition setLevel (s : t) (n : value) : t :=
  {| var_bannerEnabled := var_bannerEnabled s;
     var_bannerWasRendered := var_bannerWasRendered s;
     var_timestampEnabled := var_timestampEnabled s;
     activeSdk := activeSdk s;
     consoul_silent := consoul_silent s;
     consoul_level := n;
     consoul_colorize := consoul_colorize s |}.

(** [logger.activeSdk = name], as the entry point sets it. *)
Definition setActiveSdk (s : t) (name : option string) : t :=
  {| var_bannerEnabled := var_bannerEnabled s;
     var_bannerWasRendered := var_bannerWasRendered s;
     var_timestampEnabled := var_timestampEnabled s;
     activeSdk := name;
     consoul_silent := consoul_silent s;
     consoul_level := consoul_level s;
     consoul_colorize := consoul_colorize s |}.

(** The backspace. *)
Definition bs : string := String (ascii_of_nat 8) EmptyString.

(** [consoul.log(level, msg, meta, callback)] *)
Definition consoulLog (s : t) (level msg : string) : list event :=
  if truthy (consoul_silent s) then [Done]
  else
    let msg := if level =? "_" then msg else bs ++ bs ++ " " ++ bs ++ msg in
    let msg := if consoul_colorize s then msg else stripColors msg in
    let msg :=
      if consoul_colorize s then
        if level =? "warn" then yellow E (stripColors msg)
        else if level =? "error" then red E (stripColors msg)
        else msg
      else msg in
    let output := commonLog level msg (var_timestampEnabled s) in
    let output :=
      if JS.startsWith ": " output && (level =? "_")
      then String.substring 2 (String.length output - 2) output
      else output in
    [ (if (level =? "error") || (level =? "warn") || (level =? "debug")
       then ErrOut output else Out output);
      Notify "logged";
      Done ].

(** A call made on the logger from outside.  (What the listeners of
    [cli:logger-banner] do while they are notified is not part of a
    sequence: the module sets its flags after the notification.) *)
Inductive call : Type :=
| CLog (args : list arg)
| CBanner
| CBannerEnabled (b : value)
| CTimestampEnabled (b : value)
| CSilence (val : value)
| CSetLevel (n : value)
| CSetActiveSdk (name : option string).

Definition step (s : t) (c : call) : t * list event :=
  match c with
  | CLog args => (s, log args)
  | CBanner => banner s
  | CBannerEnabled b => (fst (bannerEnabled s b), [])
  | CTimestampEnabled b => (fst (timestampEnabled s b), [])
  | CSilence val => (silence s val, [])
  | CSetLevel n => (setLevel s n, [])
  | CSetActiveSdk name => (setActiveSdk s name, [])
  end.

Fixpoint run (s : t) (cs : list call) : t * list event :=
  match cs with
  | [] => (s, [])
  | c :: rest =>
      let (s1, out1) := step s c in
      let (s2, out2) := run s1 rest in
      (s2, (out1 ++ out2)%list)
  end.

End Wrapper.

End Legacy.

(* ================================================================== *)
(** * The former entry point *)
(* ================================================================== *)

(** The functions of the former entry point that stand on their own:
    the lookup of an argument on the command line, and the listener of
    [cli:pre-validate], which shows the banner of the former logger and
    warns about the character encoding of the terminal. *)
Module Titanium.

(** [argv.indexOf(name)], [None] for -1. *)
Fixpoint indexOf (argv : list string) (name : string) : option nat :=
  match argv with
  | [] => None
  | a :: rest =>
      if a =? name then Some 0%nat
      else match indexOf rest name with
           | Some p => Some (S p)
           | None => None
           end
  end.

(** [getArg(name)] on the arguments [process.argv]; [None] is [null]. *)
Definition getArg (argv : list string) (name : string) : option string :=
  match indexOf argv name with
  | Some p =>
      if (p + 1 <? List.length argv)%nat then nth_error argv (p + 1) else None
  | None => None
  end.

Definition toLowerCase (c : ascii) : ascii :=
  let n := nat_of_ascii c in
  if ((65 <=? n) && (n <=? 90))%nat then ascii_of_nat (n + 32) else c.

(** [s.toLowerCase()], on the letters of the 8-bit code units. *)
Fixpoint lower (s : string) : string :=
  match s with
  | EmptyString => EmptyString
  | String c rest => String (toLowerCase c) (lower rest)
  end.

(** [s.split('.')] *)
Fixpoint split (s : string) : list string :=
  match s with
  | EmptyString => [""]
  | String c rest =>
      if (c =? ".")%char then "" :: split rest
      else match split rest with
           | [] => [String c EmptyString]
           | part :: parts => String c part :: parts
           end
  end.

Inductive event : Type :=
| FromLogger (e : Legacy.event)   (* what the logger does *)
| Warn (line : string)        (* console.warn(line) *)
| Finished.                   (* finished() *)

Section Listener.

Variable E : Env.
Variable sprintf : list Legacy.arg -> string.
Variable translate : string -> list string -> string.
Variables version copyright : string.

(** The two lines of the warning, for the parts of [LANG]. *)
Definition encodingWarning (enc : list string) : list event :=
  if (1 <? List.length enc)%nat
     && negb (lower (last enc "") =? "utf-8")
  then [ Warn (magenta E
                 (translate
                    ("Detected terminal character encoding as " ++ dq ++ "%s"
                     ++ dq ++ ". Some characters may not render properly.")
                    [last enc ""]));
         Warn (magenta E
                 (translate
                    "It is recommended that you change the character encoding to UTF-8."
                    [])
               ++ lf) ]
  else [].

(** The listener of [cli:pre-validate], for the [skipBanner] property
    of the descriptor of the command, the [LANG] variable of the
    environment and the [hideCharEncWarning] setting. *)
Definition preValidate (skipBanner : bool) (LANG : option string)
           (hideCharEncWarning : bool) (s : Legacy.t)
  : Legacy.t * list event :=
  if skipBanner then (s, [Finished])
  else
    let (s1, out) := Legacy.banner E sprintf translate version copyright s in
    (s1,
     (map FromLogger out
      ++ (if Legacy.bannerWasRendered s1 then
            match LANG with
            | Some enc =>
                if negb (enc =? "") && negb hideCharEncWarning
                then encodingWarning (split enc)
                else []
            | None => []
            end
          else [])
      ++ [Finished])%list).

End Listener.

End Titanium.

(* ================================================================== *)
(** * The setup screens *)
(* ================================================================== *)

(** Of the interactive setup screens: the title of a screen and, of the
    screen of the CLI settings, the choice of the log level and what
    follows the answers of the prompt. *)
Module Setup.

Section Units.

(** The title of a screen is built from box drawing characters, which
    are single UTF-16 code units; a string is here the list of its code
    units, of any type [U], and the characters that the code writes are
    given.  [gray] and [bold] are the styles. *)
Variable U : Type.
Variables boxLeft boxRight boxDash space newline : U.
Variables gray bold : list U -> list U.

(** The first [n] code units of [pad] repeated; [cur] is what is left
    of the current repetition. *)
Fixpoint filler (n : nat) (pad cur : list U) : list U :=
  match n with
  | O => []
  | S n' =>
      match cur with
      | c :: cs => c :: filler n' pad cs
      | [] =>
          match pad with
          | p :: ps => p :: filler n' pad ps
          | [] => []
          end
      end
  end.

(** [s.padStart(target, pad)] *)
Definition padStart (s : list U) (target : Z) (pad : list U) : list U :=
  (filler (Z.to_nat target - List.length s) pad pad ++ s)%list.

(** [s.padEnd(target, pad)] *)
Definition padEnd (s : list U) (target : Z) (pad : list U) : list U :=
  (s ++ filler (Z.to_nat target - List.length s) pad pad)%list.

(** [width - title.length + 4], for the [width] of 50. *)
Definition margin (title : list U) : Z :=
  let width := 50%Z in
  (width - Z.of_nat (List.length title) + 4)%Z.

(** [Math.floor(margin / 2)] *)
Definition pad (title : list U) : Z := (margin title / 2)%Z.

(** The rule before the title and the rule after it. *)
Definition leftRule (title : list U) : list U :=
  padStart [boxLeft; space] (pad title + 1) [boxDash].

Definition rightRule (title : list U) : list U :=
  padEnd [space; boxRight] (margin title - pad title + 1) [boxDash].

(** [screenTitle(title)] *)
Definition screenTitle (title : list U) : list U :=
  ([newline] ++ gray (leftRule title) ++ bold title
   ++ gray (rightRule title) ++ [newline])%list.

End Units.

(** [this.logger.getLevels().reverse()]: the levels that the screen of
    the CLI settings offers, in the order in which it lists them. *)
Definition logLevels : list string := rev Logger.getLevels.

(** [xs.indexOf(x)] *)
Fixpoint indexOf (xs : list string) (x : string) : Z :=
  match xs with
  | [] => (-1)%Z
  | y :: rest =>
      if y =? x then 0%Z
      else let i := indexOf rest x in
           if (i <? 0)%Z then (-1)%Z else (i + 1)%Z
  end.

(** The entry that the prompt selects at first:
    [logLevels.indexOf(this.config.get('cli.logLevel', 'info'))]. *)
Definition initialLevel (configured : option string) : Z :=
  indexOf logLevels (match configured with Some l => l | None => "info" end).

(** The answers of the prompt. *)
Record answers : Type := {
  colors : value;
  prompt : value;
  progressBars : value;
  logLevel : value;
  width : value
}.

Inductive event : Type :=
| ConfigSet (key : string) (v : value)   (* this.config.set(key, v) *)
| ConfigSave                            (* this.config.save() *)
| Logged (e : effect).                  (* what the logger does *)

(** What [cliScreen] does once the prompt has answered. *)
Definition cliScreen (E : Env) (s : Logger.t) (now : Z) (values : answers)
  : Logger.t * list event :=
  let s1 := Logger.setLevel s (Dispatch.toPropertyKey (logLevel values)) in
  (s1,
   ([ ConfigSet "cli.colors" (colors values);
      ConfigSet "cli.prompt" (prompt values);
      ConfigSet "cli.progressBars" (progressBars values);
      ConfigSet "cli.logLevel" (logLevel values);
      ConfigSet "cli.width" (width values);
      ConfigSave ]
    ++ map Logged
         (Logger.log E s1 now (Some (lf ++ "Configuration saved!")%string) []))%list).

End Setup.

(* ================================================================== *)
(** * Notions used in the statements *)
(* ================================================================== *)

(** ** Effects and the logger *)

(** The notification that [banner()] emits when it renders. *)
Definition is_banner_notice (e : effect) : bool :=
  match e with
  | Emit ev => ev =? "cli:logger-banner"
  | _ => false
  end.

(** How many times the banner was rendered in a sequence of effects. *)
Definition banner_renders (out : list effect) : nat :=
  List.length (filter is_banner_notice out).

(** An effect that is a write to the stream [o]. *)
Definition writes_to (o : stream) (e : effect) : Prop :=
  exists chunk, e = Write o chunk.

(** The four conditions of [banner()], on the fields. *)
Definition banner_gates (s : Logger.t) : Prop :=
  Logger.priv_bannerEnabled s = true
  /\ Logger.priv_skipBanner s = false
  /\ Logger.level_truthy (Logger.priv_level s) = true
  /\ Logger.priv_bannerRendered s = false.

(** The node whose help the handler prints: [cli.command || cli.program]. *)
Definition helpNode (cli : CLI) : option Commander.Command :=
  match command cli with
  | Some c => Some c
  | None => program cli
  end.

(** ** What the registrar adds *)

(** The options that [applyCommandConfig] registers for a descriptor,
    in the order of registration: one for each flag, one for each
    option other than [sdk], and the synthetic time stamp flag. *)
Definition flagOptions (conf : Descriptor.conf) : list Commander.Option :=
  match Descriptor.flags conf with
  | Some fs => map (fun e => Registrar.flagOption (fst e) (snd e)) fs
  | None => []
  end.

Definition keptOptions (os : list (string * Descriptor.Opt.t))
  : list (string * Descriptor.Opt.t) :=
  filter (fun e => negb (fst e =? Registrar.sdk)) os.

Definition optionOptions (conf : Descriptor.conf) : list Commander.Option :=
  match Descriptor.options conf with
  | Some os => map (fun e => Registrar.optionOption (fst e) (snd e)) (keptOptions os)
  | None => []
  end.

Definition syntheticOptions (conf : Descriptor.conf) : list Commander.Option :=
  match Descriptor.options conf with
  | Some os => if Registrar.wantsTimestamp os then [Registrar.timestampOption] else []
  | None => []
  end.

Definition registered (conf : Descriptor.conf) : list Commander.Option :=
  (flagOptions conf ++ optionOptions conf ++ syntheticOptions conf)%list.

(** The listener that [addOption] installs for an option. *)
Definition storeListener (o : Commander.Option) : string * Commander.Listener :=
  ("option:" ++ Commander.name o, Commander.StoreValue o).

(** The listener of the synthetic flag, when the flag is added. *)
Definition syntheticListeners (conf : Descriptor.conf)
  : list (string * Commander.Listener) :=
  match Descriptor.options conf with
  | Some os => if Registrar.wantsTimestamp os
               then [("option:timestamp", Commander.EnableTimestamp)] else []
  | None => []
  end.

(** Whether a node has an option of the given name. *)
Definition registers (c : Commander.Command) (name : string) : bool :=
  existsb (fun o => Commander.name o =? name) (Commander.options c).

(** Whether a map of a descriptor has the given key. *)
Definition hasKey {A : Type} (o : option (list (string * A))) (k : string) : bool :=
  match o with
  | Some entries => existsb (fun e => fst e =? k) entries
  | None => false
  end.

(** The settings of a node that parsing and help rely on besides its
    options and listeners. *)
Definition settings (c : Commander.Command)
  : string * Commander.OutputError * option Commander.Action * bool
    * list Commander.HelpHook :=
  (Commander.cmd_name c, Commander.outputError c, Commander.actionHandler c,
   Commander.allowUnknownOption c, Commander.helpBeforeAll c).

(** What the registrar's steps on options read and write of a node:
    its options, listeners, settings and option values. *)
Definition shape (c : Commander.Command)
  : list Commander.Option * list (string * Commander.Listener)
    * (string * Commander.OutputError * option Commander.Action * bool
       * list Commander.HelpHook)
    * list (string * value) :=
  (Commander.options c, Commander.listeners c, settings c,
   Commander.optionValues c).

(** [addOption] for each option of a list, in order. *)
Definition addOptions (c : Commander.Command) (os : list Commander.Option)
  : Commander.Command :=
  fold_left Commander.addOption os c.

(** [c'] is [c] with the options [os] added by [addOption], and then
    the listeners [ls]. *)
Definition extends (c c' : Commander.Command) (os : list Commander.Option)
           (ls : list (string * Commander.Listener)) : Prop :=
  Commander.options c' = (Commander.options c ++ os)%list
  /\ Commander.listeners c'
     = (Commander.listeners c ++ map storeListener os ++ ls)%list
  /\ settings c' = settings c
  /\ Commander.optionValues c' = Commander.optionValues (addOptions c os).

(** The child node that the loop over the subcommands attaches to
    [parent] for the entry [name: subconf]: a new subcommand node with
    the sub-descriptor applied, its [conf] and [module] properties
    set, hidden when the sub-descriptor is. *)
Definition childOf (E : Env) (parent : Commander.Command) (name : string)
           (subconf : Descriptor.conf) : Commander.Command :=
  let c := fst (Registrar.applyConfig E name (Registrar.newSubcommand E name)
                  subconf) in
  let c := Commander.set_cmd_module (Commander.set_cmd_conf c (Some subconf))
             (Commander.cmd_module parent) in
  if Descriptor.hidden subconf then Commander.set_cmd_hidden c true else c.

(** The children of a node and the module it shares with them. *)
Definition lineage (c : Commander.Command)
  : list Commander.Command * option nat :=
  (Commander.commands c, Commander.cmd_module c).

(** ** Unambiguous nodes and option values *)

(** The data model asks that the names of the flags and options of a
    command be unique within its namespace.  On a node this reads: no
    flag (short or long) answers to two options, no two options share a
    name, and no two options store under the same attribute. *)
Fixpoint distinct (l : list string) : bool :=
  match l with
  | [] => true
  | x :: rest => negb (existsb (String.eqb x) rest) && distinct rest
  end.

Definition flagsOf (o : Commander.Option) : list string :=
  match Commander.short o with
  | Some s => [s; Commander.long o]
  | None => [Commander.long o]
  end.

Definition unambiguous (c : Commander.Command) : bool :=
  distinct (flat_map flagsOf (Commander.options c))
  && distinct (map Commander.name (Commander.options c))
  && distinct (map Commander.attributeName (Commander.options c)).

(** A node on which no option was registered and no listener
    installed yet, as [new Command] leaves it, whatever its settings. *)
Definition blank (c : Commander.Command) : Prop :=
  Commander.options c = [] /\ Commander.listeners c = [].

(** The value that the handler of an option stores for an occurrence
    on the command line. *)
Definition stored (o : Commander.Option) (val : option string) : value :=
  match Commander.takes o, val with
  | Commander.OptionalValue, Some v => VStr v
  | _, _ => VBool (negb (Commander.negate o))
  end.

(** The value of an option after a command line, from its value
    before: each occurrence of one of its flags replaces it. *)
Fixpoint resolve (o : Commander.Option) (argv : list Dispatch.supplied)
         (current : value) : value :=
  match argv with
  | [] => current
  | (flag, val) :: rest =>
      resolve o rest
        (if Commander.is_flag o flag then stored o val else current)
  end.

(** No occurrence on the command line is a flag of the option. *)
Definition omitted (o : Commander.Option) (argv : list Dispatch.supplied) : Prop :=
  Forall (fun a => Commander.is_flag o (fst a) = false) argv.

(** The handler of a registrar-made option accepts an occurrence
    without a value: only an option that takes a value has choices. *)
Definition tolerant (o : Commander.Option) : Prop :=
  Commander.takes o = Commander.OptionalValue \/ Commander.argChoices o = None.

(** ** Parsing *)

(** A computation that did not end normally. *)
Definition failed {A : Type} (r : completion A) : Prop :=
  match r with
  | Normal _ => False
  | _ => True
  end.

(** What parsing reads of a node and never changes: its options, its
    listeners and its settings. *)
Definition wiring (c : Commander.Command)
  : list Commander.Option * list (string * Commander.Listener)
    * (string * Commander.OutputError * option Commander.Action * bool
       * list Commander.HelpHook) :=
  (Commander.options c, Commander.listeners c, settings c).

(** The computations of option parsing keep the wiring of the node and
    the [ready] property, never disable time stamps, write only to
    standard error, and fail only through [error]: by a [TiError] that
    leaves the node in [cli.command] when the node raises its errors,
    by leaving the process with status 1 when it writes them. *)
Definition orderly {A : Type} (m : Dispatch.M A) : Prop :=
  forall cli c,
    match m cli c with
    | (cli', c', out, r) =>
        wiring c' = wiring c
        /\ ready cli' = ready cli
        /\ (Logger.priv_timestampEnabled (logger cli) = true ->
            Logger.priv_timestampEnabled (logger cli') = true)
        /\ Forall (writes_to Stderr) out
        /\ match r with
           | Normal _ => True
           | Throw e =>
               Commander.outputError c = Commander.RaiseTiError
               /\ (exists msg, e = TiError msg None None)
               /\ command cli' = Some c'
           | ExitProcess n =>
               Commander.outputError c = Commander.WriteErr /\ n = 1%Z
           end
    end.

(** A node whose switches are unambiguous and whose options each have
    exactly their own handler among the listeners. *)
Definition sound (c : Commander.Command) : Prop :=
  unambiguous c = true
  /\ (forall ev o, In (ev, Commander.StoreValue o) (Commander.listeners c) ->
                   ev = "option:" ++ Commander.name o
                   /\ In o (Commander.options c))
  /\ (forall o, In o (Commander.options c) ->
                In (storeListener o) (Commander.listeners c)).

(** ** Sample environment, descriptors and states *)

(** An environment without styling, for evaluating examples: the
    styles leave the text as it is, [format] returns its first
    argument, and the clock reads the epoch. *)
Definition plain : Env := {|
  bold := fun s => s;
  cyan := fun s => s;
  gray := fun s => s;
  green := fun s => s;
  magenta := fun s => s;
  red := fun s => s;
  yellow := fun s => s;
  format := fun msg _ => msg;
  toISOString := fun _ => "1970-01-01T00:00:00.000Z";
  cliWidth := 80
|}.

(** A descriptor that declares [sdk] among its flags. *)
Definition sdkFlagConf : Descriptor.conf := {|
  Descriptor.title := None;
  Descriptor.alias := None;
  Descriptor.flags :=
    Some [("sdk", {| Descriptor.Flag.abbr := None;
                     Descriptor.Flag.desc := Some "use the SDK";
                     Descriptor.Flag.hidden := false |})];
  Descriptor.options := None;
  Descriptor.args := None;
  Descriptor.subcommands := None;
  Descriptor.defaultSubcommand := None;
  Descriptor.platforms := None;
  Descriptor.hidden := false
|}.

(** The descriptor of the [status] command: one option, [output], with
    the abbreviation [o], the default [report] and the values [report]
    and [json]. *)
Definition statusConf : Descriptor.conf := {|
  Descriptor.title := None;
  Descriptor.alias := None;
  Descriptor.flags := None;
  Descriptor.options :=
    Some [("output",
           {| Descriptor.Opt.abbr := Some "o";
              Descriptor.Opt.desc := Some "output format";
              Descriptor.Opt.hidden := false;
              Descriptor.Opt.default := VStr "report";
              Descriptor.Opt.values := Some ["report"; "json"];
              Descriptor.Opt.callback := None |})];
  Descriptor.args := None;
  Descriptor.subcommands := None;
  Descriptor.defaultSubcommand := None;
  Descriptor.platforms := None;
  Descriptor.hidden := true
|}.

(** A descriptor with a [log-level] option and a [force] flag. *)
Definition loggingConf : Descriptor.conf := {|
  Descriptor.title := Some "Build";
  Descriptor.alias := None;
  Descriptor.flags :=
    Some [("force", {| Descriptor.Flag.abbr := Some "f";
                       Descriptor.Flag.desc := Some "force a full rebuild";
                       Descriptor.Flag.hidden := false |})];
  Descriptor.options :=
    Some [("log-level",
           {| Descriptor.Opt.abbr := None;
              Descriptor.Opt.desc := Some "minimum logging level";
              Descriptor.Opt.hidden := false;
              Descriptor.Opt.default := VStr "info";
              Descriptor.Opt.values := Some Logger.getLevels;
              Descriptor.Opt.callback := Some 0%nat |});
          ("sdk",
           {| Descriptor.Opt.abbr := Some "s";
              Descriptor.Opt.desc := Some "SDK version";
              Descriptor.Opt.hidden := false;
              Descriptor.Opt.default := VUndefined;
              Descriptor.Opt.values := None;
              Descriptor.Opt.callback := None |})];
  Descriptor.args := None;
  Descriptor.subcommands := None;
  Descriptor.defaultSubcommand := None;
  Descriptor.platforms := None;
  Descriptor.hidden := false
|}.



(** A CLI that is fully initialised, with a new logger. *)
Definition readyCli : CLI := {|
  ready := true;
  logger := Logger.new;
  command := None;
  program := None
|}.

(** A CLI that is fully initialised, with a new logger and its root
    command. *)
Definition rootCli : CLI := {|
  ready := true;
  logger := Logger.new;
  command := None;
  program := Some (Commander.newCommand "titanium")
|}.

(** A logger that was silenced before the failure, in a CLI whose root
    command exists and whose banner was not rendered. *)
Definition quietCli : CLI := {|
  ready := true;
  logger := Logger.silence Logger.new;
  command := None;
  program := Some (Commander.newCommand "titanium")
|}.

(** The node of the [status] command, wired on a subcommand node. *)
Definition statusNode : Commander.Command :=
  fst (Registrar.applyCommandConfig plain "status"
         (Registrar.newSubcommand plain "status") statusConf).

(** The node of the logging descriptor, wired on a subcommand node. *)
Definition loggingNode : Commander.Command :=
  fst (Registrar.applyCommandConfig plain "build"
         (Registrar.newSubcommand plain "build") loggingConf).

(** ** Further notions on the logger *)

(** The six calls that write a message, made at one time with one
    message: [log], [trace], [debug], [error], [info], [warn]. *)
Definition outputCalls (now : Z) (msg : option string) (args : list value)
  : list Logger.call :=
  [ Logger.CLog now msg args; Logger.CTrace now msg args;
    Logger.CDebug now msg args; Logger.CError now msg args;
    Logger.CInfo now msg args; Logger.CWarn now msg args ].

(** Whether a call on the logger writes anything. *)
Definition writes (E : Env) (s : Logger.t) (c : Logger.call) : bool :=
  match snd (Logger.step E s c) with
  | [] => false
  | _ => true
  end.

(** The flag that a sequence of calls of an accessor leaves, from the
    flag before: each call with an argument other than [undefined]
    replaces it by the truthiness of the argument. *)
Fixpoint lastFlag (pick : Logger.call -> option value)
         (cs : list Logger.call) (current : bool) : bool :=
  match cs with
  | [] => current
  | c :: rest =>
      lastFlag pick rest
        (match pick c with
         | Some b => if JS.defined b then JS.truthy b else current
         | None => current
         end)
  end.

Definition toBannerEnabled (c : Logger.call) : option value :=
  match c with Logger.CBannerEnabled b => Some b | _ => None end.

Definition toSkipBanner (c : Logger.call) : option value :=
  match c with Logger.CSkipBanner b => Some b | _ => None end.

Definition toTimestampEnabled (c : Logger.call) : option value :=
  match c with Logger.CTimestampEnabled b => Some b | _ => None end.

(** The threshold that a sequence of calls leaves: that of the last
    [setLevel] or [silence]. *)
Fixpoint lastLevel (cs : list Logger.call) (current : Logger.threshold)
  : Logger.threshold :=
  match cs with
  | [] => current
  | c :: rest =>
      lastLevel rest
        (match c with
         | Logger.CSetLevel level => Logger.levels_get level
         | Logger.CSilence => Logger.Num 0
         | _ => current
         end)
  end.

(** The banner text that a sequence of calls leaves: that of the last
    [setBanner]. *)
Fixpoint lastBanner (E : Env) (cs : list Logger.call) (current : string)
  : string :=
  match cs with
  | [] => current
  | c :: rest =>
      lastBanner E rest
        (match c with
         | Logger.CSetBanner a => Logger.getBanner (Logger.setBanner E Logger.new a)
         | _ => current
         end)
  end.

(** ** What else the registrar adds *)



(** ** Registrations that the package refuses *)




(** The [preAction] hook made for an entry of the options map. *)
Definition hookOf (conf : Descriptor.conf) (e : string * Descriptor.Opt.t)
  : Commander.Hook :=
  {| Commander.hook_name := fst e;
     Commander.hook_opt := Registrar.optionOption (fst e) (snd e);
     Commander.hook_callback := Descriptor.Opt.callback (snd e);
     Commander.hook_platforms := Descriptor.platforms conf |}.

(** The hooks that [applyCommandConfig] registers for a descriptor, in
    the order of registration. *)
Definition hooksOf (conf : Descriptor.conf) : list Commander.Hook :=
  match Descriptor.options conf with
  | Some os =>
      map (hookOf conf)
          (filter (fun e => Registrar.wantsHook (fst e) (snd e)) (keptOptions os))
  | None => []
  end.


(** The stages of [applyCommandConfig] before the loop over the
    subcommands. *)
Definition withTitle (cmd : Commander.Command) (conf : Descriptor.conf)
  : Commander.Command :=
  if JS.truthy_str (Descriptor.title conf)
  then Commander.set_cmd_title cmd (Descriptor.title conf) else cmd.

Definition withAlias (cmd : Commander.Command) (conf : Descriptor.conf)
  : Commander.Command :=
  match Descriptor.alias conf with
  | Some a => if a =? "" then cmd
              else Commander.set_aliases cmd (Commander.aliases cmd ++ [a])
  | None => cmd
  end.

Definition withFlags (cmdName : string) (conf : Descriptor.conf)
           (acc : Commander.Command * list effect)
  : Commander.Command * list effect :=
  match Descriptor.flags conf with
  | Some fs => fold_left (Registrar.applyFlag cmdName) fs acc
  | None => acc
  end.

Definition withOptions (cmdName : string) (conf : Descriptor.conf)
           (acc : Commander.Command * list effect)
  : Commander.Command * list effect :=
  match Descriptor.options conf with
  | Some os =>
      Registrar.applyTimestamp cmdName os
        (fold_left (Registrar.applyOption cmdName conf) os acc)
  | None => acc
  end.

Definition withArgs (cmdName : string) (conf : Descriptor.conf)
           (acc : Commander.Command * list effect)
  : Commander.Command * list effect :=
  match Descriptor.args conf with
  | Some args => fold_left (Registrar.applyArg cmdName) args acc
  | None => acc
  end.

(** ** Hooks *)

(** What the [preAction] hook of an option does on a node, besides the
    platform it may set: the line it logs, and the call of the callback
    with the value of the option on the node or, when that is falsy,
    the default of the option. *)
Definition hookEffects (c : Commander.Command) (h : Commander.Hook)
  : list effect :=
  ConsoleLog ("preAction " ++ Commander.cmd_name c ++ " --"
              ++ Commander.hook_name h)
  :: match Commander.hook_callback h with
     | Some f =>
         [ Invoke f
             (JS.or (Commander.getOptionValue c
                       (Commander.attributeName (Commander.hook_opt h)))
                    (Commander.defaultValue (Commander.hook_opt h))) ]
     | None => []
     end.

(** A computation that leaves the hooks of the node as they are. *)
Definition settled {A : Type} (m : Dispatch.M A) : Prop :=
  forall cli c,
    Commander.preActionHooks (snd (fst (fst (m cli c))))
    = Commander.preActionHooks c.

(** ** The former logger *)

(** The notification that the former [banner()] emits. *)
Definition isLegacyNotice (e : Legacy.event) : bool :=
  match e with
  | Legacy.Notify ev => ev =? "cli:logger-banner"
  | _ => false
  end.

(** How many times the former banner was rendered. *)
Definition legacyRenders (out : list Legacy.event) : nat :=
  List.length (filter isLegacyNotice out).

(** Whether a call enables the former banner. *)
Definition enabling (c : Legacy.call) : bool :=
  match c with
  | Legacy.CBannerEnabled b => JS.defined b && JS.truthy b
  | _ => false
  end.

(** How many calls of a sequence enable the former banner. *)
Definition enablings (cs : list Legacy.call) : nat :=
  List.length (filter enabling cs).

(** A string without a full stop. *)
Fixpoint dotless (s : string) : bool :=
  match s with
  | EmptyString => true
  | String c rest => negb (c =? ".")%char && dotless rest
  end.

(** A warning of the listener of [cli:pre-validate], and its call of
    [finished]. *)
Definition isWarn (e : Titanium.event) : bool :=
  match e with
  | Titanium.Warn _ => true
  | _ => false
  end.

Definition isFinished (e : Titanium.event) : bool :=
  match e with
  | Titanium.Finished => true
  | _ => false
  end.

(* ================================================================== *)
(** * Facts about strings *)
(* ================================================================== *)

Lemma append_assoc (a b c : string) : (a ++ b) ++ c = a ++ (b ++ c).
Proof.
  induction a as [|x a IH]; cbn; [reflexivity | rewrite IH; reflexivity].
Qed.

(* ================================================================== *)
(** * Properties of the Logger *)
(* ================================================================== *)

Section LoggerFacts.

Variable E : Env.

Lemma banner_renders_app (a b : list effect) :
  banner_renders (a ++ b) = banner_renders a + banner_renders b.
Proof.
  unfold banner_renders. rewrite filter_app, length_app. reflexivity.
Qed.

Lemma render_no_notice (s : Logger.t) now level out msg :
  banner_renders (Logger.render E s now level out msg) = 0.
Proof.
  unfold Logger.render.
  destruct (Logger.ge level (Logger.priv_level s)); [|reflexivity].
  destruct (Logger.priv_timestampEnabled s); reflexivity.
Qed.

(** Every effect of [render] is a write to the stream it was given. *)
Lemma render_stream (s : Logger.t) now level out msg :
  Forall (writes_to out) (Logger.render E s now level out msg).
Proof.
  unfold Logger.render.
  destruct (Logger.ge level (Logger.priv_level s)); [|constructor].
  destruct (Logger.priv_timestampEnabled s); cbn;
    repeat constructor; eexists; reflexivity.
Qed.

(** When the level passes, the message is the last thing written. *)
Lemma render_passes (s : Logger.t) now level out msg :
  Logger.ge level (Logger.priv_level s) = true ->
  Logger.render E s now level out msg =
  ((if Logger.priv_timestampEnabled s
    then [Write out (toISOString E now ++ " - ")] else [])
   ++ [Write out msg])%list.
Proof.
  intros H. unfold Logger.render. rewrite H. reflexivity.
Qed.

Lemma render_blocked (s : Logger.t) now level out msg :
  Logger.ge level (Logger.priv_level s) = false ->
  Logger.render E s now level out msg = [].
Proof.
  intros H. unfold Logger.render. rewrite H. reflexivity.
Qed.

(** No call clears the rendered flag, and once it is set no call
    renders the banner. *)
Lemma step_keeps_rendered (s : Logger.t) (c : Logger.call) :
  Logger.priv_bannerRendered s = true ->
  Logger.priv_bannerRendered (fst (Logger.step E s c)) = true
  /\ banner_renders (snd (Logger.step E s c)) = 0.
Proof.
  intros H. destruct c; cbn;
    try (split; [assumption | apply render_no_notice]);
    try (split; [assumption | reflexivity]).
  - unfold Logger.banner, Logger.banner_due. rewrite H.
    rewrite andb_false_r. cbn. split; [assumption | reflexivity].
  - destruct (JS.defined b); cbn; split; auto.
  - destruct (JS.defined b); cbn; split; auto.
  - destruct (JS.defined b); cbn; split; auto.
Qed.

(** A call renders the banner at most once, and sets the flag when it
    does. *)
Lemma step_renders (s : Logger.t) (c : Logger.call) :
  banner_renders (snd (Logger.step E s c)) = 0
  \/ (banner_renders (snd (Logger.step E s c)) = 1
      /\ Logger.priv_bannerRendered (fst (Logger.step E s c)) = true).
Proof.
  destruct c; cbn; try (left; apply render_no_notice); try (left; reflexivity).
  unfold Logger.banner. destruct (Logger.banner_due s); cbn.
  - right. split; reflexivity.
  - left. reflexivity.
Qed.

Lemma run_cons (s : Logger.t) (c : Logger.call) (cs : list Logger.call) :
  Logger.run E s (c :: cs) =
  (fst (Logger.run E (fst (Logger.step E s c)) cs),
   (snd (Logger.step E s c)
    ++ snd (Logger.run E (fst (Logger.step E s c)) cs))%list).
Proof.
  cbn [Logger.run].
  destruct (Logger.step E s c) as [s1 out1]. cbn [fst snd].
  destruct (Logger.run E s1 cs) as [s2 out2]. reflexivity.
Qed.

Lemma run_keeps_rendered (cs : list Logger.call) (s : Logger.t) :
  Logger.priv_bannerRendered s = true ->
  Logger.priv_bannerRendered (fst (Logger.run E s cs)) = true
  /\ banner_renders (snd (Logger.run E s cs)) = 0.
Proof.
  revert s. induction cs as [|c cs IH]; intros s H.
  - cbn. split; [assumption | reflexivity].
  - rewrite run_cons. cbn [fst snd].
    destruct (step_keeps_rendered s c H) as [H1 H2].
    destruct (IH _ H1) as [H3 H4].
    split; [assumption|].
    rewrite banner_renders_app, H2, H4. reflexivity.
Qed.

Lemma run_renders_once (cs : list Logger.call) (s : Logger.t) :
  banner_renders (snd (Logger.run E s cs)) <= 1.
Proof.
  revert s. induction cs as [|c cs IH]; intros s.
  - cbn. lia.
  - rewrite run_cons. cbn [fst snd]. rewrite banner_renders_app.
    destruct (step_renders s c) as [H0 | [H1 Hr]].
    + rewrite H0. apply IH.
    + destruct (run_keeps_rendered cs _ Hr) as [_ Hz].
      rewrite H1, Hz. lia.
Qed.

End LoggerFacts.

(** C1, evaluated on the code.  The table of levels gives [error] the
    value 5333, not 5, while the level-agnostic [log] renders at level
    9.  The default threshold is that of [info]; but once the threshold
    is set with [setLevel('error')], whatever the state of the logger
    was, a [log] call writes nothing.  Nor do the calls follow the
    order of the table: [error()] renders at level 3, [info()] at 4 and
    [warn()] at 5, so that at the threshold of [warn] an [error()] call
    writes nothing while an [info()] call writes its message. *)
Theorem log_hidden_at_error_threshold
        (E : Env) (s : Logger.t) (now : Z) (msg : option string)
        (args : list value) :
  Logger.levels_get "error" = Logger.Num 5333
  /\ Logger.priv_level Logger.new = Logger.levels_get "info"
  /\ Logger.log E (Logger.setLevel s "error") now msg args = []
  /\ Logger.error E (Logger.setLevel s "warn") now msg args = []
  /\ In (Write Stdout (green E "[INFO]" ++ "  "
                       ++ format E (Logger.msg_or_empty msg) args ++ lf))
        (Logger.info E (Logger.setLevel s "warn") now msg args).
Proof.
  repeat split.
  unfold Logger.info, Logger.render. cbn.
  destruct (Logger.priv_timestampEnabled s); cbn; auto.
Qed.

(** C2, evaluated on the code.  [silence()] sets the threshold to 0 and
    [render] writes whenever the level of the call is at least the
    threshold, so after [silence()] each of [log], [info], [warn],
    [error], [trace] and [debug] writes its message. *)
Theorem silence_lets_every_call_write
        (E : Env) (s : Logger.t) (now : Z) (msg : option string)
        (args : list value) :
  let text := format E (Logger.msg_or_empty msg) args in
  let quiet := Logger.silence s in
  Logger.priv_level quiet = Logger.Num 0
  /\ In (Write Stdout (text ++ lf)) (Logger.log E quiet now msg args)
  /\ In (Write Stdout (green E "[INFO]" ++ "  " ++ text ++ lf))
        (Logger.info E quiet now msg args)
  /\ In (Write Stdout (yellow E ("[WARN]  " ++ text) ++ lf))
        (Logger.warn E quiet now msg args)
  /\ In (Write Stderr (red E ("[ERROR] " ++ text) ++ lf))
        (Logger.error E quiet now msg args)
  /\ In (Write Stdout (gray E "[TRACE]" ++ " " ++ text ++ lf))
        (Logger.trace E quiet now msg args)
  /\ In (Write Stdout (magenta E "[DEBUG]" ++ " " ++ text ++ lf))
        (Logger.debug E quiet now msg args).
Proof.
  cbn zeta. split; [reflexivity|].
  unfold Logger.log, Logger.info, Logger.warn, Logger.error, Logger.trace,
    Logger.debug, Logger.render; cbn.
  repeat split; destruct (Logger.priv_timestampEnabled s); cbn; auto.
Qed.

(** C3.  [banner()] writes the banner text and a line feed to standard
    output and emits [cli:logger-banner] exactly when the four gates
    hold: [bannerEnabled] is true, [skipBanner] is false, the threshold
    is truthy (for a numeric threshold: non-zero) and the banner has not
    been rendered; it then sets the rendered flag.  When a gate fails it
    writes nothing and leaves the logger as it is.  Once the flag is
    set, whatever calls are made on the logger afterwards, the flag
    stays set and a [banner()] call writes nothing; and over any
    sequence of calls, from any state, the banner is rendered at most
    once. *)
Theorem banner_renders_at_most_once
        (E : Env) (s : Logger.t) (cs : list Logger.call) :
  (banner_gates s ->
   snd (Logger.banner s) =
     [ Write Stdout (Logger.priv_banner s); Write Stdout lf;
       Emit "cli:logger-banner" ]
   /\ Logger.bannerWasRendered (fst (Logger.banner s)) = true)
  /\ (~ banner_gates s -> Logger.banner s = (s, []))
  /\ (forall n, Logger.priv_level s = Logger.Num n ->
        (Logger.level_truthy (Logger.priv_level s) = true <-> n <> 0%Z))
  /\ (Logger.priv_bannerRendered s = true ->
      Logger.bannerWasRendered (fst (Logger.run E s cs)) = true
      /\ banner_renders (snd (Logger.run E s cs)) = 0
      /\ Logger.banner (fst (Logger.run E s cs)) = (fst (Logger.run E s cs), []))
  /\ banner_renders (snd (Logger.run E s cs)) <= 1.
Proof.
  split; [|split; [|split; [|split]]].
  - intros (H1 & H2 & H3 & H4).
    unfold Logger.banner, Logger.banner_due. rewrite H1, H2, H3, H4. cbn.
    split; reflexivity.
  - intros H. unfold Logger.banner.
    destruct (Logger.banner_due s) eqn:D; [|reflexivity].
    exfalso. apply H. unfold Logger.banner_due in D.
    apply andb_prop in D as [D D4]. apply andb_prop in D as [D D3].
    apply andb_prop in D as [D1 D2].
    apply negb_true_iff in D2, D4. repeat split; assumption.
  - intros n Hn. rewrite Hn. cbn. rewrite negb_true_iff, Z.eqb_neq. tauto.
  - intros H. destruct (run_keeps_rendered E cs s H) as [H1 H2].
    unfold Logger.bannerWasRendered.
    repeat split; try assumption.
    unfold Logger.banner, Logger.banner_due. rewrite H1.
    rewrite andb_false_r. reflexivity.
  - apply run_renders_once.
Qed.

(** C4.  [render(level, out, msg)] writes [msg] to [out] if and only if
    [level >= threshold]: for a numeric threshold [t] that is [t <=
    level], and against a threshold that is not a number nothing is
    written.  When it writes with time stamps enabled, the output is
    the ISO text of the current time followed by [ - ] and then the
    message, all on [out]; with time stamps disabled, exactly the
    message is written. *)
Theorem render_filters_by_level
        (E : Env) (s : Logger.t) (now level : Z) (out : stream)
        (msg : string) :
  (In (Write out msg) (Logger.render E s now level out msg)
   <-> Logger.ge level (Logger.priv_level s) = true)
  /\ (forall t, Logger.priv_level s = Logger.Num t ->
        (Logger.ge level (Logger.priv_level s) = true <-> (t <= level)%Z))
  /\ (Logger.priv_level s = Logger.Undefined
      \/ Logger.priv_level s = Logger.Inherited ->
      Logger.render E s now level out msg = [])
  /\ (Logger.ge level (Logger.priv_level s) = true ->
      Logger.priv_timestampEnabled s = true ->
      Logger.render E s now level out msg =
        [ Write out (toISOString E now ++ " - "); Write out msg ])
  /\ (Logger.ge level (Logger.priv_level s) = true ->
      Logger.priv_timestampEnabled s = false ->
      Logger.render E s now level out msg = [ Write out msg ])
  /\ (Logger.ge level (Logger.priv_level s) = false ->
      Logger.render E s now level out msg = []).
Proof.
  split; [|split; [|split; [|split; [|split]]]].
  - unfold Logger.render.
    destruct (Logger.ge level (Logger.priv_level s)).
    + split; [reflexivity|]. intros _. apply in_or_app. right. left. reflexivity.
    + split; [intros [] | discriminate].
  - intros t Ht. rewrite Ht. cbn. apply Z.leb_le.
  - intros [H | H]; apply render_blocked; rewrite H; reflexivity.
  - intros H T. rewrite render_passes by assumption. rewrite T. reflexivity.
  - intros H T. rewrite render_passes by assumption. rewrite T. reflexivity.
  - apply render_blocked.
Qed.

(** C10.  [error()] writes to standard error and [log()], [trace()],
    [debug()], [info()] and [warn()] write to standard output: every
    effect of these calls is a write to that stream.  The calls do
    write: at the initial threshold [error], [info], [warn] and [log]
    each write exactly their message, and at the threshold of [trace]
    so do [trace] and [debug]. *)
Theorem streams_per_level
        (E : Env) (s : Logger.t) (now : Z) (msg : option string)
        (args : list value) :
  let text := format E (Logger.msg_or_empty msg) args in
  let verbose := Logger.setLevel Logger.new "trace" in
  Forall (writes_to Stderr) (Logger.error E s now msg args)
  /\ Forall (writes_to Stdout) (Logger.log E s now msg args)
  /\ Forall (writes_to Stdout) (Logger.trace E s now msg args)
  /\ Forall (writes_to Stdout) (Logger.debug E s now msg args)
  /\ Forall (writes_to Stdout) (Logger.info E s now msg args)
  /\ Forall (writes_to Stdout) (Logger.warn E s now msg args)
  /\ Logger.error E Logger.new now msg args
     = [ Write Stderr (red E ("[ERROR] " ++ text) ++ lf) ]
  /\ Logger.log E Logger.new now msg args = [ Write Stdout (text ++ lf) ]
  /\ Logger.info E Logger.new now msg args
     = [ Write Stdout (green E "[INFO]" ++ "  " ++ text ++ lf) ]
  /\ Logger.warn E Logger.new now msg args
     = [ Write Stdout (yellow E ("[WARN]  " ++ text) ++ lf) ]
  /\ Logger.trace E verbose now msg args
     = [ Write Stdout (gray E "[TRACE]" ++ " " ++ text ++ lf) ]
  /\ Logger.debug E verbose now msg args
     = [ Write Stdout (magenta E "[DEBUG]" ++ " " ++ text ++ lf) ].
Proof.
  cbn zeta.
  repeat match goal with
         | |- Forall _ _ /\ _ => split; [apply render_stream|]
         end.
  repeat split.
Qed.

(* ================================================================== *)
(** * Properties of the top-level handler *)
(* ================================================================== *)

(** The banner as [showBanner] renders it: due when the threshold is
    truthy and the banner was not rendered before. *)
Lemma showBanner_spec (cli : CLI) :
  let l := logger cli in
  let due := Logger.level_truthy (Logger.priv_level l)
             && negb (Logger.priv_bannerRendered l) in
  snd (Dispatch.showBanner cli) =
    (if due
     then [ Write Stdout (Logger.priv_banner l); Write Stdout lf;
            Emit "cli:logger-banner" ]
     else [])
  /\ Logger.priv_level (logger (fst (Dispatch.showBanner cli)))
     = Logger.priv_level l
  /\ Logger.priv_bannerRendered (logger (fst (Dispatch.showBanner cli)))
     = Logger.priv_bannerRendered l || due
  /\ Logger.priv_bannerEnabled (logger (fst (Dispatch.showBanner cli))) = true
  /\ Logger.priv_skipBanner (logger (fst (Dispatch.showBanner cli))) = false
  /\ command (fst (Dispatch.showBanner cli)) = command cli
  /\ program (fst (Dispatch.showBanner cli)) = program cli.
Proof.
  destruct cli as [rd [b be sk br lv ts] cm pg].
  unfold Dispatch.showBanner, Logger.banner, Logger.banner_due.
  cbn -[Logger.level_truthy].
  destruct (Logger.level_truthy lv), br; cbn; repeat split.
Qed.

(** Once the banner was asked for, asking again writes nothing. *)
Lemma showBanner_again (cli : CLI) :
  snd (Dispatch.showBanner (fst (Dispatch.showBanner cli))) = []
  /\ fst (Dispatch.showBanner (fst (Dispatch.showBanner cli)))
     = fst (Dispatch.showBanner cli).
Proof.
  destruct cli as [rd [b be sk br lv ts] cm pg].
  unfold Dispatch.showBanner, Logger.banner, Logger.banner_due.
  cbn -[Logger.level_truthy].
  destruct (Logger.level_truthy lv) eqn:T, br; cbn -[Logger.level_truthy];
    try rewrite T; cbn; split; reflexivity.
Qed.

Lemma helpHooks_after_banner (hs : list Commander.HelpHook) (cli : CLI) :
  Dispatch.runHelpHooks hs (fst (Dispatch.showBanner cli))
  = (fst (Dispatch.showBanner cli), []).
Proof.
  induction hs as [|[] hs IH]; [reflexivity|].
  cbn [Dispatch.runHelpHooks].
  destruct (showBanner_again cli) as [Hout Hst].
  destruct (Dispatch.showBanner (fst (Dispatch.showBanner cli))) as [c1 o1].
  cbn in Hout, Hst. subst. rewrite IH. reflexivity.
Qed.

Lemma help_after_banner (c : Commander.Command) (cli : CLI) :
  Dispatch.help (fst (Dispatch.showBanner cli)) c
  = (fst (Dispatch.showBanner cli), [HelpText (Commander.cmd_name c)]).
Proof.
  unfold Dispatch.help. rewrite helpHooks_after_banner. reflexivity.
Qed.

(** With a silenced logger the handler writes no banner although none
    was shown before: the failure and the help of the root command are
    all it prints, and the process ends in the help, with status 0. *)
Lemma handler_skips_banner_when_silenced :
  Logger.priv_bannerRendered (logger quietCli) = false
  /\ snd (fst (Main.handler plain quietCli
                            (TiError "SDK not found" None None)))
     = [ ConsoleError ("Error: SDK not found" ++ lf); HelpText "titanium" ]
  /\ snd (Main.handler plain quietCli (TiError "SDK not found" None None))
     = 0%Z.
Proof.
  repeat split; reflexivity.
Qed.

(** C9, evaluated on the code.  On a failure [e] the handler forces
    the banner enabled and not skipped and calls [banner()], which
    renders the banner first when the threshold is truthy (not
    silenced) and the banner was not rendered before, and nothing
    otherwise; then it prints the failure ([Error: ] and the message of
    a [TiError], the stack of any other error, trimmed and in red,
    between the [before] and [after] blocks when the error has them);
    then the help screen of [cli.command], or of [cli.program] when no
    command is set, the help writing no second banner.  The process
    ends inside that [help()], with status 0: it exits with status 1,
    as the claim has it for every failure, only when neither
    [cli.command] nor [cli.program] exists and no help is printed. *)
Theorem handler_reports_failure (E : Env) (cli : CLI) (e : Error) :
  let l := logger cli in
  let due := Logger.level_truthy (Logger.priv_level l)
             && negb (Logger.priv_bannerRendered l) in
  snd (fst (Main.handler E cli e)) =
    ((if due
      then [ Write Stdout (Logger.priv_banner l); Write Stdout lf;
             Emit "cli:logger-banner" ]
      else [])
     ++ [ ConsoleError (Main.report E e) ]
     ++ match helpNode cli with
        | Some c => [ HelpText (Commander.cmd_name c) ]
        | None => []
        end)%list
  /\ snd (Main.handler E cli e)
     = match helpNode cli with
       | Some _ => 0%Z
       | None => 1%Z
       end
  /\ Logger.priv_bannerRendered (logger (fst (fst (Main.handler E cli e))))
     = Logger.priv_bannerRendered l || due
  /\ (forall m, Main.report E (TiError m None None)
                = red E (JS.trim ("Error: " ++ m)) ++ lf)
  /\ (forall st, Main.report E (Unexpected st None None)
                 = red E (JS.trim st) ++ lf)
  /\ (forall m b a, b <> "" -> a <> "" ->
        Main.report E (TiError m (Some b) (Some a))
        = b ++ lf ++ lf ++ red E (JS.trim ("Error: " ++ m)) ++ lf
            ++ lf ++ a ++ lf).
Proof.
  cbn zeta.
  destruct (showBanner_spec cli) as (Hout & _ & Hr & _ & _ & Hc & Hp).
  unfold Main.handler, helpNode.
  destruct (Dispatch.showBanner cli) as [cli1 out1] eqn:SB.
  assert (S1 : cli1 = fst (Dispatch.showBanner cli)) by (rewrite SB; reflexivity).
  cbn [fst snd] in *.
  rewrite Hc, Hp.
  split; [|split; [|split; [|split; [|split]]]].
  - rewrite <- Hout.
    destruct (command cli) as [c|]; [|destruct (program cli) as [p|]];
      try (rewrite S1, help_after_banner); rewrite ?app_nil_r; reflexivity.
  - destruct (command cli) as [c|]; [|destruct (program cli) as [p|]];
      try (rewrite S1, help_after_banner); reflexivity.
  - rewrite <- Hr.
    destruct (command cli) as [c|]; [|destruct (program cli) as [p|]];
      try (rewrite S1, help_after_banner); try rewrite <- S1; reflexivity.
  - reflexivity.
  - reflexivity.
  - intros m b a Hb Ha. unfold Main.report. cbn.
    apply String.eqb_neq in Hb, Ha. rewrite Hb, Ha.
    rewrite !append_assoc. reflexivity.
Qed.

(* ================================================================== *)
(** * What the registrar adds to a node *)
(* ================================================================== *)

Section RegistrarFacts.

Import Commander.

Lemma substring_all (s : string) : String.substring 0 (String.length s) s = s.
Proof.
  induction s as [|c s IH]; cbn; [reflexivity | rewrite IH; reflexivity].
Qed.

(** The name of an option whose long flag is [--n] is [n]. *)
Lemma name_of_long (o : Option) (n : string) :
  long o = "--" ++ n -> name o = n.
Proof.
  intros H. unfold name, JS.startsWith. rewrite H. cbn.
  replace (String.prefix "" n) with true by (destruct n; reflexivity).
  rewrite Nat.sub_0_r. apply substring_all.
Qed.

Lemma flagOption_long n meta : long (Registrar.flagOption n meta) = "--" ++ n.
Proof.
  unfold Registrar.flagOption. destruct (Descriptor.Flag.hidden meta); reflexivity.
Qed.

Lemma optionOption_long n meta : long (Registrar.optionOption n meta) = "--" ++ n.
Proof.
  unfold Registrar.optionOption.
  destruct (Descriptor.Opt.hidden meta), (JS.defined (Descriptor.Opt.default meta)),
    (Descriptor.Opt.values meta); reflexivity.
Qed.

Lemma flagOption_name n meta : name (Registrar.flagOption n meta) = n.
Proof. apply name_of_long, flagOption_long. Qed.

Lemma optionOption_name n meta : name (Registrar.optionOption n meta) = n.
Proof. apply name_of_long, optionOption_long. Qed.

Lemma optionOption_takes n meta :
  takes (Registrar.optionOption n meta) = OptionalValue.
Proof.
  unfold Registrar.optionOption.
  destruct (Descriptor.Opt.hidden meta), (JS.defined (Descriptor.Opt.default meta)),
    (Descriptor.Opt.values meta); reflexivity.
Qed.

Lemma optionOption_choices n meta :
  argChoices (Registrar.optionOption n meta) = Descriptor.Opt.values meta.
Proof.
  unfold Registrar.optionOption.
  destruct (Descriptor.Opt.hidden meta), (JS.defined (Descriptor.Opt.default meta)),
    (Descriptor.Opt.values meta); reflexivity.
Qed.

Lemma optionOption_default n meta :
  defaultValue (Registrar.optionOption n meta) = Descriptor.Opt.default meta.
Proof.
  unfold Registrar.optionOption.
  destruct (Descriptor.Opt.hidden meta), (Descriptor.Opt.default meta),
    (Descriptor.Opt.values meta); reflexivity.
Qed.

Lemma flagOption_boolean n meta :
  takes (Registrar.flagOption n meta) = Boolean
  /\ argChoices (Registrar.flagOption n meta) = None.
Proof.
  unfold Registrar.flagOption. destruct (Descriptor.Flag.hidden meta); split; reflexivity.
Qed.

(** ** The fields that each node method touches *)

Lemma addOption_options c o : options (addOption c o) = (options c ++ [o])%list.
Proof.
  unfold addOption. destruct (negate o).
  - destruct (findOption _ _); reflexivity.
  - destruct (JS.defined (defaultValue o)); reflexivity.
Qed.

Lemma addOption_listeners c o :
  listeners (addOption c o) = (listeners c ++ [storeListener o])%list.
Proof.
  unfold addOption. destruct (negate o).
  - destruct (findOption _ _); reflexivity.
  - destruct (JS.defined (defaultValue o)); reflexivity.
Qed.

Lemma addOption_settings c o : settings (addOption c o) = settings c.
Proof.
  unfold addOption. destruct (negate o).
  - destruct (findOption _ _); reflexivity.
  - destruct (JS.defined (defaultValue o)); reflexivity.
Qed.

Lemma extends_refl c : extends c c [] [].
Proof.
  unfold extends. cbn. rewrite !app_nil_r. repeat split.
Qed.

Lemma addOptions_options os : forall c,
  options (addOptions c os) = (options c ++ os)%list.
Proof.
  induction os as [|o os IH]; intros c; cbn.
  - rewrite app_nil_r. reflexivity.
  - unfold addOptions in IH. rewrite IH, addOption_options, <- app_assoc.
    reflexivity.
Qed.

Lemma addOption_values c1 c2 o :
  options c1 = options c2 -> optionValues c1 = optionValues c2 ->
  optionValues (addOption c1 o) = optionValues (addOption c2 o).
Proof.
  intros H1 H2. unfold addOption, findOption, setOptionValue.
  cbn [options set_options optionValues set_optionValues set_listeners].
  rewrite H1. destruct (negate o).
  - destruct (find _ _); cbn; rewrite ?H2; reflexivity.
  - destruct (JS.defined (defaultValue o)); cbn; rewrite ?H2; reflexivity.
Qed.

Lemma extends_addOption c c' os o :
  extends c c' os [] -> extends c (addOption c' o) (os ++ [o]) [].
Proof.
  intros (H1 & H2 & H3 & H4). unfold extends.
  rewrite addOption_options, addOption_listeners, addOption_settings.
  rewrite H1, H2, H3, map_app, !app_nil_r, !app_assoc. repeat split.
  unfold addOptions. rewrite fold_left_app. cbn [fold_left].
  apply addOption_values; [|exact H4].
  rewrite H1. symmetry. apply addOptions_options.
Qed.

Lemma extends_on c c' os ev l :
  extends c c' os [] -> extends c (on c' ev l) os [(ev, l)].
Proof.
  intros (H1 & H2 & H3 & H4). unfold extends, on.
  cbn [options listeners set_listeners].
  rewrite H1, H2, app_nil_r, <- app_assoc. repeat split; assumption.
Qed.

Lemma extends_same c c1 c2 os ls :
  shape c2 = shape c1 -> extends c c1 os ls -> extends c c2 os ls.
Proof.
  unfold extends. intros W (H1 & H2 & H3 & H4).
  pose proof (f_equal (fun w => fst (fst (fst w))) W) as W1.
  pose proof (f_equal (fun w => snd (fst (fst w))) W) as W2.
  pose proof (f_equal (fun w => snd (fst w)) W) as W3.
  pose proof (f_equal snd W) as W4. cbn in W1, W2, W3, W4.
  rewrite W1, W2, W3, W4. repeat split; assumption.
Qed.

Lemma fold_flags cn fs : forall acc c os,
  extends c (fst acc) os [] ->
  extends c (fst (fold_left (Registrar.applyFlag cn) fs acc))
          (os ++ map (fun e => Registrar.flagOption (fst e) (snd e)) fs) [].
Proof.
  induction fs as [|[n meta] fs IH]; intros [cmd notes] c os H; cbn [fold_left map].
  - rewrite app_nil_r. exact H.
  - cbn [fst snd] in *.
    replace (os ++ Registrar.flagOption n meta :: _)%list
      with ((os ++ [Registrar.flagOption n meta])
            ++ map (fun e => Registrar.flagOption (fst e) (snd e)) fs)%list
      by (rewrite <- app_assoc; reflexivity).
    apply IH. cbn [Registrar.applyFlag fst].
    apply extends_addOption, H.
Qed.

Lemma fold_options cn conf os' : forall acc c os,
  extends c (fst acc) os [] ->
  extends c (fst (fold_left (Registrar.applyOption cn conf) os' acc))
          (os ++ map (fun e => Registrar.optionOption (fst e) (snd e))
                     (keptOptions os')) [].
Proof.
  induction os' as [|[n meta] os' IH]; intros [cmd notes] c os H;
    cbn [fold_left map keptOptions filter].
  - rewrite app_nil_r. exact H.
  - cbn [fst snd] in *. cbn [Registrar.applyOption].
    destruct (n =? Registrar.sdk) eqn:S; cbn [negb].
    + apply IH. exact H.
    + cbn [map fst snd].
      replace (os ++ Registrar.optionOption n meta :: _)%list
        with ((os ++ [Registrar.optionOption n meta])
              ++ map (fun e => Registrar.optionOption (fst e) (snd e))
                     (keptOptions os'))%list
        by (rewrite <- app_assoc; reflexivity).
      apply IH. cbn [fst].
      destruct (Registrar.wantsHook n meta);
        (eapply extends_same; [|apply extends_addOption, H]); reflexivity.
Qed.

Lemma fold_args cn args : forall acc,
  shape (fst (fold_left (Registrar.applyArg cn) args acc)) = shape (fst acc).
Proof.
  induction args as [|a args IH]; intros [cmd notes]; cbn [fold_left].
  - reflexivity.
  - rewrite IH. reflexivity.
Qed.

(** The part of the registrar before the subcommands adds exactly the
    [registered] options and their listeners. *)
Lemma applyOwn_extends cn cmd conf :
  extends cmd (fst (Registrar.applyOwn cn cmd conf))
          (registered conf) (syntheticListeners conf).
Proof.
  unfold Registrar.applyOwn, registered, flagOptions, optionOptions,
    syntheticOptions, syntheticListeners.
  set (c1 := if JS.truthy_str (Descriptor.title conf) then _ else cmd).
  set (c2 := match Descriptor.alias conf with Some _ => _ | None => c1 end).
  assert (W : shape c2 = shape cmd).
  { subst c2 c1. destruct (Descriptor.alias conf) as [a|];
      [destruct (a =? "")|]; destruct (JS.truthy_str (Descriptor.title conf));
      reflexivity. }
  assert (X0 : extends cmd c2 [] []).
  { eapply extends_same; [exact W | apply extends_refl]. }
  set (acc1 := match Descriptor.flags conf with Some _ => _ | None => (c2, []) end).
  assert (X1 : extends cmd (fst acc1) (flagOptions conf) []).
  { subst acc1. unfold flagOptions. destruct (Descriptor.flags conf) as [fs|].
    - apply (fold_flags cn fs (c2, []) cmd [] X0).
    - exact X0. }
  unfold flagOptions in X1.
  set (acc2 := match Descriptor.options conf with Some _ => _ | None => acc1 end).
  assert (X2 : extends cmd (fst acc2)
                 (match Descriptor.flags conf with
                  | Some fs => map (fun e => Registrar.flagOption (fst e) (snd e)) fs
                  | None => []
                  end
                  ++ match Descriptor.options conf with
                     | Some os =>
                         map (fun e => Registrar.optionOption (fst e) (snd e))
                             (keptOptions os)
                     | None => []
                     end
                  ++ match Descriptor.options conf with
                     | Some os => if Registrar.wantsTimestamp os
                                  then [Registrar.timestampOption] else []
                     | None => []
                     end)
                 (match Descriptor.options conf with
                  | Some os => if Registrar.wantsTimestamp os
                               then [("option:timestamp", EnableTimestamp)] else []
                  | None => []
                  end)).
  { subst acc2. destruct (Descriptor.options conf) as [os|].
    - pose proof (fold_options cn conf os acc1 cmd _ X1) as X.
      unfold Registrar.applyTimestamp.
      destruct (fold_left (Registrar.applyOption cn conf) os acc1) as [c3 n3].
      cbn [fst] in X.
      destruct (Registrar.wantsTimestamp os).
      + cbn [fst]. apply extends_addOption with (o := Registrar.timestampOption) in X.
        apply extends_on with (ev := "option:timestamp") (l := EnableTimestamp) in X.
        rewrite <- !app_assoc in X. exact X.
      + cbn [fst]. rewrite !app_nil_r. exact X.
    - rewrite !app_nil_r. exact X1. }
  destruct (Descriptor.args conf) as [args|].
  - eapply extends_same; [apply fold_args | exact X2].
  - exact X2.
Qed.

Section WithEnv.

Variable E : Env.

(** The loop over the subcommands adds children and leaves the
    options, listeners and settings of the node as they are. *)
Lemma attach_shape cn conf acc n subconf applied :
  shape (fst (Registrar.attach cn conf acc n subconf applied)) = shape (fst acc).
Proof.
  destruct acc as [c notes], applied as [sc sn].
  unfold Registrar.attach, addCommand. cbn [fst].
  destruct (match Descriptor.defaultSubcommand conf with
            | Some d => d =? n | None => false end),
    (Descriptor.hidden subconf); reflexivity.
Qed.

Lemma applyCommandConfig_shape cn cmd conf :
  shape (fst (Registrar.applyCommandConfig E cn cmd conf))
  = shape (fst (Registrar.applyOwn cn cmd conf)).
Proof.
  destruct conf as [ti al fl op ar su ds pl hi].
  cbn [Registrar.applyCommandConfig Descriptor.subcommands].
  destruct su as [subs|]; [|reflexivity].
  set (conf := Descriptor.Conf ti al fl op ar (Some subs) ds pl hi).
  generalize (Registrar.applyOwn cn cmd conf).
  clearbody conf.
  induction subs as [|[n subconf] subs IH]; intros acc; [reflexivity|].
  rewrite IH. apply attach_shape.
Qed.

Theorem applyCommandConfig_extends cn cmd conf :
  extends cmd (fst (Registrar.applyCommandConfig E cn cmd conf))
          (registered conf) (syntheticListeners conf).
Proof.
  eapply extends_same; [apply applyCommandConfig_shape | apply applyOwn_extends].
Qed.

(** ** The children of a node *)

Lemma addOption_lineage c o : lineage (addOption c o) = lineage c.
Proof.
  unfold addOption. destruct (negate o).
  - destruct (findOption _ _); reflexivity.
  - destruct (JS.defined (defaultValue o)); reflexivity.
Qed.

Lemma fold_flags_lineage cn fs : forall acc,
  lineage (fst (fold_left (Registrar.applyFlag cn) fs acc)) = lineage (fst acc).
Proof.
  induction fs as [|[n meta] fs IH]; intros [c notes]; [reflexivity|].
  cbn [fold_left]. rewrite IH. apply addOption_lineage.
Qed.

Lemma applyOption_lineage cn conf acc e :
  lineage (fst (Registrar.applyOption cn conf acc e)) = lineage (fst acc).
Proof.
  destruct acc as [c notes], e as [n meta]. cbn [Registrar.applyOption fst].
  destruct (n =? Registrar.sdk); [reflexivity|].
  destruct (Registrar.wantsHook n meta); cbn [fst].
  - transitivity (lineage (addOption c (Registrar.optionOption n meta)));
      [reflexivity | apply addOption_lineage].
  - apply addOption_lineage.
Qed.

Lemma fold_options_lineage cn conf os : forall acc,
  lineage (fst (fold_left (Registrar.applyOption cn conf) os acc))
  = lineage (fst acc).
Proof.
  induction os as [|e os IH]; intros acc; [reflexivity|].
  cbn [fold_left]. rewrite IH. apply applyOption_lineage.
Qed.

Lemma fold_args_lineage cn args : forall acc,
  lineage (fst (fold_left (Registrar.applyArg cn) args acc)) = lineage (fst acc).
Proof.
  induction args as [|a args IH]; intros [c notes]; [reflexivity|].
  cbn [fold_left]. rewrite IH. reflexivity.
Qed.

(** Before the loop over the subcommands, the children of the node and
    its module are as they were. *)
Lemma applyOwn_lineage cn cmd conf :
  lineage (fst (Registrar.applyOwn cn cmd conf)) = lineage cmd.
Proof.
  unfold Registrar.applyOwn.
  set (c1 := if JS.truthy_str (Descriptor.title conf) then _ else cmd).
  set (c2 := match Descriptor.alias conf with Some _ => _ | None => c1 end).
  assert (L2 : lineage c2 = lineage cmd).
  { subst c2 c1. destruct (Descriptor.alias conf) as [a|];
      [destruct (a =? "")|]; destruct (JS.truthy_str (Descriptor.title conf));
      reflexivity. }
  set (acc1 := match Descriptor.flags conf with Some _ => _ | None => (c2, []) end).
  assert (L3 : lineage (fst acc1) = lineage cmd).
  { subst acc1. destruct (Descriptor.flags conf) as [fs|]; [|exact L2].
    rewrite fold_flags_lineage. exact L2. }
  set (acc2 := match Descriptor.options conf with Some _ => _ | None => acc1 end).
  assert (L4 : lineage (fst acc2) = lineage cmd).
  { subst acc2. destruct (Descriptor.options conf) as [os|]; [|exact L3].
    unfold Registrar.applyTimestamp.
    pose proof (fold_options_lineage cn conf os acc1) as X.
    destruct (fold_left (Registrar.applyOption cn conf) os acc1) as [c3 n3].
    cbn [fst] in X. destruct (Registrar.wantsTimestamp os); cbn [fst].
    - transitivity (lineage (addOption c3 Registrar.timestampOption));
        [reflexivity|]. rewrite addOption_lineage, X. exact L3.
    - rewrite X. exact L3. }
  destruct (Descriptor.args conf) as [args|]; [|exact L4].
  rewrite fold_args_lineage. exact L4.
Qed.

(** One turn of the loop over the subcommands adds one child. *)
Lemma attach_child cn cmd conf acc n subconf :
  cmd_module (fst acc) = cmd_module cmd ->
  commands (fst (Registrar.attach cn conf acc n subconf
                   (Registrar.applyCommandConfig E n
                      (Registrar.newSubcommand E n) subconf)))
  = (commands (fst acc) ++ [childOf E cmd n subconf])%list
  /\ cmd_module (fst (Registrar.attach cn conf acc n subconf
                        (Registrar.applyCommandConfig E n
                           (Registrar.newSubcommand E n) subconf)))
     = cmd_module cmd.
Proof.
  destruct acc as [c notes]. cbn [fst]. intros Lm.
  unfold Registrar.attach, childOf, Registrar.applyConfig.
  destruct (Registrar.applyCommandConfig E n (Registrar.newSubcommand E n) subconf)
    as [sc sn].
  cbn [fst]. unfold addCommand. rewrite Lm.
  destruct (match Descriptor.defaultSubcommand conf with
            | Some d => d =? n | None => false end),
    (Descriptor.hidden subconf); split; first [exact Lm | reflexivity].
Qed.

(** The loop over the subcommands attaches one child for each entry of
    the map, in order: the new subcommand node with the sub-descriptor
    applied. *)
Lemma applyCommandConfig_children cn cmd conf subs :
  Descriptor.subcommands conf = Some subs ->
  commands (fst (Registrar.applyCommandConfig E cn cmd conf))
  = (commands cmd ++ map (fun e => childOf E cmd (fst e) (snd e)) subs)%list.
Proof.
  intros S. destruct conf as [ti al fl op ar su ds pl hi].
  cbn [Descriptor.subcommands] in S. subst su.
  cbn [Registrar.applyCommandConfig Descriptor.subcommands].
  set (conf := Descriptor.Conf ti al fl op ar (Some subs) ds pl hi).
  pose proof (applyOwn_lineage cn cmd conf) as L.
  assert (Lc : commands (fst (Registrar.applyOwn cn cmd conf)) = commands cmd)
    by exact (f_equal fst L).
  assert (Lm : cmd_module (fst (Registrar.applyOwn cn cmd conf)) = cmd_module cmd)
    by exact (f_equal snd L).
  rewrite <- Lc. clear L Lc. revert Lm.
  generalize (Registrar.applyOwn cn cmd conf). clearbody conf.
  induction subs as [|[n subconf] subs IH]; intros acc Lm.
  - cbn [map]. rewrite app_nil_r. reflexivity.
  - destruct (attach_child cn cmd conf acc n subconf Lm) as (Ac & Am).
    rewrite (IH _ Am), Ac. cbn [map fst snd].
    rewrite <- app_assoc. reflexivity.
Qed.

(** A child raises its usage errors, runs the shared entry point and
    shows the banner before its help; it has the options, the
    listeners and the values of the wired subcommand node. *)
Lemma childOf_wired parent n subconf :
  shape (childOf E parent n subconf)
  = shape (fst (Registrar.applyCommandConfig E n (Registrar.newSubcommand E n)
                  subconf))
  /\ outputError (childOf E parent n subconf) = RaiseTiError
  /\ actionHandler (childOf E parent n subconf) = Some RunExecuteCommand
  /\ helpBeforeAll (childOf E parent n subconf) = [ShowBanner]
  /\ cmd_module (childOf E parent n subconf) = cmd_module parent
  /\ cmd_conf (childOf E parent n subconf) = Some subconf.
Proof.
  unfold childOf, Registrar.applyConfig.
  destruct (applyCommandConfig_extends n (Registrar.newSubcommand E n) subconf)
    as (_ & _ & St & _).
  unfold settings in St. injection St as Sn So Sa Su Sh.
  destruct (Descriptor.hidden subconf); cbn; repeat split; assumption.
Qed.

End WithEnv.

End RegistrarFacts.

(* ================================================================== *)
(** * The reserved [sdk] name *)
(* ================================================================== *)

Section SdkFacts.

Import Commander.

Lemma registers_app c os n :
  existsb (fun o => name o =? n) (options c ++ os)
  = registers c n || existsb (fun o => name o =? n) os.
Proof. unfold registers. apply existsb_app. Qed.

Lemma flagOptions_named conf n :
  existsb (fun o => name o =? n) (flagOptions conf)
  = hasKey (Descriptor.flags conf) n.
Proof.
  unfold flagOptions, hasKey. destruct (Descriptor.flags conf) as [fs|]; [|reflexivity].
  induction fs as [|[k meta] fs IH]; [reflexivity|].
  cbn [map existsb fst snd]. rewrite flagOption_name, IH. reflexivity.
Qed.

Lemma optionOptions_named conf n :
  existsb (fun o => name o =? n) (optionOptions conf)
  = negb (n =? Registrar.sdk) && hasKey (Descriptor.options conf) n.
Proof.
  unfold optionOptions, hasKey, keptOptions.
  destruct (Descriptor.options conf) as [os|]; [|rewrite andb_false_r; reflexivity].
  induction os as [|[k meta] os IH]; [rewrite andb_false_r; reflexivity|].
  cbn [filter existsb fst].
  destruct (k =? Registrar.sdk) eqn:K; cbn [negb].
  - rewrite IH. apply String.eqb_eq in K. subst k.
    destruct (n =? Registrar.sdk) eqn:N; [reflexivity|].
    rewrite String.eqb_sym, N. reflexivity.
  - cbn [map existsb fst snd]. rewrite optionOption_name, IH.
    destruct (k =? n) eqn:KN.
    + apply String.eqb_eq in KN. subst k. rewrite K. reflexivity.
    + cbn. reflexivity.
Qed.

Lemma syntheticOptions_named conf n :
  existsb (fun o => name o =? n) (syntheticOptions conf) = true ->
  n = "timestamp".
Proof.
  unfold syntheticOptions. destruct (Descriptor.options conf) as [os|]; [|discriminate].
  destruct (Registrar.wantsTimestamp os); [|discriminate].
  intros H. cbn [existsb] in H. rewrite orb_false_r in H.
  apply String.eqb_eq in H. rewrite <- H. reflexivity.
Qed.

(** Notes are only ever added. *)
Lemma fold_flags_notes cn fs x : forall acc,
  In x (snd acc) -> In x (snd (fold_left (Registrar.applyFlag cn) fs acc)).
Proof.
  induction fs as [|[n meta] fs IH]; intros [c notes] H; [exact H|].
  apply IH. cbn. apply in_or_app. left. exact H.
Qed.

Lemma applyOption_notes cn conf e x acc :
  In x (snd acc) -> In x (snd (Registrar.applyOption cn conf acc e)).
Proof.
  destruct acc as [c notes], e as [n meta]. cbn [Registrar.applyOption snd].
  intros H. destruct (n =? Registrar.sdk); cbn [snd]; apply in_or_app; left; exact H.
Qed.

Lemma fold_options_notes cn conf os x : forall acc,
  In x (snd acc) -> In x (snd (fold_left (Registrar.applyOption cn conf) os acc)).
Proof.
  induction os as [|e os IH]; intros acc H; [exact H|].
  apply IH, applyOption_notes, H.
Qed.

Lemma fold_args_notes cn args x : forall acc,
  In x (snd acc) -> In x (snd (fold_left (Registrar.applyArg cn) args acc)).
Proof.
  induction args as [|a args IH]; intros [c notes] H; [exact H|].
  apply IH. cbn. apply in_or_app. left. exact H.
Qed.

(** The loop over the options leaves a note for a skipped [sdk]. *)
Lemma fold_options_skips cn conf os : forall acc,
  existsb (fun e => fst e =? Registrar.sdk) os = true ->
  In (Trace ("Skipping " ++ dq ++ cn ++ dq ++ " option: --sdk"))
     (snd (fold_left (Registrar.applyOption cn conf) os acc)).
Proof.
  induction os as [|[n meta] os IH]; intros [c notes] H; [discriminate|].
  cbn [existsb fst] in H. cbn [fold_left].
  destruct (n =? Registrar.sdk) eqn:N.
  - apply fold_options_notes. cbn [Registrar.applyOption]. rewrite N.
    apply String.eqb_eq in N. subst n. cbn [snd].
    apply in_or_app. right. left. reflexivity.
  - apply IH. exact H.
Qed.

Lemma applyOwn_skips cn cmd conf :
  hasKey (Descriptor.options conf) Registrar.sdk = true ->
  In (Trace ("Skipping " ++ dq ++ cn ++ dq ++ " option: --sdk"))
     (snd (Registrar.applyOwn cn cmd conf)).
Proof.
  unfold hasKey, Registrar.applyOwn.
  destruct (Descriptor.options conf) as [os|]; [|discriminate]. intros H.
  assert (X : forall acc,
             In (Trace ("Skipping " ++ dq ++ cn ++ dq ++ " option: --sdk"))
                (snd (Registrar.applyTimestamp cn os
                        (fold_left (Registrar.applyOption cn conf) os acc)))).
  { intros acc. pose proof (fold_options_skips cn conf os acc H) as S.
    unfold Registrar.applyTimestamp.
    destruct (fold_left _ os acc) as [c notes].
    destruct (Registrar.wantsTimestamp os); [|exact S].
    cbn [snd] in *. apply in_or_app. left. exact S. }
  destruct (Descriptor.args conf) as [args|]; [apply fold_args_notes|]; apply X.
Qed.

Lemma attach_notes cn conf acc n subconf applied x :
  In x (snd acc) -> In x (snd (Registrar.attach cn conf acc n subconf applied)).
Proof.
  destruct acc as [c notes], applied as [sc sn]. cbn. intros H.
  apply in_or_app. left. exact H.
Qed.

Lemma applyCommandConfig_notes (E : Env) cn cmd conf x :
  In x (snd (Registrar.applyOwn cn cmd conf)) ->
  In x (snd (Registrar.applyCommandConfig E cn cmd conf)).
Proof.
  destruct conf as [ti al fl op ar su ds pl hi].
  cbn [Registrar.applyCommandConfig Descriptor.subcommands].
  destruct su as [subs|]; [|auto].
  set (conf := Descriptor.Conf ti al fl op ar (Some subs) ds pl hi).
  generalize (Registrar.applyOwn cn cmd conf). clearbody conf.
  induction subs as [|[n subconf] subs IH]; intros acc H; [exact H|].
  apply IH, attach_notes, H.
Qed.

End SdkFacts.

(** C5, evaluated on the code.  The loop over the options map skips
    the reserved [sdk]; the loop over the flags map has no such guard.
    For a descriptor whose flags map declares [sdk], the node has a
    switch named [sdk] after the call, and the only note is that of a
    flag being added: nothing is skipped. *)
Lemma sdk_flag_is_registered :
  registers (fst (Registrar.applyCommandConfig plain "build"
                    (Commander.newCommand "build") sdkFlagConf)) "sdk" = true
  /\ snd (Registrar.applyCommandConfig plain "build"
            (Commander.newCommand "build") sdkFlagConf)
     = [ Trace ("Adding " ++ dq ++ "build" ++ dq ++ " flag: --sdk") ].
Proof.
  split; reflexivity.
Qed.

(** The reserved name in general.  An entry named [sdk] of the
    options map of a descriptor is never registered on the node: it is
    skipped with the note [Skipping "<command>" option: --sdk], and no
    option that the options map contributes is named [sdk].  After the
    call, the node has a switch named [sdk] exactly when it had one
    before or the flags map declares one. *)
Theorem sdk_option_is_skipped (E : Env) (cmdName : string)
        (cmd : Commander.Command) (conf : Descriptor.conf) :
  registers (fst (Registrar.applyCommandConfig E cmdName cmd conf)) "sdk"
  = registers cmd "sdk" || hasKey (Descriptor.flags conf) "sdk"
  /\ (forall o, In o (optionOptions conf) -> Commander.name o <> "sdk")
  /\ (hasKey (Descriptor.options conf) "sdk" = true ->
      In (Trace ("Skipping " ++ dq ++ cmdName ++ dq ++ " option: --sdk"))
         (snd (Registrar.applyCommandConfig E cmdName cmd conf))).
Proof.
  split; [|split].
  - destruct (applyCommandConfig_extends E cmdName cmd conf) as (H & _ & _ & _).
    unfold registers at 1. rewrite H, registers_app. f_equal.
    unfold registered. rewrite !existsb_app.
    rewrite flagOptions_named, optionOptions_named. cbn [negb andb].
    destruct (existsb _ (syntheticOptions conf)) eqn:S.
    + apply syntheticOptions_named in S. discriminate.
    + rewrite !orb_false_r. reflexivity.
  - intros o Ho Hn.
    pose proof (optionOptions_named conf "sdk") as X. cbn [negb andb] in X.
    rewrite <- not_true_iff_false in X. apply X.
    apply existsb_exists. exists o. split; [exact Ho|].
    apply String.eqb_eq. exact Hn.
  - intros H. apply applyCommandConfig_notes, applyOwn_skips. exact H.
Qed.

(* ================================================================== *)
(** * Nodes whose switches are unambiguous *)
(* ================================================================== *)

Section ListFacts.

Lemma distinct_NoDup (l : list string) : distinct l = true -> NoDup l.
Proof.
  induction l as [|x l IH]; cbn; intros H; constructor.
  - apply andb_prop in H as [H _]. apply negb_true_iff in H.
    intros I. rewrite <- not_true_iff_false in H. apply H.
    apply existsb_exists. exists x. split; [exact I | apply String.eqb_refl].
  - apply IH. apply andb_prop in H as [_ H]. exact H.
Qed.

(** Elements with the same image under [f] are the same element when
    the images are pairwise distinct. *)
Lemma NoDup_map_eq {A B : Type} (f : A -> B) (l : list A) (x y : A) :
  NoDup (map f l) -> In x l -> In y l -> f x = f y -> x = y.
Proof.
  induction l as [|a l IH]; cbn; intros N Hx Hy E; [contradiction|].
  inversion N as [|? ? Na Nl]; subst.
  destruct Hx as [-> | Hx], Hy as [-> | Hy]; auto.
  - exfalso. apply Na. rewrite E. apply in_map, Hy.
  - exfalso. apply Na. rewrite <- E. apply in_map, Hx.
Qed.

Lemma NoDup_app_l {A : Type} (l1 l2 : list A) : NoDup (l1 ++ l2) -> NoDup l1.
Proof.
  induction l1 as [|a l1 IH]; cbn; intros N; constructor;
    inversion N as [|? ? Na Nl]; subst.
  - intros I. apply Na, in_or_app. left. exact I.
  - apply IH, Nl.
Qed.

Lemma NoDup_app_r {A : Type} (l1 l2 : list A) : NoDup (l1 ++ l2) -> NoDup l2.
Proof.
  induction l1 as [|a l1 IH]; cbn; intros N; [exact N|].
  inversion N; subst. auto.
Qed.

Lemma NoDup_app_disjoint {A : Type} (l1 l2 : list A) (x : A) :
  NoDup (l1 ++ l2) -> In x l1 -> In x l2 -> False.
Proof.
  induction l1 as [|a l1 IH]; cbn; intros N H1 H2; [contradiction|].
  inversion N as [|? ? Na Nl]; subst. destruct H1 as [-> | H1].
  - apply Na, in_or_app. right. exact H2.
  - apply IH; assumption.
Qed.

End ListFacts.

Section FindFacts.

Import Commander.

Lemma is_flag_flagsOf o f : is_flag o f = true -> In f (flagsOf o).
Proof.
  unfold is_flag, flagsOf. destruct (short o) as [s|]; intros H.
  - apply orb_prop in H as [H | H]; apply String.eqb_eq in H; subst; cbn; auto.
  - apply String.eqb_eq in H. subst. cbn. auto.
Qed.

(** When the flags of the options are pairwise distinct, a flag of a
    registered option resolves to that option. *)
Lemma find_unique (os : list Option) (o : Option) (f : string) :
  NoDup (flat_map flagsOf os) -> In o os -> is_flag o f = true ->
  find (fun o' => is_flag o' f) os = Some o.
Proof.
  induction os as [|a os IH]; cbn [flat_map find]; intros N I F; [contradiction|].
  destruct (is_flag a f) eqn:A.
  - destruct I as [-> | I]; [reflexivity|]. exfalso.
    apply (NoDup_app_disjoint _ _ f N).
    + apply is_flag_flagsOf, A.
    + apply in_flat_map. exists o. split; [exact I | apply is_flag_flagsOf, F].
  - destruct I as [-> | I]; [congruence|].
    apply IH; [eapply NoDup_app_r, N | exact I | exact F].
Qed.

Lemma findOption_unique c o f :
  unambiguous c = true -> In o (options c) -> is_flag o f = true ->
  findOption c f = Some o.
Proof.
  unfold unambiguous, findOption. intros U I F.
  apply andb_prop in U as [U _]. apply andb_prop in U as [U _].
  apply find_unique; [apply distinct_NoDup, U | exact I | exact F].
Qed.

Lemma findOption_some c f o :
  findOption c f = Some o -> In o (options c) /\ is_flag o f = true.
Proof. unfold findOption. apply find_some. Qed.

Lemma findOption_none c f o :
  findOption c f = None -> In o (options c) -> is_flag o f = false.
Proof.
  unfold findOption. intros H I. exact (find_none _ _ H o I).
Qed.

Lemma same_name c o o' :
  unambiguous c = true -> In o (options c) -> In o' (options c) ->
  name o = name o' -> o = o'.
Proof.
  unfold unambiguous. intros U I I' E.
  apply andb_prop in U as [U _]. apply andb_prop in U as [_ U].
  eapply NoDup_map_eq; [apply distinct_NoDup, U | | | exact E]; assumption.
Qed.

Lemma same_attribute c o o' :
  unambiguous c = true -> In o (options c) -> In o' (options c) ->
  attributeName o = attributeName o' -> o = o'.
Proof.
  unfold unambiguous. intros U I I' E.
  apply andb_prop in U as [_ U].
  eapply NoDup_map_eq; [apply distinct_NoDup, U | | | exact E]; assumption.
Qed.

(** ** Option values *)

Lemma get_put_same vs k v : JS.get (put vs k v) k = Some v.
Proof.
  induction vs as [|[k' w] vs IH]; cbn.
  - rewrite String.eqb_refl. reflexivity.
  - destruct (k' =? k) eqn:K; cbn; rewrite K; [reflexivity | exact IH].
Qed.

Lemma get_put_other vs k v k' : k <> k' -> JS.get (put vs k v) k' = JS.get vs k'.
Proof.
  intros N. induction vs as [|[k0 w] vs IH]; cbn.
  - apply String.eqb_neq in N. rewrite N. reflexivity.
  - destruct (k0 =? k) eqn:K; cbn.
    + apply String.eqb_eq in K. subst k0.
      apply String.eqb_neq in N. rewrite N. reflexivity.
    + destruct (k0 =? k'); [reflexivity | exact IH].
Qed.

Lemma value_set_same c k v : getOptionValue (setOptionValue c k v) k = v.
Proof.
  unfold getOptionValue, setOptionValue. cbn [optionValues set_optionValues].
  rewrite get_put_same. reflexivity.
Qed.

Lemma value_set_other c k v k' :
  k <> k' -> getOptionValue (setOptionValue c k v) k' = getOptionValue c k'.
Proof.
  intros N. unfold getOptionValue, setOptionValue.
  cbn [optionValues set_optionValues]. rewrite get_put_other by exact N.
  reflexivity.
Qed.

Lemma value_ext c c' k :
  optionValues c = optionValues c' -> getOptionValue c k = getOptionValue c' k.
Proof. unfold getOptionValue. intros ->. reflexivity. Qed.

(** [addOption] writes the values of the node at most under the
    attribute of the option. *)
Lemma addOption_value_other c o k :
  attributeName o <> k -> getOptionValue (addOption c o) k = getOptionValue c k.
Proof.
  intros N. unfold addOption. destruct (negate o).
  - destruct (findOption _ _).
    + reflexivity.
    + transitivity (getOptionValue
                      (setOptionValue (set_options c (options c ++ [o]))
                         (attributeName o)
                         (if JS.defined (defaultValue o) then defaultValue o
                          else VBool true)) k); [reflexivity|].
      rewrite value_set_other by exact N. reflexivity.
  - destruct (JS.defined (defaultValue o)); [|reflexivity].
    transitivity (getOptionValue
                    (setOptionValue (set_options c (options c ++ [o]))
                       (attributeName o) (defaultValue o)) k); [reflexivity|].
    rewrite value_set_other by exact N. reflexivity.
Qed.

(** [addOption] stores the default of an option that is not a
    negation. *)
Lemma addOption_value_own c o :
  negate o = false -> JS.defined (defaultValue o) = true ->
  getOptionValue (addOption c o) (attributeName o) = defaultValue o.
Proof.
  intros N D. unfold addOption. rewrite N, D.
  transitivity (getOptionValue
                  (setOptionValue (set_options c (options c ++ [o]))
                     (attributeName o) (defaultValue o)) (attributeName o));
    [reflexivity | apply value_set_same].
Qed.

Lemma addOptions_value_other os k : forall c,
  (forall o, In o os -> attributeName o <> k) ->
  getOptionValue (addOptions c os) k = getOptionValue c k.
Proof.
  induction os as [|a os IH]; intros c H; [reflexivity|].
  cbn [addOptions fold_left]. unfold addOptions in IH. rewrite IH.
  - apply addOption_value_other, H. left. reflexivity.
  - intros o I. apply H. right. exact I.
Qed.

(** After a sequence of registrations with pairwise distinct
    attributes, a registered option that is not a negation holds its
    default. *)
Lemma addOptions_default os o : forall c,
  In o os -> NoDup (map attributeName os) ->
  negate o = false -> JS.defined (defaultValue o) = true ->
  getOptionValue (addOptions c os) (attributeName o) = defaultValue o.
Proof.
  induction os as [|a os IH]; intros c I N Hn Hd; [contradiction|].
  inversion N as [|? ? Na Nl]; subst.
  cbn [addOptions fold_left]. destruct I as [-> | I].
  - change (fold_left addOption os (addOption c o))
      with (addOptions (addOption c o) os).
    rewrite addOptions_value_other.
    + apply addOption_value_own; assumption.
    + intros o' I' E. apply Na. rewrite <- E. apply in_map, I'.
  - apply IH; assumption.
Qed.

End FindFacts.

(* ================================================================== *)
(** * Parsing the options of a node *)
(* ================================================================== *)

Section DispatchFacts.

Import Commander Dispatch.

Lemma wiring_outputError c c' : wiring c' = wiring c -> outputError c' = outputError c.
Proof.
  intros W. pose proof (f_equal snd W) as S. cbn in S.
  unfold settings in S. congruence.
Qed.

Lemma wiring_options c c' : wiring c' = wiring c -> options c' = options c.
Proof. intros W. exact (f_equal (fun w => fst (fst w)) W). Qed.

Lemma wiring_listeners c c' : wiring c' = wiring c -> listeners c' = listeners c.
Proof. intros W. exact (f_equal (fun w => snd (fst w)) W). Qed.

Lemma wiring_unambiguous c c' :
  wiring c' = wiring c -> unambiguous c' = unambiguous c.
Proof. intros W. unfold unambiguous. rewrite (wiring_options _ _ W). reflexivity. Qed.

Lemma wiring_findOption c c' f :
  wiring c' = wiring c -> findOption c' f = findOption c f.
Proof. intros W. unfold findOption. rewrite (wiring_options _ _ W). reflexivity. Qed.

Lemma orderly_ret {A : Type} (a : A) : orderly (ret a).
Proof.
  intros cli c. cbn. repeat split; auto.
Qed.

Lemma orderly_bind {A B : Type} (m : M A) (k : A -> M B) :
  orderly m -> (forall a, orderly (k a)) -> orderly (bind m k).
Proof.
  intros Hm Hk cli c. unfold bind. specialize (Hm cli c).
  destruct (m cli c) as [[[cli1 c1] out1] r1].
  destruct Hm as (W1 & R1 & T1 & O1 & F1).
  destruct r1 as [a | e | n].
  - specialize (Hk a cli1 c1).
    destruct (k a cli1 c1) as [[[cli2 c2] out2] r2].
    destruct Hk as (W2 & R2 & T2 & O2 & F2).
    split; [congruence|]. split; [congruence|]. split; [auto|].
    split; [apply Forall_app; split; assumption|].
    destruct r2 as [b | e | n]; [exact I | |].
    + destruct F2 as (Fa & Fb & Fc). rewrite (wiring_outputError _ _ W1) in Fa.
      repeat split; assumption.
    + destruct F2 as (Fa & Fb). rewrite (wiring_outputError _ _ W1) in Fa.
      split; assumption.
  - repeat split; try assumption; apply F1.
  - repeat split; try assumption; apply F1.
Qed.

Lemma orderly_error {A : Type} (message : string) : orderly (@error A message).
Proof.
  intros cli c. unfold error. destruct (outputError c) eqn:O; cbn.
  - repeat split; auto. repeat constructor. eexists. reflexivity.
  - repeat split; auto. eexists. reflexivity.
Qed.

Lemma orderly_store key v : orderly (store key v).
Proof.
  intros cli c. cbn. repeat split; auto.
Qed.

Lemma orderly_handle o val : orderly (handleOptionValue o val).
Proof.
  unfold handleOptionValue.
  destruct (takes o), val as [v|], (argChoices o) eqn:C;
    try apply orderly_store; try apply orderly_error;
    destruct (accepts o v); try apply orderly_store; apply orderly_error.
Qed.

Lemma orderly_enableTimestamp : orderly enableTimestamp.
Proof.
  intros cli c. unfold enableTimestamp. destruct (ready cli) eqn:R; cbn.
  - repeat split; auto.
  - repeat split; auto.
Qed.

Lemma orderly_runListener l val : orderly (runListener l val).
Proof.
  destruct l; [apply orderly_handle | apply orderly_enableTimestamp].
Qed.

Lemma orderly_notify ls ev val : orderly (notify ls ev val).
Proof.
  induction ls as [|[e l] ls IH]; cbn [notify]; [apply orderly_ret|].
  destruct (e =? ev); [|exact IH].
  apply orderly_bind; [apply orderly_runListener | intros _; exact IH].
Qed.

Lemma orderly_emit ev val : orderly (emit ev val).
Proof.
  intros cli c. unfold emit. apply orderly_notify.
Qed.

Lemma orderly_parseOptions argv : forall unknown, orderly (parseOptions argv unknown).
Proof.
  induction argv as [|[f val] argv IH]; intros unknown; cbn [parseOptions].
  - apply orderly_ret.
  - intros cli c. destruct (findOption c f) as [o|].
    + apply (orderly_bind _ _ (orderly_emit _ _) (fun _ => IH unknown)).
    + apply IH.
Qed.

(** The result of [bind] when its first computation ends normally. *)
Lemma bind_normal {A B : Type} (m : M A) (k : A -> M B) cli c cli1 c1 out1 a :
  m cli c = (cli1, c1, out1, Normal a) ->
  bind m k cli c =
  (fst (fst (fst (k a cli1 c1))), snd (fst (fst (k a cli1 c1))),
   (out1 ++ snd (fst (k a cli1 c1)))%list, snd (k a cli1 c1)).
Proof.
  intros H. unfold bind. rewrite H.
  destruct (k a cli1 c1) as [[[cli2 c2] out2] r2]. reflexivity.
Qed.

(** The result of [bind] when its first computation fails. *)
Lemma bind_failed {A B : Type} (m : M A) (k : A -> M B) cli c :
  failed (snd (m cli c)) ->
  failed (snd (bind m k cli c))
  /\ snd (fst (bind m k cli c)) = snd (fst (m cli c))
  /\ fst (fst (bind m k cli c)) = fst (fst (m cli c)).
Proof.
  unfold bind. destruct (m cli c) as [[[cli1 c1] out1] [a | e | n]]; cbn;
    intros F; [contradiction | |]; repeat split.
Qed.

End DispatchFacts.

(* ================================================================== *)
(** * Values outside the choices of an option *)
(* ================================================================== *)

Section ChoiceFacts.

Import Commander Dispatch.

Lemma accepts_false o v allowed :
  argChoices o = Some allowed -> ~ In v allowed -> accepts o v = false.
Proof.
  intros C N. unfold accepts. rewrite C.
  rewrite <- not_true_iff_false. intros H. apply N.
  apply existsb_exists in H as (x & I & X).
  apply String.eqb_eq in X. subst. exact I.
Qed.

Lemma handle_rejects o v cli c :
  takes o = OptionalValue -> accepts o v = false ->
  failed (snd (handleOptionValue o (Some v) cli c)).
Proof.
  intros T A. unfold handleOptionValue. rewrite T, A.
  unfold error. destruct (outputError c); exact I.
Qed.

(** If the handler of the option is among the listeners of the event,
    the event does not end normally. *)
Lemma notify_rejects ls ev v o :
  In (ev, StoreValue o) ls -> takes o = OptionalValue -> accepts o v = false ->
  forall cli c, failed (snd (notify ls ev (Some v) cli c)).
Proof.
  intros I T A. induction ls as [|[e l] ls IH]; [contradiction|].
  intros cli c. cbn [notify]. destruct (e =? ev) eqn:Ev.
  - destruct I as [I | I].
    + injection I as _ ->.
      apply bind_failed. cbn [runListener]. apply handle_rejects; assumption.
    + destruct (runListener l (Some v) cli c) as [[[cli1 c1] out1] r1] eqn:R.
      destruct r1 as [[] | e1 | n1].
      * rewrite (bind_normal _ _ _ _ _ _ _ _ R). cbn [snd]. apply IH, I.
      * apply bind_failed. rewrite R. exact Logic.I.
      * apply bind_failed. rewrite R. exact Logic.I.
  - destruct I as [I | I]; [|apply IH, I].
    injection I as -> _. rewrite String.eqb_refl in Ev. discriminate.
Qed.

(** A command line that gives an option a value outside its choices
    is not parsed to the end. *)
Lemma parseOptions_rejects argv f v o : forall unknown cli c,
  In (f, Some v) argv -> findOption c f = Some o ->
  takes o = OptionalValue -> accepts o v = false ->
  In (storeListener o) (listeners c) ->
  failed (snd (parseOptions argv unknown cli c)).
Proof.
  induction argv as [|[f' val'] argv IH]; intros unknown cli c I F T A L;
    [contradiction|].
  cbn [parseOptions]. destruct (findOption c f') as [o'|] eqn:F'.
  - destruct I as [I | I].
    + injection I as -> ->. rewrite F in F'. injection F' as <-.
      apply bind_failed. unfold emit. rewrite T.
      apply notify_rejects with (o := o); assumption.
    + pose proof (orderly_emit ("option:" ++ name o')
                    (match takes o' with OptionalValue => val' | Boolean => None end)
                    cli c) as O.
      destruct (emit _ _ cli c) as [[[cli1 c1] out1] r1] eqn:Em.
      destruct O as (W & _).
      destruct r1 as [[] | e1 | n1].
      * rewrite (bind_normal _ _ _ _ _ _ _ _ Em). cbn [snd].
        apply IH; try assumption.
        -- rewrite (wiring_findOption _ _ _ W). exact F.
        -- rewrite (wiring_listeners _ _ W). exact L.
      * apply bind_failed. rewrite Em. exact Logic.I.
      * apply bind_failed. rewrite Em. exact Logic.I.
  - destruct I as [I | I]; [|apply IH; assumption].
    injection I as -> _. congruence.
Qed.

(** When the options cannot be parsed, the node runs neither its hooks
    nor its action: the outcome, the effects and the state are those of
    the parsing. *)
Lemma parseCommand_stops argv cli c :
  failed (snd (parseOptions argv [] cli c)) ->
  failed (snd (parseCommand argv cli c))
  /\ snd (fst (parseCommand argv cli c)) = snd (fst (parseOptions argv [] cli c))
  /\ fst (fst (parseCommand argv cli c)) = fst (fst (parseOptions argv [] cli c))
  /\ (forall e, snd (parseOptions argv [] cli c) = Throw e ->
                snd (parseCommand argv cli c) = Throw e)
  /\ (forall n, snd (parseOptions argv [] cli c) = ExitProcess n ->
                snd (parseCommand argv cli c) = ExitProcess n).
Proof.
  unfold parseCommand, bind.
  destruct (parseOptions argv [] cli c) as [[[cli1 c1] out1] [a | e | n]]; cbn;
    intros F; [contradiction | |]; repeat split; congruence.
Qed.

(** The option that the registrar builds for an entry of the options
    map is registered on the node, with its listener. *)
Lemma option_registered (E : Env) cn cmd conf os n meta :
  Descriptor.options conf = Some os -> In (n, meta) os -> n <> Registrar.sdk ->
  let node := fst (Registrar.applyCommandConfig E cn cmd conf) in
  In (Registrar.optionOption n meta) (registered conf)
  /\ In (Registrar.optionOption n meta) (options node)
  /\ In (storeListener (Registrar.optionOption n meta)) (listeners node).
Proof.
  intros O I N node.
  assert (R : In (Registrar.optionOption n meta) (registered conf)).
  { unfold registered, optionOptions. rewrite O.
    apply in_or_app. right. apply in_or_app. left.
    apply (in_map (fun e => Registrar.optionOption (fst e) (snd e)) _ (n, meta)).
    unfold keptOptions. apply filter_In. split; [exact I|].
    cbn [fst]. apply negb_true_iff, String.eqb_neq, N. }
  destruct (applyCommandConfig_extends E cn cmd conf) as (H1 & H2 & _ & _).
  fold node in H1, H2. split; [exact R|]. split.
  - rewrite H1. apply in_or_app. right. exact R.
  - rewrite H2. apply in_or_app. right. apply in_or_app. left.
    apply in_map, R.
Qed.

Lemma optionOption_is_flag n meta :
  is_flag (Registrar.optionOption n meta) ("--" ++ n) = true.
Proof.
  unfold is_flag. rewrite optionOption_long, String.eqb_refl.
  destruct (short _); [apply orb_true_r | reflexivity].
Qed.

End ChoiceFacts.

(** C6.  Take an entry [name: meta] of the options map of a descriptor,
    other than the reserved [sdk], whose [values] is an array, and the
    node that the registrar wires from the descriptor, its switches
    being unambiguous.  Whenever the command line gives the option,
    under its long flag [--name] or its abbreviation, a value outside
    the array, parsing fails: the action of the node is
    not run (nor is any hook), and the failure is the usage error of
    the node.  On a node that raises its errors, as every node made
    for a subcommand does, the failure is a [TiError] and [cli.command]
    is the node itself; on a node that writes its errors, the process
    exits with status 1. *)
Theorem invalid_choice_is_refused
        (E : Env) (cmdName : string) (cmd : Commander.Command)
        (conf : Descriptor.conf) (os : list (string * Descriptor.Opt.t))
        (name : string) (meta : Descriptor.Opt.t) (allowed : list string)
        (flag v : string) (argv : list Dispatch.supplied) (cli : CLI) :
  Descriptor.options conf = Some os ->
  In (name, meta) os ->
  name <> "sdk" ->
  Descriptor.Opt.values meta = Some allowed ->
  ~ In v allowed ->
  let node := fst (Registrar.applyCommandConfig E cmdName cmd conf) in
  unambiguous node = true ->
  Commander.is_flag (Registrar.optionOption name meta) flag = true ->
  In (flag, Some v) argv ->
  let result := Dispatch.parseCommand argv cli node in
  let cli' := fst (fst (fst result)) in
  let node' := snd (fst (fst result)) in
  failed (snd result)
  /\ Forall (writes_to Stderr) (snd (fst result))
  /\ (forall n, ~ In (ExecuteCommand n) (snd (fst result)))
  /\ Commander.cmd_name node' = Commander.cmd_name cmd
  /\ (Commander.outputError cmd = Commander.RaiseTiError ->
      (exists msg, snd result = Throw (TiError msg None None))
      /\ command cli' = Some node')
  /\ (Commander.outputError cmd = Commander.WriteErr ->
      snd result = ExitProcess 1)
  /\ (forall n, Commander.outputError (Registrar.newSubcommand E n)
                = Commander.RaiseTiError).
Proof.
  intros O I N V NI node U Fl A result cli' node'.
  destruct (option_registered E cmdName cmd conf os name meta O I N)
    as (_ & Io & Il).
  fold node in Io, Il.
  assert (F : failed (snd (Dispatch.parseOptions argv [] cli node))).
  { apply parseOptions_rejects
      with (f := flag) (v := v) (o := Registrar.optionOption name meta);
      try assumption.
    - apply findOption_unique; [exact U | exact Io | exact Fl].
    - apply optionOption_takes.
    - eapply accepts_false; [|exact NI]. rewrite optionOption_choices. exact V. }
  destruct (parseCommand_stops argv cli node F) as (Pf & Po & Ps & Pt & Pe).
  pose proof (orderly_parseOptions argv [] cli node) as Ord.
  destruct (applyCommandConfig_extends E cmdName cmd conf) as (_ & _ & St & _).
  fold node in St.
  assert (Oe : Commander.outputError node = Commander.outputError cmd)
    by (unfold settings in St; congruence).
  subst result cli' node'. rewrite Po, Ps.
  destruct (Dispatch.parseOptions argv [] cli node) as [[[cli1 c1] out1] r1].
  destruct Ord as (W & _ & _ & Fo & Fr). cbn [fst snd] in *.
  split; [exact Pf|]. split; [exact Fo|]. split.
  { intros n In. rewrite Forall_forall in Fo. destruct (Fo _ In) as [chunk X].
    discriminate. }
  split.
  { pose proof (f_equal snd W) as S. cbn in S. unfold settings in S, St. congruence. }
  split; [|split].
  - intros R. destruct r1 as [a | e | n]; [contradiction | |].
    + destruct Fr as (_ & (msg & ->) & Fc). split; [|exact Fc].
      exists msg. apply Pt. reflexivity.
    + destruct Fr as (Fa & _). congruence.
  - intros R. destruct r1 as [a | e | n]; [contradiction | |].
    + destruct Fr as (Fa & _). congruence.
    + destruct Fr as (_ & ->). apply Pe. reflexivity.
  - reflexivity.
Qed.

(* ================================================================== *)
(** * The value of an option after parsing *)
(* ================================================================== *)

Section ValueFacts.

Import Commander Dispatch.

Lemma append_inj_l (p a b : string) : p ++ a = p ++ b -> a = b.
Proof.
  induction p as [|x p IH]; cbn; intros H; [exact H|].
  injection H as H. apply IH, H.
Qed.

Lemma sound_wiring c c' : wiring c' = wiring c -> sound c -> sound c'.
Proof.
  intros W (U & L1 & L2). unfold sound.
  rewrite (wiring_unambiguous _ _ W), (wiring_listeners _ _ W),
    (wiring_options _ _ W).
  split; [exact U | split; [exact L1 | exact L2]].
Qed.

(** The node that the registrar wires from a blank node is sound when
    its switches are unambiguous. *)
Lemma registered_sound (E : Env) cn cmd conf :
  blank cmd ->
  unambiguous (fst (Registrar.applyCommandConfig E cn cmd conf)) = true ->
  sound (fst (Registrar.applyCommandConfig E cn cmd conf)).
Proof.
  intros (B1 & B2) U.
  destruct (applyCommandConfig_extends E cn cmd conf) as (H1 & H2 & _ & _).
  rewrite B1 in H1. rewrite B2 in H2. cbn [app] in H1, H2.
  split; [exact U|]. rewrite H1, H2. split.
  - intros ev o In. apply in_app_or in In as [In | In].
    + apply in_map_iff in In as (o' & Eq & In').
      unfold storeListener in Eq. injection Eq as <- ->. split; [reflexivity | exact In'].
    + unfold syntheticListeners in In.
      destruct (Descriptor.options conf) as [os|]; [|contradiction].
      destruct (Registrar.wantsTimestamp os); [|contradiction].
      destruct In as [In | []]. discriminate.
  - intros o In. apply in_or_app. left. apply in_map, In.
Qed.

Lemma stored_passed o val :
  stored o (match takes o with OptionalValue => val | Boolean => None end)
  = stored o val.
Proof. unfold stored. destruct (takes o); reflexivity. Qed.

(** When the handler of an option ends normally, it has stored the
    value of the occurrence and nothing else has changed. *)
Lemma handle_normal o val cli c cli' c' out :
  handleOptionValue o val cli c = (cli', c', out, Normal tt) ->
  cli' = cli /\ c' = setOptionValue c (attributeName o) (stored o val).
Proof.
  unfold handleOptionValue, stored, store, error.
  destruct (takes o), val as [v|]; try destruct (argChoices o);
    try destruct (accepts o v); try destruct (outputError c);
    intros H; try discriminate; inversion H; split; reflexivity.
Qed.

Lemma bind_inv_normal {A B : Type} (m : M A) (k : A -> M B)
      cli c cli' c' out b :
  bind m k cli c = (cli', c', out, Normal b) ->
  exists cli1 c1 out1 a out2,
    m cli c = (cli1, c1, out1, Normal a)
    /\ k a cli1 c1 = (cli', c', out2, Normal b)
    /\ out = (out1 ++ out2)%list.
Proof.
  unfold bind. destruct (m cli c) as [[[cli1 c1] out1] [a | e | n]];
    try discriminate.
  destruct (k a cli1 c1) as [[[cli2 c2] out2] r2] eqn:K. intros H.
  inversion H; subst. exists cli1, c1, out1, a, out2. repeat split. exact K.
Qed.

(** An event whose only handlers are those of the option [o']: when it
    ends normally, the values of the node are unchanged except under
    the attribute of [o'], which holds the value of the occurrence once
    a handler has run. *)
Lemma notify_values ls ev val o' :
  (forall o'', In (ev, StoreValue o'') ls -> o'' = o') ->
  forall cli c cli' c' out,
    notify ls ev val cli c = (cli', c', out, Normal tt) ->
    (forall k, attributeName o' <> k -> getOptionValue c' k = getOptionValue c k)
    /\ (In (ev, StoreValue o') ls
        \/ getOptionValue c (attributeName o') = stored o' val ->
        getOptionValue c' (attributeName o') = stored o' val).
Proof.
  induction ls as [|[e l] ls IH]; intros Only cli c cli' c' out H.
  - cbn in H. inversion H; subst. split; [reflexivity|].
    intros [[] | X]. exact X.
  - cbn [notify] in H. destruct (e =? ev) eqn:Ev.
    + apply String.eqb_eq in Ev. subst e.
      apply bind_inv_normal in H as (cli1 & c1 & out1 & [] & out2 & R & K & _).
      assert (Only' : forall o'', In (ev, StoreValue o'') ls -> o'' = o')
        by (intros o'' X; apply Only; right; exact X).
      destruct (IH Only' _ _ _ _ _ K) as (K1 & K2).
      destruct l as [o''|].
      * assert (o'' = o') by (apply Only; left; reflexivity). subst o''.
        cbn [runListener] in R. apply handle_normal in R as (-> & ->).
        split.
        -- intros k N. rewrite K1 by exact N. apply value_set_other, N.
        -- intros _. apply K2. right. apply value_set_same.
      * cbn [runListener] in R. unfold enableTimestamp in R.
        inversion R; subst. split; [exact K1|].
        intros [[X | X] | X]; [discriminate | |]; apply K2; auto.
    + assert (Only' : forall o'', In (ev, StoreValue o'') ls -> o'' = o')
        by (intros o'' X; apply Only; right; exact X).
      destruct (IH Only' _ _ _ _ _ H) as (K1 & K2).
      split; [exact K1|]. intros [[X | X] | X]; [|apply K2; auto..].
      injection X as -> _. rewrite String.eqb_refl in Ev. discriminate.
Qed.

(** The event of a registered option of a sound node. *)
Lemma emit_values c o' val cli cli' c' out :
  sound c -> In o' (options c) ->
  emit ("option:" ++ name o') val cli c = (cli', c', out, Normal tt) ->
  (forall k, attributeName o' <> k -> getOptionValue c' k = getOptionValue c k)
  /\ getOptionValue c' (attributeName o') = stored o' val.
Proof.
  intros (U & L1 & L2) Hin H. unfold emit in H.
  assert (Only : forall o'', In ("option:" ++ name o', StoreValue o'') (listeners c) ->
                             o'' = o').
  { intros o'' X. destruct (L1 _ _ X) as (Ev & Hin'').
    apply append_inj_l in Ev. symmetry. eapply same_name; eassumption. }
  destruct (notify_values _ _ _ _ Only _ _ _ _ _ H) as (K1 & K2).
  split; [exact K1|]. apply K2. left. apply (L2 o' Hin).
Qed.

(** The value of a registered option after a command line that was
    parsed to the end. *)
Lemma parse_values o argv : forall unknown cli c cli' c' out unknown',
  sound c -> In o (options c) ->
  parseOptions argv unknown cli c = (cli', c', out, Normal unknown') ->
  getOptionValue c' (attributeName o)
  = resolve o argv (getOptionValue c (attributeName o)).
Proof.
  induction argv as [|[f val] argv IH];
    intros unknown cli c cli' c' out unknown' S Hin H.
  - cbn in H. inversion H; subst. reflexivity.
  - cbn [parseOptions] in H. cbn [resolve].
    destruct (findOption c f) as [o'|] eqn:F.
    + apply bind_inv_normal in H as (cli1 & c1 & out1 & [] & out2 & Em & K & _).
      pose proof (orderly_emit ("option:" ++ name o')
                    (match takes o' with OptionalValue => val | Boolean => None end)
                    cli c) as O.
      rewrite Em in O. destruct O as (W & _).
      destruct (findOption_some _ _ _ F) as (Hin' & F').
      destruct (emit_values _ _ _ _ _ _ _ S Hin' Em) as (V1 & V2).
      rewrite stored_passed in V2.
      rewrite (IH _ _ _ _ _ _ _ (sound_wiring _ _ W S)
                  (eq_ind_r (fun l => List.In o l) Hin (wiring_options _ _ W)) K).
      f_equal. destruct (is_flag o f) eqn:Fo.
      * destruct S as (U & _).
        rewrite (findOption_unique _ _ _ U Hin Fo) in F. injection F as <-.
        exact V2.
      * apply V1. intros Eq. destruct S as (U & _).
        assert (o' = o) by (eapply same_attribute; eassumption). subst o'.
        congruence.
    + rewrite (findOption_none _ _ _ F Hin).
      eapply IH; eassumption.
Qed.

Lemma resolve_omitted o argv : forall current,
  omitted o argv -> resolve o argv current = current.
Proof.
  induction argv as [|[f val] argv IH]; intros current H; [reflexivity|].
  inversion H as [|? ? Hf Hr]; subst. cbn [fst] in Hf. cbn [resolve].
  rewrite Hf. apply IH, Hr.
Qed.

Lemma resolve_app o pre post : forall current,
  resolve o (pre ++ post) current = resolve o post (resolve o pre current).
Proof.
  induction pre as [|[f val] pre IH]; intros current; [reflexivity|].
  cbn [app resolve]. apply IH.
Qed.

Lemma optionOption_negate n meta :
  negate (Registrar.optionOption n meta) = JS.startsWith "no-" n.
Proof.
  unfold negate. rewrite optionOption_long. reflexivity.
Qed.

End ValueFacts.

(** C7.  Take an entry [name: meta] of the options map of a descriptor
    with a [default], other than the reserved [sdk] and not a negation
    ([no-...]), and the node that the registrar wires from the
    descriptor on a blank node, its switches being unambiguous.  The
    node holds the declared default under the attribute of the option.
    After any command line that is parsed to the end: if no flag of the
    option occurs in it, the node still holds exactly the default; if
    the last occurrence of a flag of the option carries a value, the
    node holds that value, and if it carries none, [true]. *)
Theorem default_applies_unless_supplied
        (E : Env) (cmdName : string) (cmd : Commander.Command)
        (conf : Descriptor.conf) (os : list (string * Descriptor.Opt.t))
        (name : string) (meta : Descriptor.Opt.t) :
  blank cmd ->
  Descriptor.options conf = Some os ->
  In (name, meta) os ->
  name <> "sdk" ->
  JS.startsWith "no-" name = false ->
  JS.defined (Descriptor.Opt.default meta) = true ->
  let node := fst (Registrar.applyCommandConfig E cmdName cmd conf) in
  let o := Registrar.optionOption name meta in
  let key := Commander.attributeName o in
  unambiguous node = true ->
  Commander.is_flag o ("--" ++ name) = true
  /\ Commander.getOptionValue node key = Descriptor.Opt.default meta
  /\ forall argv cli cli' node' out unknown,
       Dispatch.parseOptions argv [] cli node = (cli', node', out, Normal unknown) ->
       (omitted o argv ->
        Commander.getOptionValue node' key = Descriptor.Opt.default meta)
       /\ (forall pre flag v post,
             argv = (pre ++ (flag, Some v) :: post)%list ->
             Commander.is_flag o flag = true -> omitted o post ->
             Commander.getOptionValue node' key = VStr v)
       /\ (forall pre flag post,
             argv = (pre ++ (flag, None) :: post)%list ->
             Commander.is_flag o flag = true -> omitted o post ->
             Commander.getOptionValue node' key = VBool true).
Proof.
  intros B O I N Neg D node o key U.
  destruct (option_registered E cmdName cmd conf os name meta O I N)
    as (Ir & Io & _).
  fold node o in Ir, Io.
  assert (Ng : Commander.negate o = false)
    by (unfold o; rewrite optionOption_negate; exact Neg).
  assert (Tk : Commander.takes o = Commander.OptionalValue)
    by apply optionOption_takes.
  assert (V0 : Commander.getOptionValue node key = Descriptor.Opt.default meta).
  { destruct (applyCommandConfig_extends E cmdName cmd conf) as (H1 & _ & _ & H4).
    fold node in H1, H4.
    rewrite (value_ext _ _ key H4).
    unfold key. rewrite addOptions_default; try assumption.
    - apply optionOption_default.
    - destruct B as (B1 & _). rewrite B1 in H1. cbn [app] in H1.
      unfold unambiguous in U. apply andb_prop in U as [_ U].
      rewrite H1 in U. apply distinct_NoDup, U.
    - unfold o. rewrite optionOption_default. exact D. }
  split; [apply optionOption_is_flag|]. split; [exact V0|].
  intros argv cli cli' node' out unknown P.
  assert (R : Commander.getOptionValue node' key
              = resolve o argv (Commander.getOptionValue node key))
    by exact (parse_values o argv _ _ _ _ _ _ _
                (registered_sound E cmdName cmd conf B U) Io P).
  rewrite V0 in R.
  split; [|split].
  - intros Om. rewrite R. apply resolve_omitted, Om.
  - intros pre flag v post -> F Om. rewrite R, resolve_app. cbn [resolve].
    rewrite F, resolve_omitted by exact Om. unfold stored. rewrite Tk. reflexivity.
  - intros pre flag post -> F Om. rewrite R, resolve_app. cbn [resolve].
    rewrite F, resolve_omitted by exact Om. unfold stored. rewrite Tk, Ng.
    reflexivity.
Qed.

(* ================================================================== *)
(** * The synthetic time stamp flag *)
(* ================================================================== *)

Section TimestampFacts.

Import Commander Dispatch.

Lemma get_existsb {A : Type} (os : list (string * A)) (k : string) :
  (match JS.get os k with Some _ => true | None => false end)
  = existsb (fun e => fst e =? k) os.
Proof.
  induction os as [|[k' a] os IH]; [reflexivity|].
  cbn [JS.get existsb fst]. destruct (k' =? k); [reflexivity | exact IH].
Qed.

Lemma wantsTimestamp_keys os :
  Registrar.wantsTimestamp os
  = hasKey (Some os) "log-level" && negb (hasKey (Some os) "timestamp").
Proof.
  unfold Registrar.wantsTimestamp, hasKey.
  rewrite <- !get_existsb.
  destruct (JS.get os "log-level"), (JS.get os "timestamp"); reflexivity.
Qed.

(** Whether the registrar adds the synthetic flag, on the maps. *)
Lemma synthetic_when conf :
  (hasKey (Descriptor.options conf) "log-level" = true
   /\ hasKey (Descriptor.options conf) "timestamp" = false ->
   syntheticOptions conf = [Registrar.timestampOption]
   /\ syntheticListeners conf = [("option:timestamp", EnableTimestamp)])
  /\ (hasKey (Descriptor.options conf) "log-level" = false
      \/ hasKey (Descriptor.options conf) "timestamp" = true ->
      syntheticOptions conf = [] /\ syntheticListeners conf = []).
Proof.
  unfold syntheticOptions, syntheticListeners.
  destruct (Descriptor.options conf) as [os|].
  - rewrite wantsTimestamp_keys. split.
    + intros (-> & ->). split; reflexivity.
    + intros [-> | ->]; rewrite ?andb_false_r; split; reflexivity.
  - split.
    + intros (X & _). discriminate.
    + intros _. split; reflexivity.
Qed.

Lemma registered_tolerant conf o : In o (registered conf) -> tolerant o.
Proof.
  unfold registered, flagOptions, optionOptions, syntheticOptions, tolerant.
  intros H. apply in_app_or in H as [H | H]; [|apply in_app_or in H as [H | H]].
  - destruct (Descriptor.flags conf) as [fs|]; [|contradiction].
    apply in_map_iff in H as (e & <- & _). right. apply flagOption_boolean.
  - destruct (Descriptor.options conf) as [os|]; [|contradiction].
    apply in_map_iff in H as (e & <- & _). left. apply optionOption_takes.
  - destruct (Descriptor.options conf) as [os|]; [|contradiction].
    destruct (Registrar.wantsTimestamp os); [|contradiction].
    destruct H as [<- | []]. right. reflexivity.
Qed.

Lemma handle_tolerant o cli c :
  tolerant o ->
  handleOptionValue o None cli c
  = (cli, setOptionValue c (attributeName o) (VBool (negb (negate o))), [], Normal tt).
Proof.
  unfold tolerant, handleOptionValue. intros [T | C].
  - rewrite T. reflexivity.
  - rewrite C. destruct (takes o); reflexivity.
Qed.

(** An event without a value whose handlers are tolerant ends
    normally; its time stamp listener, if it has one, enables the time
    stamps of the logger when the CLI is ready, and the logger is left
    as it is when the CLI is not. *)
Lemma notify_tolerant ls ev :
  (forall o, In (ev, StoreValue o) ls -> tolerant o) ->
  forall cli c,
    snd (notify ls ev None cli c) = Normal tt
    /\ (ready cli = false ->
        logger (fst (fst (fst (notify ls ev None cli c)))) = logger cli)
    /\ (In (ev, EnableTimestamp) ls -> ready cli = true ->
        Logger.priv_timestampEnabled
          (logger (fst (fst (fst (notify ls ev None cli c))))) = true).
Proof.
  induction ls as [|[e l] ls IH]; intros T cli c.
  - cbn. repeat split. intros [].
  - assert (T' : forall o, In (ev, StoreValue o) ls -> tolerant o)
      by (intros o X; apply T; right; exact X).
    cbn [notify]. destruct (e =? ev) eqn:Ev.
    + apply String.eqb_eq in Ev. subst e.
      destruct l as [o|].
      * cbn [runListener].
        rewrite (bind_normal _ _ _ _ _ _ _ _
                   (handle_tolerant o cli c (T o (or_introl eq_refl)))).
        cbn [fst snd].
        destruct (IH T' cli (setOptionValue c (attributeName o)
                                (VBool (negb (negate o))))) as (I1 & I2 & I3).
        split; [exact I1|]. split; [exact I2|].
        intros [X | X] R; [discriminate | apply I3; assumption].
      * cbn [runListener].
        assert (En : enableTimestamp cli c
                     = ((if ready cli
                         then set_logger cli
                                (fst (Logger.timestampEnabled (logger cli) (VBool true)))
                         else cli), c, [], Normal tt)) by reflexivity.
        rewrite (bind_normal _ _ _ _ _ _ _ _ En). cbn [fst snd].
        destruct (ready cli) eqn:R.
        -- pose proof (orderly_notify ls ev None
                         (set_logger cli
                            (fst (Logger.timestampEnabled (logger cli) (VBool true))))
                         c) as Ord.
           destruct (IH T' (set_logger cli
                              (fst (Logger.timestampEnabled (logger cli) (VBool true))))
                        c) as (I1 & _ & _).
           destruct (notify ls ev None _ c) as [[[cli2 c2] out2] r2].
           cbn [fst snd] in *. destruct Ord as (_ & _ & Mono & _).
           split; [exact I1|]. split; [discriminate|].
           intros _ _. apply Mono. reflexivity.
        -- destruct (IH T' cli c) as (I1 & I2 & _).
           split; [exact I1|]. split; [intros _; apply I2, R | discriminate].
    + destruct (IH T' cli c) as (I1 & I2 & I3).
      split; [exact I1|]. split; [exact I2|].
      intros [X | X] R; [|apply I3; assumption].
      injection X as -> _. rewrite String.eqb_refl in Ev. discriminate.
Qed.

End TimestampFacts.

(** C8.  When the options map of a descriptor has a [log-level] entry
    and no [timestamp] entry, the registrar registers, after the flags
    and options of the descriptor, the boolean flag [--timestamp] and a
    listener of its event.  On the node wired from a blank node, its
    switches being unambiguous, [--timestamp] on the command line is
    parsed normally and, when the CLI is ready, enables the time stamps
    of the logger, so that every line it renders from then on begins
    with the time stamp; when the CLI is not ready the logger is left
    as it is.  When the options map has a [timestamp] entry, or has no
    [log-level] entry, or is absent, the registrar adds neither the
    flag nor the listener. *)
Theorem timestamp_flag_is_synthesised
        (E : Env) (cmdName : string) (cmd : Commander.Command)
        (conf : Descriptor.conf) (cli : CLI) :
  let node := fst (Registrar.applyCommandConfig E cmdName cmd conf) in
  let declares := hasKey (Descriptor.options conf) in
  let declared := (flagOptions conf ++ optionOptions conf)%list in
  (declares "log-level" = true /\ declares "timestamp" = false ->
   Commander.options node
   = (Commander.options cmd ++ declared ++ [Registrar.timestampOption])%list
   /\ Commander.listeners node
      = (Commander.listeners cmd
         ++ map storeListener (declared ++ [Registrar.timestampOption])
         ++ [("option:timestamp", Commander.EnableTimestamp)])%list
   /\ Commander.takes Registrar.timestampOption = Commander.Boolean
   /\ Commander.name Registrar.timestampOption = "timestamp"
   /\ (blank cmd -> unambiguous node = true ->
       let result := Dispatch.parseOptions [("--timestamp", None)] [] cli node in
       let logger' := logger (fst (fst (fst result))) in
       snd result = Normal []
       /\ (ready cli = true ->
           Logger.priv_timestampEnabled logger' = true
           /\ forall now level out msg,
                Logger.ge level (Logger.priv_level logger') = true ->
                Logger.render E logger' now level out msg
                = [ Write out (toISOString E now ++ " - "); Write out msg ])
       /\ (ready cli = false -> logger' = logger cli)))
  /\ (declares "log-level" = false \/ declares "timestamp" = true ->
      Commander.options node = (Commander.options cmd ++ declared)%list
      /\ Commander.listeners node
         = (Commander.listeners cmd ++ map storeListener declared)%list).
Proof.
  intros node declares declared.
  destruct (applyCommandConfig_extends E cmdName cmd conf) as (H1 & H2 & _ & _).
  fold node in H1, H2. unfold registered in H1, H2.
  destruct (synthetic_when conf) as (Yes & No).
  split.
  - intros K. destruct (Yes K) as (So & Sl). rewrite So in H1, H2. rewrite Sl in H2.
    replace (flagOptions conf ++ optionOptions conf ++ [Registrar.timestampOption])%list
      with (declared ++ [Registrar.timestampOption])%list in H1, H2
      by (unfold declared; rewrite <- app_assoc; reflexivity).
    split; [exact H1|]. split; [exact H2|]. split; [reflexivity|].
    split; [reflexivity|].
    intros B U result logger'.
    pose proof (registered_sound E cmdName cmd conf B U) as (_ & L1 & _).
    fold node in L1.
    assert (Ht : In Registrar.timestampOption (Commander.options node)).
    { rewrite H1. apply in_or_app. right. apply in_or_app. right. left. reflexivity. }
    assert (F : Commander.findOption node "--timestamp"
                = Some Registrar.timestampOption)
      by (apply findOption_unique; [exact U | exact Ht | reflexivity]).
    assert (T : forall o, In ("option:timestamp", Commander.StoreValue o)
                             (Commander.listeners node) -> tolerant o).
    { intros o X. destruct (L1 _ _ X) as (_ & Io).
      apply registered_tolerant with (conf := conf).
      destruct (applyCommandConfig_extends E cmdName cmd conf) as (G1 & _).
      fold node in G1. destruct B as (B1 & _). rewrite B1 in G1.
      rewrite G1 in Io. exact Io. }
    destruct (notify_tolerant (Commander.listeners node) "option:timestamp" T cli node)
      as (N1 & N2 & N3).
    assert (Ie : In ("option:timestamp", Commander.EnableTimestamp)
                    (Commander.listeners node)).
    { rewrite H2. apply in_or_app. right. apply in_or_app. right. left. reflexivity. }
    assert (P : result
                = (fst (fst (fst (Dispatch.notify (Commander.listeners node)
                                    "option:timestamp" None cli node))),
                   snd (fst (fst (Dispatch.notify (Commander.listeners node)
                                    "option:timestamp" None cli node))),
                   (snd (fst (Dispatch.notify (Commander.listeners node)
                                "option:timestamp" None cli node)) ++ [])%list,
                   Normal [])).
    { subst result. cbn [Dispatch.parseOptions]. rewrite F.
      change ("option:" ++ Commander.name Registrar.timestampOption)
        with "option:timestamp".
      cbn [Commander.takes Registrar.timestampOption Commander.newOption].
      unfold Dispatch.bind, Dispatch.emit.
      destruct (Dispatch.notify (Commander.listeners node) "option:timestamp"
                                None cli node) as [[[cli1 c1] out1] r1].
      cbn [snd] in N1. subst r1. reflexivity. }
    subst logger'. rewrite P. cbn [fst snd].
    split; [reflexivity|]. split; [|exact N2].
    intros R. split; [apply N3; assumption|].
    intros now level out msg G. rewrite render_passes by exact G.
    rewrite (N3 Ie R). reflexivity.
  - intros K. destruct (No K) as (So & Sl). rewrite So in H1, H2. rewrite Sl in H2.
    repeat rewrite app_nil_r in H1. repeat rewrite app_nil_r in H2.
    split; assumption.
Qed.

(* ================================================================== *)
(** * The properties on concrete descriptors *)
(* ================================================================== *)

(** The usage error for [--output xml] on the [status] command. *)
Example status_rejects_xml :
  snd (Dispatch.parseCommand [("--output", Some "xml")] readyCli statusNode)
  = Throw (TiError
             ("option '-o, --output [value]' argument 'xml' is invalid. "
              ++ "Allowed choices are report, json." ++ lf)
             None None).
Proof. vm_compute. reflexivity. Qed.

(** A command line of the logging descriptor: the options are stored
    under their attributes, the hook of [log-level] hands the value to
    its callback, and then the command runs. *)
Example logging_runs :
  let result := Dispatch.parseCommand
                  [("--log-level", Some "trace"); ("-f", None)]
                  readyCli loggingNode in
  snd result = Normal tt
  /\ snd (fst result)
     = [ ConsoleLog "preAction build --log-level"; Invoke 0 (VStr "trace");
         ExecuteCommand "build" ]
  /\ Commander.optionValues (snd (fst (fst result)))
     = [ ("logLevel", VStr "trace"); ("force", VBool true) ].
Proof. vm_compute. repeat split. Qed.

(** The notes of the registrar for the logging descriptor. *)
Example logging_notes :
  snd (Registrar.applyCommandConfig plain "build"
         (Registrar.newSubcommand plain "build") loggingConf)
  = [ Trace ("Adding " ++ dq ++ "build" ++ dq ++ " flag: -f, --force");
      Trace ("Adding " ++ dq ++ "build" ++ dq ++ " option: --log-level [value]");
      Trace ("Skipping " ++ dq ++ "build" ++ dq ++ " option: --sdk");
      Trace ("Adding " ++ dq ++ "build" ++ dq ++ " option: --timestamp") ].
Proof. vm_compute. reflexivity. Qed.

(** On a new logger the first [banner()] renders; in a sequence of
    calls that silences the logger, raises its level and asks for the
    banner again, the banner is rendered once. *)
Lemma banner_renders_at_most_once_witness :
  snd (Logger.banner Logger.new)
  = [ Write Stdout ""; Write Stdout lf; Emit "cli:logger-banner" ]
  /\ banner_renders
       (snd (Logger.run plain Logger.new
               [ Logger.CBanner; Logger.CLog 0 (Some "hello") [];
                 Logger.CSilence; Logger.CSetLevel "trace";
                 Logger.CBannerEnabled (VBool true); Logger.CBanner ])) <= 1.
Proof.
  destruct (banner_renders_at_most_once plain Logger.new
              [ Logger.CBanner; Logger.CLog 0 (Some "hello") [];
                Logger.CSilence; Logger.CSetLevel "trace";
                Logger.CBannerEnabled (VBool true); Logger.CBanner ])
    as (H1 & _ & _ & _ & H5).
  split; [|exact H5].
  apply H1. unfold banner_gates. repeat split; reflexivity.
Defined.

(** A debug line with time stamps enabled at the threshold of
    [debug], and the same line at the initial threshold. *)
Lemma render_filters_by_level_witness :
  Logger.render plain
    (fst (Logger.timestampEnabled (Logger.setLevel Logger.new "debug") (VBool true)))
    0 2 Stdout "line"
  = [ Write Stdout "1970-01-01T00:00:00.000Z - "; Write Stdout "line" ]
  /\ Logger.render plain Logger.new 0 2 Stdout "line" = [].
Proof.
  destruct (render_filters_by_level plain
              (fst (Logger.timestampEnabled (Logger.setLevel Logger.new "debug")
                      (VBool true)))
              0 2 Stdout "line") as (_ & _ & _ & H & _).
  destruct (render_filters_by_level plain Logger.new 0 2 Stdout "line")
    as (_ & _ & _ & _ & _ & G).
  split; [apply H; reflexivity | apply G; reflexivity].
Defined.

(** The [sdk] option of the logging descriptor is skipped with its
    note. *)
Lemma sdk_option_is_skipped_witness :
  registers loggingNode "sdk" = false
  /\ In (Trace ("Skipping " ++ dq ++ "build" ++ dq ++ " option: --sdk"))
        (snd (Registrar.applyCommandConfig plain "build"
                (Registrar.newSubcommand plain "build") loggingConf)).
Proof.
  destruct (sdk_option_is_skipped plain "build"
              (Registrar.newSubcommand plain "build") loggingConf)
    as (H1 & _ & H3).
  split; [exact H1 | apply H3; reflexivity].
Defined.

(** [--output xml] on the node of the [status] command: a [TiError],
    the node in [cli.command], and nothing run. *)
Lemma invalid_choice_is_refused_witness :
  (exists msg,
      snd (Dispatch.parseCommand [("--output", Some "xml")] readyCli statusNode)
      = Throw (TiError msg None None))
  /\ command (fst (fst (fst (Dispatch.parseCommand [("--output", Some "xml")]
                               readyCli statusNode))))
     = Some (snd (fst (fst (Dispatch.parseCommand [("--output", Some "xml")]
                              readyCli statusNode))))
  /\ snd (fst (Dispatch.parseCommand [("--output", Some "xml")] readyCli statusNode))
     = [].
Proof.
  assert (N : ~ In "xml" ["report"; "json"]).
  { intros [H | [H | []]]; discriminate. }
  assert (S : "output" <> "sdk") by discriminate.
  destruct (invalid_choice_is_refused plain "status"
              (Registrar.newSubcommand plain "status") statusConf
              _ "output" _ ["report"; "json"] "--output" "xml"
              [("--output", Some "xml")] readyCli
              eq_refl (or_introl eq_refl) S eq_refl N eq_refl eq_refl
              (or_introl eq_refl))
    as (_ & _ & _ & _ & H & _).
  destruct (H eq_refl) as (H1 & H2).
  split; [exact H1|]. split; [exact H2 | reflexivity].
Defined.

(** The [output] option of the [status] command: [report] after
    registration and after an empty command line, [json] after
    [-o json]. *)
Lemma default_applies_unless_supplied_witness :
  Commander.getOptionValue statusNode "output" = VStr "report"
  /\ Commander.getOptionValue
       (snd (fst (fst (Dispatch.parseOptions [] [] readyCli statusNode))))
       "output" = VStr "report"
  /\ Commander.getOptionValue
       (snd (fst (fst (Dispatch.parseOptions [("-o", Some "json")] []
                         readyCli statusNode))))
       "output" = VStr "json".
Proof.
  assert (S : "output" <> "sdk") by discriminate.
  assert (B : blank (Registrar.newSubcommand plain "status"))
    by (repeat split; reflexivity).
  destruct (default_applies_unless_supplied plain "status"
              (Registrar.newSubcommand plain "status") statusConf
              _ "output" _ B eq_refl (or_introl eq_refl) S eq_refl eq_refl eq_refl)
    as (_ & H0 & H).
  split; [exact H0|]. split.
  - set (X := Dispatch.parseOptions [] [] readyCli statusNode).
    assert (P : X = (fst (fst (fst X)), snd (fst (fst X)), snd (fst X), Normal []))
      by (vm_compute; reflexivity).
    destruct (H [] readyCli _ _ _ _ P) as (A & _).
    apply A. constructor.
  - set (X := Dispatch.parseOptions [("-o", Some "json")] [] readyCli statusNode).
    assert (P : X = (fst (fst (fst X)), snd (fst (fst X)), snd (fst X), Normal []))
      by (vm_compute; reflexivity).
    destruct (H [("-o", Some "json")] readyCli _ _ _ _ P) as (_ & A & _).
    apply (A [] "-o" "json" []); [reflexivity | vm_compute; reflexivity | constructor].
Defined.

(** The logging descriptor gets the [--timestamp] flag, which enables
    the time stamps of the logger; the [status] descriptor gets none. *)
Lemma timestamp_flag_is_synthesised_witness :
  registers loggingNode "timestamp" = true
  /\ Logger.priv_timestampEnabled
       (logger (fst (fst (fst (Dispatch.parseOptions [("--timestamp", None)] []
                                 readyCli loggingNode))))) = true
  /\ registers statusNode "timestamp" = false.
Proof.
  destruct (timestamp_flag_is_synthesised plain "build"
              (Registrar.newSubcommand plain "build") loggingConf readyCli)
    as (H & _).
  destruct (H (conj eq_refl eq_refl)) as (_ & _ & _ & _ & R).
  assert (B : blank (Registrar.newSubcommand plain "build"))
    by (repeat split; reflexivity).
  destruct (R B eq_refl) as (_ & R1 & _).
  split; [reflexivity|]. split; [apply R1; reflexivity | reflexivity].
Defined.

(** A [TiError] with a [before] block on a CLI that has its root
    command: the banner, the report and the help of the root command,
    and status 0. *)
Lemma handler_reports_failure_witness :
  snd (fst (Main.handler plain rootCli (TiError "SDK not found" (Some "Oops") None)))
  = [ Write Stdout ""; Write Stdout lf; Emit "cli:logger-banner";
      ConsoleError ("Oops" ++ lf ++ lf ++ "Error: SDK not found" ++ lf);
      HelpText "titanium" ]
  /\ snd (Main.handler plain rootCli (TiError "SDK not found" (Some "Oops") None))
     = 0%Z.
Proof.
  destruct (handler_reports_failure plain rootCli
              (TiError "SDK not found" (Some "Oops") None)) as (H1 & H2 & _).
  split; [exact H1 | exact H2].
Defined.

(* ================================================================== *)
(** * Further properties of the Logger *)
(* ================================================================== *)

Section MoreLoggerFacts.

Variable E : Env.

Lemma step_settings (s : Logger.t) (c : Logger.call) :
  let s1 := fst (Logger.step E s c) in
  Logger.priv_bannerEnabled s1
  = lastFlag toBannerEnabled [c] (Logger.priv_bannerEnabled s)
  /\ Logger.priv_skipBanner s1
     = lastFlag toSkipBanner [c] (Logger.priv_skipBanner s)
  /\ Logger.priv_timestampEnabled s1
     = lastFlag toTimestampEnabled [c] (Logger.priv_timestampEnabled s)
  /\ Logger.priv_level s1 = lastLevel [c] (Logger.priv_level s)
  /\ Logger.priv_banner s1 = lastBanner E [c] (Logger.priv_banner s).
Proof.
  destruct c; cbn; try (repeat split; reflexivity).
  - unfold Logger.banner. destruct (Logger.banner_due s); repeat split.
  - destruct (JS.defined b); repeat split.
  - destruct (JS.defined b); repeat split.
  - destruct (JS.defined b); repeat split.
Qed.

Lemma run_settings (cs : list Logger.call) : forall s,
  let s1 := fst (Logger.run E s cs) in
  Logger.priv_bannerEnabled s1
  = lastFlag toBannerEnabled cs (Logger.priv_bannerEnabled s)
  /\ Logger.priv_skipBanner s1
     = lastFlag toSkipBanner cs (Logger.priv_skipBanner s)
  /\ Logger.priv_timestampEnabled s1
     = lastFlag toTimestampEnabled cs (Logger.priv_timestampEnabled s)
  /\ Logger.priv_level s1 = lastLevel cs (Logger.priv_level s)
  /\ Logger.priv_banner s1 = lastBanner E cs (Logger.priv_banner s).
Proof.
  induction cs as [|c cs IH]; intros s; cbn zeta.
  - repeat split.
  - rewrite run_cons. cbn [fst].
    destruct (step_settings s c) as (A1 & A2 & A3 & A4 & A5).
    destruct (IH (fst (Logger.step E s c))) as (B1 & B2 & B3 & B4 & B5).
    cbn zeta in *.
    rewrite B1, B2, B3, B4, B5, A1, A2, A3, A4, A5. repeat split.
Qed.

End MoreLoggerFacts.


(** X1.  Each setting of the logger holds what its last setter gave it,
    over any sequence of calls from any state: [bannerEnabled()],
    [skipBanner()] and [timestampEnabled()] return the truthiness of
    the last argument other than [undefined] that the accessor was
    called with (the flag before, if there was none), the threshold is
    that of the last [setLevel] or [silence], and [getBanner()] returns
    the text composed by the last [setBanner]; no other call, [banner()]
    included, changes any of them.  An accessor called without an
    argument leaves the logger as it is, and a flag that was written is
    read back. *)
Theorem settings_hold_last_write
        (E : Env) (s : Logger.t) (cs : list Logger.call) (b : value) :
  let s1 := fst (Logger.run E s cs) in
  snd (Logger.bannerEnabled s1 VUndefined)
  = lastFlag toBannerEnabled cs (snd (Logger.bannerEnabled s VUndefined))
  /\ snd (Logger.skipBanner s1 VUndefined)
     = lastFlag toSkipBanner cs (snd (Logger.skipBanner s VUndefined))
  /\ snd (Logger.timestampEnabled s1 VUndefined)
     = lastFlag toTimestampEnabled cs (snd (Logger.timestampEnabled s VUndefined))
  /\ Logger.priv_level s1 = lastLevel cs (Logger.priv_level s)
  /\ Logger.getBanner s1 = lastBanner E cs (Logger.getBanner s)
  /\ fst (Logger.bannerEnabled s VUndefined) = s
  /\ fst (Logger.skipBanner s VUndefined) = s
  /\ fst (Logger.timestampEnabled s VUndefined) = s
  /\ (JS.defined b = true ->
      snd (Logger.bannerEnabled (fst (Logger.bannerEnabled s b)) VUndefined)
      = JS.truthy b
      /\ snd (Logger.skipBanner (fst (Logger.skipBanner s b)) VUndefined)
         = JS.truthy b
      /\ snd (Logger.timestampEnabled (fst (Logger.timestampEnabled s b)) VUndefined)
         = JS.truthy b).
Proof.
  cbn zeta. destruct (run_settings E cs s) as (A1 & A2 & A3 & A4 & A5).
  cbn zeta in *.
  repeat match goal with |- _ /\ _ => split end; try assumption; try reflexivity.
  intros D. unfold Logger.bannerEnabled, Logger.skipBanner, Logger.timestampEnabled.
  rewrite D. cbn. repeat split.
Qed.

Lemma ge_lower (level a b : Z) :
  (a <= b)%Z -> Logger.ge level (Logger.Num b) = true ->
  Logger.ge level (Logger.Num a) = true.
Proof.
  cbn. intros H G. apply Z.leb_le in G. apply Z.leb_le. lia.
Qed.

Lemma render_lower (E : Env) (s1 s2 : Logger.t) (a b : Z) now level out msg :
  Logger.priv_level s1 = Logger.Num a ->
  Logger.priv_level s2 = Logger.Num b ->
  (a <= b)%Z ->
  Logger.priv_timestampEnabled s1 = Logger.priv_timestampEnabled s2 ->
  Logger.render E s2 now level out msg <> [] ->
  Logger.render E s1 now level out msg = Logger.render E s2 now level out msg.
Proof.
  intros L1 L2 H T W. unfold Logger.render in *. rewrite L1, L2, T in *.
  destruct (Logger.ge level (Logger.Num b)) eqn:G; [|contradiction].
  rewrite (ge_lower level a b H G). reflexivity.
Qed.

(** X2.  Lowering the threshold never hides a message: between two
    loggers that differ only in their numeric thresholds, whatever a
    call of [log], [trace], [debug], [error], [info], [warn] or
    [render] writes at the higher threshold, it writes the same at the
    lower one. *)
Theorem lower_threshold_shows_more
        (E : Env) (s1 s2 : Logger.t) (a b : Z) :
  Logger.priv_level s1 = Logger.Num a ->
  Logger.priv_level s2 = Logger.Num b ->
  (a <= b)%Z ->
  Logger.priv_timestampEnabled s1 = Logger.priv_timestampEnabled s2 ->
  (forall c, Logger.output_call c = true -> writes E s2 c = true ->
             snd (Logger.step E s1 c) = snd (Logger.step E s2 c))
  /\ (forall now level out msg,
        Logger.render E s2 now level out msg <> [] ->
        Logger.render E s1 now level out msg
        = Logger.render E s2 now level out msg).
Proof.
  intros L1 L2 H T. split.
  - intros c O W. unfold writes in W.
    destruct c; try discriminate O; cbn [Logger.step snd] in *;
      unfold Logger.log, Logger.trace, Logger.debug, Logger.error,
        Logger.info, Logger.warn in *;
      (apply (render_lower E s1 s2 a b); try assumption;
       intros X; rewrite X in W; discriminate).
  - intros now level out msg W.
    apply (render_lower E s1 s2 a b); assumption.
Qed.

Lemma get_keys {A : Type} (o : list (string * A)) (k : string) (a : A) :
  JS.get o k = Some a -> In k (JS.keys o).
Proof.
  induction o as [|[k' a'] o IH]; cbn; [discriminate|].
  destruct (k' =? k) eqn:K.
  - intros _. left. apply String.eqb_eq. exact K.
  - intros H. right. apply IH, H.
Qed.

Lemma unknown_level_blocks (name : string) (level : Z) :
  ~ In name Logger.getLevels ->
  Logger.ge level (Logger.levels_get name) = false.
Proof.
  intros N. unfold Logger.levels_get.
  destruct (JS.get Logger.levels name) as [n|] eqn:G.
  - exfalso. apply N. apply (get_keys _ _ _ G).
  - destruct (existsb _ _); reflexivity.
Qed.

(** X3.  [setLevel(name)] looks the name up in the table of levels.
    For each of the five names that [getLevels()] returns, the
    threshold becomes the positive number of the table.  For any other
    name the threshold is not a number, and from then on no call of
    [log], [trace], [debug], [error], [info], [warn] or [render] writes
    anything, whatever its level; if moreover the name is not one that
    every object inherits, [banner()] renders nothing either. *)
Theorem unknown_level_name_mutes (E : Env) (s : Logger.t) (name : string) :
  (In name Logger.getLevels ->
   exists n, JS.get Logger.levels name = Some n
             /\ Logger.priv_level (Logger.setLevel s name) = Logger.Num n
             /\ (0 < n)%Z)
  /\ (~ In name Logger.getLevels ->
      (forall now level out msg,
          Logger.render E (Logger.setLevel s name) now level out msg = [])
      /\ (forall c, Logger.output_call c = true ->
                    Logger.step E (Logger.setLevel s name) c
                    = (Logger.setLevel s name, []))
      /\ (existsb (String.eqb name) Logger.objectPrototype = false ->
          Logger.banner (Logger.setLevel s name) = (Logger.setLevel s name, [])))
  /\ Logger.getLevels = ["trace"; "debug"; "info"; "warn"; "error"].
Proof.
  split; [|split; [|reflexivity]].
  - intros H. cbn in H.
    destruct H as [<-|[<-|[<-|[<-|[<-|[]]]]]];
      eexists; (split; [reflexivity|split; [reflexivity|lia]]).
  - intros N.
    assert (R : forall now level out msg,
               Logger.render E (Logger.setLevel s name) now level out msg = []).
    { intros. apply render_blocked. cbn [Logger.setLevel Logger.priv_level].
      apply unknown_level_blocks, N. }
    split; [exact R|]. split.
    + intros c O. destruct c; try discriminate O; cbn [Logger.step];
        unfold Logger.log, Logger.trace, Logger.debug, Logger.error,
          Logger.info, Logger.warn; rewrite R; reflexivity.
    + intros P. unfold Logger.banner, Logger.banner_due.
      cbn [Logger.setLevel Logger.priv_level]. unfold Logger.levels_get.
      destruct (JS.get Logger.levels name) as [n|] eqn:G.
      * exfalso. apply N. apply (get_keys _ _ _ G).
      * rewrite P. cbn [Logger.level_truthy].
        rewrite andb_false_r. reflexivity.
Qed.

Lemma step_rendered (E : Env) (s : Logger.t) (c : Logger.call) :
  Logger.priv_bannerRendered (fst (Logger.step E s c))
  = Logger.priv_bannerRendered s
    || (0 <? banner_renders (snd (Logger.step E s c)))%nat.
Proof.
  destruct c; cbn [Logger.step fst snd];
    unfold Logger.log, Logger.trace, Logger.debug, Logger.error,
      Logger.info, Logger.warn;
    try rewrite render_no_notice;
    try (cbn; rewrite orb_false_r; reflexivity).
  - unfold Logger.banner. destruct (Logger.banner_due s) eqn:D; cbn.
    + rewrite orb_true_r. reflexivity.
    + rewrite orb_false_r. reflexivity.
  - unfold Logger.bannerEnabled.
    destruct (JS.defined b); cbn; rewrite orb_false_r; reflexivity.
  - unfold Logger.skipBanner.
    destruct (JS.defined b); cbn; rewrite orb_false_r; reflexivity.
  - unfold Logger.timestampEnabled.
    destruct (JS.defined b); cbn; rewrite orb_false_r; reflexivity.
Qed.

Lemma run_rendered (E : Env) (cs : list Logger.call) : forall s,
  Logger.priv_bannerRendered (fst (Logger.run E s cs))
  = Logger.priv_bannerRendered s
    || (0 <? banner_renders (snd (Logger.run E s cs)))%nat.
Proof.
  induction cs as [|c cs IH]; intros s.
  - cbn. rewrite orb_false_r. reflexivity.
  - rewrite run_cons. cbn [fst snd].
    rewrite IH, step_rendered, banner_renders_app, <- orb_assoc. f_equal.
    destruct (banner_renders (snd (Logger.step E s c)));
      destruct (banner_renders (snd (Logger.run E _ cs))); reflexivity.
Qed.

(** X4.  [bannerWasRendered()] tells exactly whether the banner was
    rendered: after any sequence of calls it is true if and only if it
    was true before or the sequence emitted [cli:logger-banner]; so on
    a new logger it is true exactly when the banner was rendered, once,
    and false exactly when it never was. *)
Theorem rendered_flag_tracks_notice
        (E : Env) (s : Logger.t) (cs : list Logger.call) :
  Logger.bannerWasRendered (fst (Logger.run E s cs))
  = Logger.bannerWasRendered s
    || (0 <? banner_renders (snd (Logger.run E s cs)))%nat
  /\ (Logger.bannerWasRendered (fst (Logger.run E Logger.new cs)) = true
      <-> banner_renders (snd (Logger.run E Logger.new cs)) = 1)
  /\ (Logger.bannerWasRendered (fst (Logger.run E Logger.new cs)) = false
      <-> banner_renders (snd (Logger.run E Logger.new cs)) = 0).
Proof.
  unfold Logger.bannerWasRendered.
  split; [apply run_rendered|].
  rewrite (run_rendered E cs Logger.new). cbn [Logger.new Logger.priv_bannerRendered orb].
  pose proof (run_renders_once E cs Logger.new) as B.
  destruct (banner_renders (snd (Logger.run E Logger.new cs))) as [|[|n]];
    cbn; split; split; intros; try reflexivity; try discriminate; lia.
Qed.

(** X5.  What each call writes at each named threshold, for [log],
    [trace], [debug], [error], [info] and [warn] in this order: at
    [trace] all six write; at [debug] all but [trace]; at [info], the
    threshold of a new logger, all but [trace] and [debug]; at [warn]
    only [log], [info] and [warn] write, [error] does not; at [error]
    none of the six writes. *)
Theorem named_levels_visibility
        (E : Env) (s : Logger.t) (now : Z) (msg : option string)
        (args : list value) :
  let shown name :=
    map (writes E (Logger.setLevel s name)) (outputCalls now msg args) in
  shown "trace" = [true; true; true; true; true; true]
  /\ shown "debug" = [true; false; true; true; true; true]
  /\ shown "info" = [true; false; false; true; true; true]
  /\ shown "warn" = [true; false; false; false; true; true]
  /\ shown "error" = [false; false; false; false; false; false]
  /\ map (writes E Logger.new) (outputCalls now msg args) = shown "info".
Proof.
  cbn zeta. unfold outputCalls, writes. cbn [map Logger.step snd].
  unfold Logger.log, Logger.trace, Logger.debug, Logger.error, Logger.info,
    Logger.warn, Logger.render.
  cbn. destruct (Logger.priv_timestampEnabled s); cbn; repeat split.
Qed.

(* ================================================================== *)
(** * The screen of the CLI settings *)
(* ================================================================== *)

Lemma indexOf_absent (xs : list string) (x : string) :
  ~ In x xs -> Setup.indexOf xs x = (-1)%Z.
Proof.
  induction xs as [|y xs IH]; intros N; [reflexivity|].
  cbn [Setup.indexOf]. destruct (y =? x) eqn:Y.
  - exfalso. apply N. left. apply String.eqb_eq. exact Y.
  - rewrite IH by (intros H; apply N; right; exact H). reflexivity.
Qed.

(** X6.  The screen of the CLI settings offers the levels of the logger
    from [error] down to [trace].  The entry selected at first is the
    position of the configured level in that list, that of [info] when
    none is configured, and -1 when the configured level is not a level
    of the logger.  Once the prompt has answered, the screen sets the
    threshold of the logger, stores the five answers, saves the
    configuration and logs its confirmation, in this order.  Every
    level it offers gives the logger a positive numeric threshold; but
    the confirmation is only written when the chosen level is not
    [error], and it is not written when the prompt returned no level. *)
Theorem cli_screen_levels
        (E : Env) (s : Logger.t) (now : Z) (values : Setup.answers) :
  let stores :=
    [ Setup.ConfigSet "cli.colors" (Setup.colors values);
      Setup.ConfigSet "cli.prompt" (Setup.prompt values);
      Setup.ConfigSet "cli.progressBars" (Setup.progressBars values);
      Setup.ConfigSet "cli.logLevel" (Setup.logLevel values);
      Setup.ConfigSet "cli.width" (Setup.width values);
      Setup.ConfigSave ] in
  let saved :=
    Setup.Logged
      (Write Stdout (format E (lf ++ "Configuration saved!") [] ++ lf)) in
  Setup.logLevels = ["error"; "warn"; "info"; "debug"; "trace"]
  /\ Setup.initialLevel None = 2%Z
  /\ (forall l, In l Setup.logLevels ->
        exists i, Setup.initialLevel (Some l) = Z.of_nat i
                  /\ nth_error Setup.logLevels i = Some l)
  /\ (forall l, ~ In l Setup.logLevels -> Setup.initialLevel (Some l) = (-1)%Z)
  /\ firstn 6 (snd (Setup.cliScreen E s now values)) = stores
  /\ (forall l, In l Setup.logLevels -> Setup.logLevel values = VStr l ->
        (exists n, Logger.priv_level (fst (Setup.cliScreen E s now values))
                   = Logger.Num n /\ (0 < n)%Z)
        /\ (l <> "error" -> In saved (snd (Setup.cliScreen E s now values))
                            /\ last (snd (Setup.cliScreen E s now values)) Setup.ConfigSave
                               = saved)
        /\ (l = "error" -> snd (Setup.cliScreen E s now values) = stores))
  /\ (Setup.logLevel values = VUndefined ->
      snd (Setup.cliScreen E s now values) = stores).
Proof.
  cbn zeta.
  split; [reflexivity|]. split; [reflexivity|]. split.
  { intros l H. cbn in H.
    destruct H as [<-|[<-|[<-|[<-|[<-|[]]]]]];
      [exists 0%nat | exists 1%nat | exists 2%nat | exists 3%nat | exists 4%nat];
      split; reflexivity. }
  split; [intros l N; apply indexOf_absent, N|].
  split; [reflexivity|]. split.
  - intros l H V. unfold Setup.cliScreen. rewrite V.
    cbn [Dispatch.toPropertyKey fst snd].
    cbn in H.
    destruct H as [<-|[<-|[<-|[<-|[<-|[]]]]]];
      (split; [eexists; split; [reflexivity|lia]|]);
      (split; [intros N | intros X; try discriminate X]);
      try (exfalso; apply N; reflexivity);
      unfold Logger.log, Logger.render; cbn;
      destruct (Logger.priv_timestampEnabled s); cbn; try reflexivity;
      split; auto 20.
  - intros V. unfold Setup.cliScreen. rewrite V. reflexivity.
Qed.

(* ================================================================== *)
(** * Further properties of the registrar *)
(* ================================================================== *)

Lemma applyOwn_stages cn cmd conf :
  Registrar.applyOwn cn cmd conf
  = withArgs cn conf
      (withOptions cn conf
         (withFlags cn conf (withAlias (withTitle cmd conf) conf, []))).
Proof.
  unfold Registrar.applyOwn, withArgs, withOptions, withFlags, withAlias,
    withTitle.
  destruct (Descriptor.flags conf); reflexivity.
Qed.

(** What a property of a node that the steps of the registrar do not
    write goes through. *)
Section Projections.

Import Commander.

Context {T : Type} (p : Command -> T).

Hypothesis p_options : forall c x, p (set_options c x) = p c.
Hypothesis p_values : forall c x, p (set_optionValues c x) = p c.
Hypothesis p_listeners : forall c x, p (set_listeners c x) = p c.
Hypothesis p_hooks : forall c x, p (set_preActionHooks c x) = p c.
Hypothesis p_args : forall c x, p (set_registeredArguments c x) = p c.
Hypothesis p_title : forall c x, p (set_cmd_title c x) = p c.
Hypothesis p_aliases : forall c x, p (set_aliases c x) = p c.
Hypothesis p_commands : forall c x, p (set_commands c x) = p c.
Hypothesis p_default : forall c x, p (set_defaultCommandName c x) = p c.

Lemma proj_addOption c o : p (addOption c o) = p c.
Proof.
  unfold addOption, setOptionValue.
  destruct (negate o); [destruct (findOption _ _)|destruct (JS.defined _)];
    rewrite ?p_listeners, ?p_values, ?p_options; reflexivity.
Qed.

Lemma proj_withFlags cn conf acc :
  p (fst (withFlags cn conf acc)) = p (fst acc).
Proof.
  unfold withFlags. destruct (Descriptor.flags conf) as [fs|]; [|reflexivity].
  revert acc. induction fs as [|[n meta] fs IH]; intros [c notes]; [reflexivity|].
  cbn [fold_left]. rewrite IH. cbn [Registrar.applyFlag fst].
  apply proj_addOption.
Qed.

Lemma proj_applyTimestamp cn os acc :
  p (fst (Registrar.applyTimestamp cn os acc)) = p (fst acc).
Proof.
  destruct acc as [c notes]. unfold Registrar.applyTimestamp.
  destruct (Registrar.wantsTimestamp os); [|reflexivity].
  cbn [fst]. unfold on. rewrite p_listeners. apply proj_addOption.
Qed.

Lemma proj_withOptions cn conf acc :
  p (fst (withOptions cn conf acc)) = p (fst acc).
Proof.
  unfold withOptions. destruct (Descriptor.options conf) as [os|]; [|reflexivity].
  rewrite proj_applyTimestamp.
  revert acc. induction os as [|[n meta] os IH]; intros [c notes]; [reflexivity|].
  cbn [fold_left]. rewrite IH. cbn [Registrar.applyOption].
  destruct (n =? Registrar.sdk); [reflexivity|].
  destruct (Registrar.wantsHook n meta); cbn [fst]; unfold hook;
    rewrite ?p_hooks; apply proj_addOption.
Qed.

Lemma proj_withArgs cn conf acc :
  p (fst (withArgs cn conf acc)) = p (fst acc).
Proof.
  unfold withArgs. destruct (Descriptor.args conf) as [args|]; [|reflexivity].
  revert acc. induction args as [|a args IH]; intros [c notes]; [reflexivity|].
  cbn [fold_left]. rewrite IH. cbn [Registrar.applyArg fst].
  unfold addArgument. apply p_args.
Qed.

Lemma proj_withTitle cmd conf : p (withTitle cmd conf) = p cmd.
Proof.
  unfold withTitle. destruct (JS.truthy_str _); [apply p_title | reflexivity].
Qed.

Lemma proj_withAlias cmd conf : p (withAlias cmd conf) = p cmd.
Proof.
  unfold withAlias. destruct (Descriptor.alias conf) as [a|]; [|reflexivity].
  destruct (a =? ""); [reflexivity | apply p_aliases].
Qed.

Lemma proj_attach cn conf acc n subconf applied :
  p (fst (Registrar.attach cn conf acc n subconf applied)) = p (fst acc).
Proof.
  destruct acc as [c notes], applied as [sc sn].
  unfold Registrar.attach, addCommand. cbn [fst].
  destruct (match Descriptor.defaultSubcommand conf with
            | Some d => d =? n | None => false end);
    rewrite p_commands, ?p_default; reflexivity.
Qed.

Lemma proj_subcommands (E : Env) cn cmd conf :
  p (fst (Registrar.applyCommandConfig E cn cmd conf))
  = p (fst (Registrar.applyOwn cn cmd conf)).
Proof.
  destruct conf as [ti al fl op ar su ds pl hi].
  cbn [Registrar.applyCommandConfig Descriptor.subcommands].
  destruct su as [subs|]; [|reflexivity].
  set (conf := Descriptor.Conf ti al fl op ar (Some subs) ds pl hi).
  generalize (Registrar.applyOwn cn cmd conf). clearbody conf.
  induction subs as [|[n subconf] subs IH]; intros acc; [reflexivity|].
  rewrite IH. apply proj_attach.
Qed.

End Projections.

Section MoreRegistrarFacts.

Import Commander.

Variable E : Env.

Lemma hooks_withOptions cn conf acc :
  preActionHooks (fst (withOptions cn conf acc))
  = (preActionHooks (fst acc) ++ hooksOf conf)%list.
Proof.
  unfold withOptions, hooksOf.
  destruct (Descriptor.options conf) as [os|]; [|rewrite app_nil_r; reflexivity].
  rewrite (proj_applyTimestamp preActionHooks) by reflexivity.
  revert acc. induction os as [|[n meta] os IH]; intros [c notes].
  - cbn. rewrite app_nil_r. reflexivity.
  - cbn [fold_left]. rewrite IH. cbn [Registrar.applyOption keptOptions filter fst].
    destruct (n =? Registrar.sdk); cbn [negb fst]; [reflexivity|].
    cbn [filter fst snd].
    destruct (Registrar.wantsHook n meta); cbn [fst map].
    + cbn [hook preActionHooks set_preActionHooks].
      rewrite (proj_addOption preActionHooks) by reflexivity.
      rewrite <- app_assoc. reflexivity.
    + rewrite (proj_addOption preActionHooks) by reflexivity. reflexivity.
Qed.


End MoreRegistrarFacts.


Section RegistrarSummary.

Import Commander.

Variable E : Env.



Lemma own_hooks cn cmd conf :
  preActionHooks (fst (Registrar.applyOwn cn cmd conf))
  = (preActionHooks cmd ++ hooksOf conf)%list.
Proof.
  rewrite applyOwn_stages.
  rewrite (proj_withArgs preActionHooks) by reflexivity.
  rewrite hooks_withOptions.
  rewrite (proj_withFlags preActionHooks) by reflexivity.
  cbn [fst].
  rewrite (proj_withAlias preActionHooks), (proj_withTitle preActionHooks)
    by reflexivity.
  reflexivity.
Qed.



Lemma own_default cn cmd conf :
  defaultCommandName (fst (Registrar.applyOwn cn cmd conf))
  = defaultCommandName cmd.
Proof.
  rewrite applyOwn_stages.
  rewrite (proj_withArgs defaultCommandName),
    (proj_withOptions defaultCommandName),
    (proj_withFlags defaultCommandName) by reflexivity.
  cbn [fst].
  rewrite (proj_withAlias defaultCommandName),
    (proj_withTitle defaultCommandName) by reflexivity.
  reflexivity.
Qed.

(** The children of the node after the call, whether the descriptor
    has subcommands or not. *)
Lemma children_of_node cn cmd conf :
  commands (fst (Registrar.applyCommandConfig E cn cmd conf))
  = (commands cmd
     ++ match Descriptor.subcommands conf with
        | Some subs => map (fun e => childOf E cmd (fst e) (snd e)) subs
        | None => []
        end)%list.
Proof.
  destruct (Descriptor.subcommands conf) as [subs|] eqn:S.
  - apply applyCommandConfig_children, S.
  - rewrite app_nil_r.
    destruct conf as [ti al fl op ar su ds pl hi].
    cbn [Descriptor.subcommands] in S. subst su.
    cbn [Registrar.applyCommandConfig Descriptor.subcommands].
    exact (f_equal fst (applyOwn_lineage cn cmd _)).
Qed.

(** The name of a child is the key of its entry. *)
Lemma child_name parent n subconf : cmd_name (childOf E parent n subconf) = n.
Proof.
  destruct (childOf_wired E parent n subconf) as (Sh & _).
  pose proof (f_equal (fun w => fst (fst (fst (fst (snd (fst w)))))) Sh) as X.
  cbn [fst snd shape settings] in X. rewrite X.
  destruct (applyCommandConfig_extends E n (Registrar.newSubcommand E n) subconf)
    as (_ & _ & St & _).
  pose proof (f_equal (fun w => fst (fst (fst (fst w)))) St) as Y.
  cbn [fst settings] in Y. exact Y.
Qed.

Lemma default_loop cn conf subs : forall acc,
  defaultCommandName
    (fst ((fix each (subs : list (string * Descriptor.conf))
               (acc : Command * list effect) {struct subs}
           : Command * list effect :=
             match subs with
             | [] => acc
             | (name, subconf) :: rest =>
                 each rest
                   (Registrar.attach cn conf acc name subconf
                      (Registrar.applyCommandConfig E name
                         (Registrar.newSubcommand E name) subconf))
             end) subs acc))
  = match Descriptor.defaultSubcommand conf with
    | Some d =>
        if existsb (String.eqb d) (map fst subs) then Some d
        else defaultCommandName (fst acc)
    | None => defaultCommandName (fst acc)
    end.
Proof.
  induction subs as [|[n subconf] subs IH]; intros acc.
  - destruct (Descriptor.defaultSubcommand conf); reflexivity.
  - rewrite IH. clear IH.
    destruct acc as [c notes].
    destruct (Registrar.applyCommandConfig E n (Registrar.newSubcommand E n) subconf)
      as [sc sn] eqn:A.
    assert (N : cmd_name sc = n).
    { destruct (applyCommandConfig_extends E n (Registrar.newSubcommand E n) subconf)
        as (_ & _ & St & _).
      rewrite A in St. cbn [fst] in St.
      pose proof (f_equal (fun w => fst (fst (fst (fst w)))) St) as Y.
      cbn [fst settings] in Y. exact Y. }
    unfold Registrar.attach, addCommand. cbn [fst map existsb].
    destruct (Descriptor.defaultSubcommand conf) as [d|]; [|reflexivity].
    destruct (d =? n) eqn:D; cbn [orb].
    + apply String.eqb_eq in D. subst d.
      destruct (existsb (String.eqb n) (map fst subs)); [reflexivity|].
      cbn. rewrite N. reflexivity.
    + reflexivity.
Qed.

End RegistrarSummary.




(** X9.  The registrar gives a [preAction] hook to exactly the entries
    of the options map, other than the reserved [sdk], that have a
    callback or are named [platform], in the order of the map and
    after the hooks that the node had.  No hook is made for [sdk], even
    when the entry has a callback, nor for an option that has no
    callback and another name; each hook carries the option of its
    entry, its callback and the platforms of the descriptor. *)
Theorem hooks_only_for_callbacks
        (E : Env) (cmdName : string) (cmd : Commander.Command)
        (conf : Descriptor.conf) :
  let node := fst (Registrar.applyCommandConfig E cmdName cmd conf) in
  Commander.preActionHooks node
  = (Commander.preActionHooks cmd ++ hooksOf conf)%list
  /\ (forall h, In h (hooksOf conf) ->
        Commander.hook_name h <> "sdk"
        /\ (Commander.hook_callback h <> None
            \/ Commander.hook_name h = "platform")
        /\ Commander.hook_platforms h = Descriptor.platforms conf
        /\ exists os meta,
             Descriptor.options conf = Some os
             /\ In (Commander.hook_name h, meta) os
             /\ Commander.hook_opt h
                = Registrar.optionOption (Commander.hook_name h) meta
             /\ Commander.hook_callback h = Descriptor.Opt.callback meta)
  /\ (forall os n meta,
        Descriptor.options conf = Some os -> In (n, meta) os ->
        (In (hookOf conf (n, meta)) (hooksOf conf)
         <-> n <> "sdk"
             /\ (Descriptor.Opt.callback meta <> None \/ n = "platform"))).
Proof.
  cbn zeta. split; [|split].
  - rewrite (proj_subcommands Commander.preActionHooks) by reflexivity.
    apply own_hooks.
  - intros h H. unfold hooksOf in H.
    destruct (Descriptor.options conf) as [os|] eqn:O; [|contradiction].
    apply in_map_iff in H as ([n meta] & <- & H).
    apply filter_In in H as (H & W). unfold keptOptions in H.
    apply filter_In in H as (H & K). cbn [fst snd hookOf Commander.hook_name
      Commander.hook_callback Commander.hook_platforms Commander.hook_opt] in *.
    split.
    { intros ->. discriminate K. }
    split.
    { unfold Registrar.wantsHook in W.
      destruct (Descriptor.Opt.callback meta); [left; discriminate|].
      right. apply String.eqb_eq. exact W. }
    split; [reflexivity|].
    exists os, meta. repeat split. exact H.
  - intros os n meta O I. unfold hooksOf. rewrite O. split.
    + intros H. apply in_map_iff in H as ([n' meta'] & Eq & H).
      apply filter_In in H as (H & W). unfold keptOptions in H.
      apply filter_In in H as (H & K). cbn [fst snd] in *.
      injection Eq as -> _ Ec.
      split.
      { intros ->. discriminate K. }
      unfold Registrar.wantsHook in W. rewrite Ec in W.
      destruct (Descriptor.Opt.callback meta); [left; discriminate|].
      right. apply String.eqb_eq. exact W.
    + intros (N & W). apply in_map_iff. exists (n, meta). split; [reflexivity|].
      apply filter_In. split.
      * unfold keptOptions. apply filter_In. split; [exact I|].
        cbn [fst]. apply String.eqb_neq in N. unfold Registrar.sdk.
        rewrite N. reflexivity.
      * cbn [fst snd]. unfold Registrar.wantsHook.
        destruct (Descriptor.Opt.callback meta); [reflexivity|].
        destruct W as [W | ->]; [contradiction | reflexivity].
Qed.

Section ChildFacts.

Import Commander.

Variable E : Env.

(** What a child keeps of the wired subcommand node. *)
Lemma childOf_proj {T : Type} (p : Command -> T) parent n subconf :
  (forall c x, p (set_cmd_conf c x) = p c) ->
  (forall c x, p (set_cmd_module c x) = p c) ->
  (forall c x, p (set_cmd_hidden c x) = p c) ->
  p (childOf E parent n subconf)
  = p (fst (Registrar.applyCommandConfig E n (Registrar.newSubcommand E n) subconf)).
Proof.
  intros H1 H2 H3. unfold childOf, Registrar.applyConfig.
  destruct (Descriptor.hidden subconf); rewrite ?H3, H2, H1; reflexivity.
Qed.



End ChildFacts.


(** X11.  The default subcommand of the node becomes the
    [defaultSubcommand] of the descriptor when that names an entry of
    the subcommands map; when it names none, or the descriptor has no
    [defaultSubcommand] or no subcommands, the node keeps the default
    subcommand that it had. *)
Theorem default_subcommand_is_named
        (E : Env) (cmdName : string) (cmd : Commander.Command)
        (conf : Descriptor.conf) :
  let node := fst (Registrar.applyCommandConfig E cmdName cmd conf) in
  Commander.defaultCommandName node
  = match Descriptor.defaultSubcommand conf, Descriptor.subcommands conf with
    | Some d, Some subs =>
        if existsb (String.eqb d) (map fst subs) then Some d
        else Commander.defaultCommandName cmd
    | _, _ => Commander.defaultCommandName cmd
    end.
Proof.
  cbn zeta. destruct conf as [ti al fl op ar su ds pl hi].
  cbn [Registrar.applyCommandConfig Descriptor.subcommands
         Descriptor.defaultSubcommand].
  destruct su as [subs|].
  - rewrite default_loop. cbn [Descriptor.defaultSubcommand].
    rewrite own_default. destruct ds; reflexivity.
  - rewrite own_default. destruct ds; reflexivity.
Qed.

(** X12.  The children of a child are attached while the sub-descriptor
    is applied, before the child is given the [module] of its parent:
    they are the children of the new subcommand node, and the [module]
    property that each of them shares with it is still undefined. *)
Theorem grandchildren_have_no_module
        (E : Env) (parent : Commander.Command) (name : string)
        (subconf : Descriptor.conf) (inner : string) (innerconf : Descriptor.conf) :
  let child := childOf E parent name subconf in
  let grandchild := childOf E (Registrar.newSubcommand E name) inner innerconf in
  Commander.commands child
  = match Descriptor.subcommands subconf with
    | Some subs =>
        map (fun e => childOf E (Registrar.newSubcommand E name) (fst e) (snd e))
            subs
    | None => []
    end
  /\ Commander.cmd_module grandchild = None
  /\ Commander.cmd_module child = Commander.cmd_module parent.
Proof.
  cbn zeta. split; [|split].
  - rewrite (childOf_proj E Commander.commands) by reflexivity.
    apply children_of_node.
  - destruct (childOf_wired E (Registrar.newSubcommand E name) inner innerconf)
      as (_ & _ & _ & _ & W & _). exact W.
  - destruct (childOf_wired E parent name subconf) as (_ & _ & _ & _ & W & _).
    exact W.
Qed.

(* ================================================================== *)
(** * The hooks at dispatch *)
(* ================================================================== *)

Section HookFacts.

Import Commander Dispatch.

Lemma settled_ret {A : Type} (a : A) : settled (ret a).
Proof. intros cli c. reflexivity. Qed.

Lemma settled_bind {A B : Type} (m : M A) (k : A -> M B) :
  settled m -> (forall a, settled (k a)) -> settled (bind m k).
Proof.
  intros Hm Hk cli c. unfold bind. specialize (Hm cli c).
  destruct (m cli c) as [[[cli1 c1] out1] [a | e | n]]; cbn [fst snd] in *;
    try exact Hm.
  specialize (Hk a cli1 c1).
  destruct (k a cli1 c1) as [[[cli2 c2] out2] r2]. cbn [fst snd] in *.
  congruence.
Qed.

Lemma settled_error {A : Type} (message : string) : settled (@error A message).
Proof. intros cli c. unfold error. destruct (outputError c); reflexivity. Qed.

Lemma settled_handle o val : settled (handleOptionValue o val).
Proof.
  intros cli c. unfold handleOptionValue, store.
  destruct (takes o), val as [v|]; try destruct (argChoices o);
    try destruct (accepts o v); try apply settled_error; reflexivity.
Qed.

Lemma settled_runListener l val : settled (runListener l val).
Proof.
  destruct l; [apply settled_handle|]. intros cli c. reflexivity.
Qed.

Lemma settled_notify ls ev val : settled (notify ls ev val).
Proof.
  induction ls as [|[e l] ls IH]; cbn [notify]; [apply settled_ret|].
  destruct (e =? ev); [|exact IH].
  apply settled_bind; [apply settled_runListener | intros _; exact IH].
Qed.

Lemma settled_emit ev val : settled (emit ev val).
Proof. intros cli c. unfold emit. apply settled_notify. Qed.

Lemma settled_parseOptions argv : forall unknown, settled (parseOptions argv unknown).
Proof.
  induction argv as [|[f val] argv IH]; intros unknown; cbn [parseOptions].
  - apply settled_ret.
  - intros cli c. destruct (findOption c f) as [o|].
    + apply (settled_bind _ _ (settled_emit _ _) (fun _ => IH unknown)).
    + apply IH.
Qed.

(** A hook leaves the node as it is and does what [hookEffects] says. *)
Lemma runHook_effects h cli c :
  snd (fst (fst (runHook h cli c))) = c
  /\ snd (fst (runHook h cli c)) = hookEffects c h.
Proof.
  unfold runHook, hookEffects.
  destruct (if hook_name h =? "platform" then _ else None) as [pc|];
    [destruct (command cli)|]; split; reflexivity.
Qed.

(** The hooks that ran to the end: each did its part, in order. *)
Lemma runHooks_normal hs : forall cli c cli' c' out,
  runHooks hs cli c = (cli', c', out, Normal tt) ->
  c' = c /\ out = flat_map (hookEffects c) hs.
Proof.
  induction hs as [|h hs IH]; intros cli c cli' c' out H.
  - cbn in H. inversion H; subst. split; reflexivity.
  - cbn [runHooks] in H.
    apply bind_inv_normal in H as (cli1 & c1 & out1 & [] & out2 & R & K & ->).
    destruct (runHook_effects h cli c) as (Hc & Ho). rewrite R in Hc, Ho.
    cbn [fst snd] in Hc, Ho. subst c1 out1.
    destruct (IH _ _ _ _ _ K) as (-> & ->). split; reflexivity.
Qed.

(** No hook writes the execution of a command. *)
Lemma hookEffects_no_execute c hs n :
  ~ In (ExecuteCommand n) (flat_map (hookEffects c) hs).
Proof.
  intros H. apply in_flat_map in H as (h & _ & H). unfold hookEffects in H.
  destruct H as [H | H]; [discriminate|].
  destruct (hook_callback h); [destruct H as [H | []]; discriminate | contradiction].
Qed.

(** The hook of an entry with a callback is among those of the
    descriptor. *)
Lemma hookOf_registered conf os n meta :
  Descriptor.options conf = Some os -> In (n, meta) os -> n <> "sdk" ->
  Registrar.wantsHook n meta = true ->
  In (hookOf conf (n, meta)) (hooksOf conf).
Proof.
  intros O I N W. unfold hooksOf. rewrite O.
  apply in_map_iff. exists (n, meta). split; [reflexivity|].
  apply filter_In. split; [|exact W].
  unfold keptOptions. apply filter_In. split; [exact I|].
  cbn [fst]. apply String.eqb_neq in N. unfold Registrar.sdk. rewrite N.
  reflexivity.
Qed.

(** A hook ends normally unless it is the hook of [platform] and
    [cli.command] is not set. *)
Lemma runHook_returns h cli c :
  hook_name h <> "platform" \/ command cli <> None ->
  snd (runHook h cli c) = Normal tt.
Proof.
  intros H. unfold runHook.
  destruct (hook_name h =? "platform") eqn:N.
  - destruct H as [H | H]; [apply String.eqb_eq in N; contradiction|].
    destruct (hook_platforms h) as [ps|]; [|reflexivity].
    destruct (platformsGet ps _); [|reflexivity].
    destruct (command cli); [reflexivity | contradiction].
  - reflexivity.
Qed.

End HookFacts.


(** X13.  The callback of an option is called with the value of the
    option or, when that is falsy, with its default.  Take an entry
    [name: meta] of the options map, other than the reserved [sdk],
    that has a callback, the node that the registrar wires from the
    descriptor on a blank node, its switches being unambiguous, and
    the node as any command line that is parsed to the end leaves it.
    The hook of the entry is among the [preAction] hooks of that node.
    Run on it, the hook logs its line and then calls the callback with
    the value that the command line leaves for the option or, when
    that value is falsy, with the default of the entry; it returns
    unless the entry is [platform] and [cli.command] is not set.
    Whenever the hooks of the node all return, those two effects are
    among theirs, in this order.  So the callback gets the default
    when the option is omitted, the value of the last occurrence when
    that is given, and again the default when the value given is the
    empty string. *)
Theorem callback_gets_value_or_default
        (E : Env) (cmdName : string) (cmd : Commander.Command)
        (conf : Descriptor.conf) (os : list (string * Descriptor.Opt.t))
        (name : string) (meta : Descriptor.Opt.t) (f : nat)
        (argv : list Dispatch.supplied) (cli cli' : CLI)
        (node' : Commander.Command) (out : list effect)
        (unknown : list string) :
  blank cmd ->
  Descriptor.options conf = Some os ->
  In (name, meta) os ->
  name <> "sdk" ->
  Descriptor.Opt.callback meta = Some f ->
  let node := fst (Registrar.applyCommandConfig E cmdName cmd conf) in
  let o := Registrar.optionOption name meta in
  let key := Commander.attributeName o in
  let h := hookOf conf (name, meta) in
  unambiguous node = true ->
  Dispatch.parseOptions argv [] cli node = (cli', node', out, Normal unknown) ->
  let left := resolve o argv (Commander.getOptionValue node key) in
  let v := if JS.truthy left then left else Descriptor.Opt.default meta in
  let calls := [ ConsoleLog ("preAction " ++ Commander.cmd_name cmd
                             ++ " --" ++ name);
                 Invoke f v ] in
  In h (Commander.preActionHooks node')
  /\ (forall cli2, snd (fst (Dispatch.runHook h cli2 node')) = calls)
  /\ (forall cli2, name <> "platform" \/ command cli2 <> None ->
        snd (Dispatch.runHook h cli2 node') = Normal tt)
  /\ (forall cli2 cli3 node3 out3,
        Dispatch.runHooks (Commander.preActionHooks node') cli2 node'
        = (cli3, node3, out3, Normal tt) ->
        exists before after, out3 = (before ++ calls ++ after)%list)
  /\ (omitted o argv -> JS.startsWith "no-" name = false ->
      JS.defined (Descriptor.Opt.default meta) = true ->
      v = Descriptor.Opt.default meta)
  /\ (forall pre flag val post,
        argv = (pre ++ (flag, Some val) :: post)%list ->
        Commander.is_flag o flag = true -> omitted o post ->
        v = if val =? "" then Descriptor.Opt.default meta else VStr val).
Proof.
  intros B O I N Cb node o key h U P left v calls.
  destruct (option_registered E cmdName cmd conf os name meta O I N)
    as (Ir & Io & _).
  fold node o in Ir, Io.
  destruct (applyCommandConfig_extends E cmdName cmd conf) as (H1 & _ & St & H4).
  fold node in H1, St, H4.
  assert (Nn : Commander.cmd_name node = Commander.cmd_name cmd).
  { pose proof (f_equal (fun w => fst (fst (fst (fst w)))) St) as X. exact X. }
  assert (V : Commander.getOptionValue node' key = left)
    by exact (parse_values o argv _ _ _ _ _ _ _
                (registered_sound E cmdName cmd conf B U) Io P).
  pose proof (orderly_parseOptions argv [] cli node) as Ord. rewrite P in Ord.
  destruct Ord as (W & _).
  assert (N1 : Commander.cmd_name node' = Commander.cmd_name cmd).
  { pose proof (f_equal (fun w => fst (fst (fst (fst (snd w))))) W) as X.
    cbn in X. rewrite <- Nn. exact X. }
  pose proof (settled_parseOptions argv [] cli node) as S. rewrite P in S.
  cbn [fst snd] in S.
  assert (Hk : In h (Commander.preActionHooks node')).
  { rewrite S. unfold node.
    rewrite (proj_subcommands Commander.preActionHooks) by reflexivity.
    rewrite own_hooks. apply in_or_app. right.
    apply (hookOf_registered conf os name meta O I N).
    unfold Registrar.wantsHook. rewrite Cb. reflexivity. }
  assert (He : hookEffects node' h = calls).
  { unfold hookEffects, h, hookOf, calls.
    cbn [Commander.hook_name Commander.hook_callback Commander.hook_opt fst snd].
    rewrite Cb, N1. fold o key. rewrite V.
    unfold o at 1. rewrite optionOption_default. reflexivity. }
  split; [exact Hk|]. split.
  { intros cli2. destruct (runHook_effects h cli2 node') as (_ & Ho).
    rewrite Ho. exact He. }
  split.
  { intros cli2 H. apply runHook_returns. exact H. }
  split.
  { intros cli2 cli3 node3 out3 R.
    apply runHooks_normal in R as (_ & ->).
    apply in_split in Hk as (h1 & h2 & ->).
    exists (flat_map (hookEffects node') h1), (flat_map (hookEffects node') h2).
    rewrite flat_map_app. cbn [flat_map]. rewrite He. reflexivity. }
  split.
  - intros Om Neg D. unfold v, left.
    rewrite resolve_omitted by exact Om.
    assert (V0 : Commander.getOptionValue node key = Descriptor.Opt.default meta).
    { rewrite (value_ext _ _ key H4).
      unfold key. rewrite addOptions_default; try assumption.
      - apply optionOption_default.
      - destruct B as (B1 & _). rewrite B1 in H1. cbn [app] in H1.
        unfold unambiguous in U. apply andb_prop in U as [_ U].
        rewrite H1 in U. apply distinct_NoDup, U.
      - unfold o. rewrite optionOption_negate. exact Neg.
      - unfold o. rewrite optionOption_default. exact D. }
    rewrite V0. destruct (JS.truthy (Descriptor.Opt.default meta)); reflexivity.
  - intros pre flag val post -> Fl Om. unfold v, left.
    rewrite resolve_app. cbn [resolve]. rewrite Fl, resolve_omitted by exact Om.
    unfold stored. unfold o at 1 3. rewrite optionOption_takes.
    cbn [JS.truthy]. destruct (val =? ""); reflexivity.
Qed.

(* ================================================================== *)
(** * Usage errors and the top-level handler *)
(* ================================================================== *)

(** What the handler writes and how it leaves the process. *)
Lemma handler_effects (E : Env) (cli : CLI) (e : Error) :
  snd (fst (Main.handler E cli e))
  = (snd (Dispatch.showBanner cli)
     ++ [ ConsoleError (Main.report E e) ]
     ++ match helpNode cli with
        | Some c => [ HelpText (Commander.cmd_name c) ]
        | None => []
        end)%list
  /\ snd (Main.handler E cli e)
     = match helpNode cli with
       | Some _ => 0%Z
       | None => 1%Z
       end.
Proof.
  destruct (showBanner_spec cli) as (_ & _ & _ & _ & _ & Hc & Hp).
  unfold Main.handler, helpNode.
  destruct (Dispatch.showBanner cli) as [cli1 out1] eqn:SB.
  assert (S1 : cli1 = fst (Dispatch.showBanner cli)) by (rewrite SB; reflexivity).
  cbn [fst snd] in *. rewrite Hc, Hp.
  destruct (command cli) as [c|]; [|destruct (program cli) as [p|]];
    try (rewrite S1, help_after_banner); rewrite ?app_nil_r; split; reflexivity.
Qed.

Lemma substring_tail (p s : string) :
  String.substring (String.length p) (String.length (p ++ s) - String.length p)
                   (p ++ s) = s.
Proof.
  induction p as [|c p IH]; cbn [String.length String.append String.substring].
  - rewrite Nat.sub_0_r. apply substring_all.
  - exact IH.
Qed.

Lemma prefix_append (p s : string) : String.prefix p (p ++ s) = true.
Proof.
  induction p as [|c p IH]; cbn; [destruct s; reflexivity|].
  destruct (ascii_dec c c) as [_ | N]; [exact IH | exfalso; apply N; reflexivity].
Qed.

(** X14.  A usage error on a subcommand reaches the user with the help
    of that subcommand.  When a child made by the registrar reports an
    error message, the handler that the registrar gave it writes
    nothing, records the child in [cli.command] and throws a [TiError]
    whose message is the reported one less a leading [error:] and the
    white space after it.  The top-level handler given this failure
    then writes the banner if it is due, the message after [Error: ],
    and the help screen of the child - not that of the root command or
    of a command resolved before.  The process ends inside that help,
    with status 0: the exit with status 1 that follows it in the
    handler is not reached. *)
Theorem usage_error_shows_help_of_subcommand
        (E : Env) (parent : Commander.Command) (name : string)
        (subconf : Descriptor.conf) (cli : CLI) (message : string) :
  let node := childOf E parent name subconf in
  let result := Dispatch.error (A := unit) message cli node in
  let cli' := fst (fst (fst result)) in
  let text := Dispatch.stripErrorPrefix (message ++ lf) in
  let due := Logger.level_truthy (Logger.priv_level (logger cli))
             && negb (Logger.priv_bannerRendered (logger cli)) in
  snd result = Throw (TiError text None None)
  /\ snd (fst result) = []
  /\ command cli' = Some node
  /\ snd (fst (Main.handler E cli' (TiError text None None)))
     = ((if due
         then [ Write Stdout (Logger.priv_banner (logger cli));
                Write Stdout lf; Emit "cli:logger-banner" ]
         else [])
        ++ [ ConsoleError (red E (JS.trim ("Error: " ++ text)) ++ lf);
             HelpText name ])%list
  /\ snd (Main.handler E cli' (TiError text None None)) = 0%Z
  /\ (forall m, Dispatch.stripErrorPrefix ("error:" ++ m) = JS.trimStart m)
  /\ (forall m, JS.startsWith "error:" m = false ->
                Dispatch.stripErrorPrefix m = m).
Proof.
  cbn zeta.
  destruct (childOf_wired E parent name subconf) as (_ & W1 & _).
  unfold Dispatch.error. rewrite W1. cbn [fst snd].
  split; [reflexivity|]. split; [reflexivity|]. split; [reflexivity|].
  destruct (handler_effects E (set_command cli (Some (childOf E parent name subconf)))
              (TiError (Dispatch.stripErrorPrefix (message ++ lf)) None None))
    as (H1 & H2).
  split; [|split; [exact H2|split]].
  - rewrite H1.
    destruct (showBanner_spec
                (set_command cli (Some (childOf E parent name subconf))))
      as (Hb & _).
    cbn zeta in Hb. rewrite Hb.
    cbn [helpNode command set_command logger]. rewrite child_name. reflexivity.
  - intros m. unfold Dispatch.stripErrorPrefix, JS.startsWith.
    rewrite prefix_append.
    exact (f_equal JS.trimStart (substring_tail "error:" m)).
  - intros m H. unfold Dispatch.stripErrorPrefix. rewrite H. reflexivity.
Qed.

(* ================================================================== *)
(** * The former entry point and the former logger *)
(* ================================================================== *)

(** [getArg] by cases on the first argument. *)
Lemma getArg_cons (a : string) (rest : list string) (name : string) :
  Titanium.getArg (a :: rest) name
  = if a =? name then match rest with v :: _ => Some v | [] => None end
    else Titanium.getArg rest name.
Proof.
  unfold Titanium.getArg. cbn [Titanium.indexOf].
  destruct (a =? name).
  - destruct rest; reflexivity.
  - destruct (Titanium.indexOf rest name) as [p|]; [|reflexivity].
    cbn [List.length Nat.add nth_error].
    change (S p + 1 <? S (List.length rest))%nat
      with (p + 1 <? List.length rest)%nat.
    reflexivity.
Qed.

Lemma getArg_absent (argv : list string) (name : string) :
  ~ In name argv -> Titanium.getArg argv name = None.
Proof.
  induction argv as [|a rest IH]; intros N; [reflexivity|].
  rewrite getArg_cons. destruct (a =? name) eqn:A.
  - exfalso. apply N. left. apply String.eqb_eq. exact A.
  - apply IH. intros H. apply N. right. exact H.
Qed.

(** X15.  [getArg(name)] returns the argument that follows the first
    occurrence of [name] on the command line, whatever that argument
    is, and [null] when there is none: it returns a value exactly when
    the command line has an argument after the first occurrence of
    [name], and [null] exactly when [name] does not occur or occurs
    first as the last argument.  Later occurrences are not looked
    at. *)
Theorem getArg_reads_after_first_occurrence
        (argv : list string) (name v : string) :
  (Titanium.getArg argv name = Some v
   <-> exists pre post,
         argv = (pre ++ name :: v :: post)%list /\ ~ In name pre)
  /\ (Titanium.getArg argv name = None
      <-> ~ In name argv
          \/ exists pre, argv = (pre ++ [name])%list /\ ~ In name pre).
Proof.
  induction argv as [|a rest (IH1 & IH2)].
  - split; split.
    + discriminate.
    + intros (pre & post & H & _). destruct pre; discriminate.
    + intros _. left. intros [].
    + reflexivity.
  - rewrite getArg_cons. destruct (a =? name) eqn:A.
    + apply String.eqb_eq in A. subst a. split; split.
      * destruct rest as [|w rest']; [discriminate|]. intros H. injection H as ->.
        exists [], rest'. split; [reflexivity | intros []].
      * intros (pre & post & H & N). destruct pre as [|x pre].
        -- cbn in H. injection H as ->. reflexivity.
        -- exfalso. cbn in H. injection H as -> _. apply N. left. reflexivity.
      * destruct rest as [|w rest']; [|discriminate]. intros _.
        right. exists []. split; [reflexivity | intros []].
      * intros [N | (pre & H & N)].
        -- exfalso. apply N. left. reflexivity.
        -- destruct pre as [|x pre].
           ++ cbn in H. injection H as ->. reflexivity.
           ++ exfalso. cbn in H. injection H as -> _. apply N. left. reflexivity.
    + apply String.eqb_neq in A. split; split.
      * intros H. apply IH1 in H as (pre & post & -> & N).
        exists (a :: pre), post. split; [reflexivity|].
        intros [X | X]; [apply A, X | apply N, X].
      * intros (pre & post & H & N). apply IH1.
        destruct pre as [|x pre].
        -- cbn in H. injection H as X _. contradiction.
        -- cbn in H. injection H as -> ->. exists pre, post.
           split; [reflexivity|]. intros X. apply N. right. exact X.
      * intros H. apply IH2 in H as [N | (pre & -> & N)].
        -- left. intros [X | X]; [apply A, X | apply N, X].
        -- right. exists (a :: pre). split; [reflexivity|].
           intros [X | X]; [apply A, X | apply N, X].
      * intros [N | (pre & H & N)]; apply IH2.
        -- left. intros X. apply N. right. exact X.
        -- destruct pre as [|x pre].
           ++ cbn in H. injection H as X _. contradiction.
           ++ cbn in H. injection H as -> ->. right. exists pre.
              split; [reflexivity|]. intros X. apply N. right. exact X.
Qed.


Section LegacyFacts.

Import Legacy.

Variable E : Env.
Variable sprintf : list arg -> string.
Variable translate : string -> list string -> string.
Variables version copyright : string.

Lemma legacyRenders_app (a b : list event) :
  legacyRenders (a ++ b) = legacyRenders a + legacyRenders b.
Proof.
  unfold legacyRenders. rewrite filter_app, length_app. reflexivity.
Qed.

Lemma log_no_notice args : legacyRenders (Legacy.log sprintf args) = 0.
Proof. reflexivity. Qed.

Lemma legacy_run_cons (s : t) (c : call) (cs : list call) :
  Legacy.run E sprintf translate version copyright s (c :: cs)
  = (fst (Legacy.run E sprintf translate version copyright
            (fst (Legacy.step E sprintf translate version copyright s c)) cs),
     (snd (Legacy.step E sprintf translate version copyright s c)
      ++ snd (Legacy.run E sprintf translate version copyright
                (fst (Legacy.step E sprintf translate version copyright s c))
                cs))%list).
Proof.
  cbn [Legacy.run].
  destruct (Legacy.step E sprintf translate version copyright s c) as [s1 out1].
  cbn [fst snd].
  destruct (Legacy.run E sprintf translate version copyright s1 cs) as [s2 out2].
  reflexivity.
Qed.

(** What a call does to the flags and how often it renders. *)
Lemma legacy_step (s : t) (c : call) :
  legacyRenders (snd (Legacy.step E sprintf translate version copyright s c))
  = (match c with CBanner => Nat.b2n (var_bannerEnabled s) | _ => 0 end)
  /\ var_bannerEnabled
       (fst (Legacy.step E sprintf translate version copyright s c))
     = (match c with
        | CBanner => false
        | CBannerEnabled b => if defined b then truthy b else var_bannerEnabled s
        | _ => var_bannerEnabled s
        end)
  /\ var_bannerWasRendered
       (fst (Legacy.step E sprintf translate version copyright s c))
     = (match c with
        | CBanner => var_bannerWasRendered s || var_bannerEnabled s
        | _ => var_bannerWasRendered s
        end).
Proof.
  destruct c; cbn; try (repeat split; reflexivity).
  - destruct (var_bannerEnabled s); repeat split.
  - destruct (defined b); repeat split.
  - destruct (defined b); repeat split.
Qed.

Lemma legacy_bound (cs : list call) : forall s,
  legacyRenders (snd (Legacy.run E sprintf translate version copyright s cs))
  <= Nat.b2n (var_bannerEnabled s) + enablings cs
  /\ var_bannerWasRendered
       (fst (Legacy.run E sprintf translate version copyright s cs))
     = var_bannerWasRendered s
       || (0 <? legacyRenders
                  (snd (Legacy.run E sprintf translate version copyright s cs)))%nat.
Proof.
  induction cs as [|c cs IH]; intros s.
  - cbn. split; [lia | rewrite orb_false_r; reflexivity].
  - rewrite legacy_run_cons. cbn [fst snd]. rewrite legacyRenders_app.
    destruct (legacy_step s c) as (R & En & Wr).
    destruct (IH (fst (Legacy.step E sprintf translate version copyright s c)))
      as (B & W).
    rewrite W, Wr, R. rewrite En in B.
    unfold enablings in *. cbn [filter].
    destruct c; cbn [enabling] in *;
      try (split; [cbn [List.length]; lia
                  | destruct (legacyRenders _); reflexivity]).
    + split.
      * cbn [Nat.b2n] in B. lia.
      * destruct (var_bannerEnabled s); cbn [Nat.b2n];
          destruct (var_bannerWasRendered s);
          destruct (legacyRenders _); reflexivity.
    + split.
      * destruct (defined b), (truthy b), (var_bannerEnabled s);
          cbn [andb List.length Nat.b2n] in *; lia.
      * destruct (legacyRenders _); reflexivity.
Qed.

End LegacyFacts.

(** X16.  The former logger renders its banner once for each time the
    banner is enabled.  Over any sequence of calls made on the logger,
    the banner is rendered at most once more than [bannerEnabled] is
    called with a truthy argument, and not at all when the banner
    starts disabled and is never enabled; so without such a call it is
    rendered at most once.  Every [banner()] call leaves the banner
    disabled, whether it rendered or not.  [bannerWasRendered()] is
    true exactly when it was before or the sequence rendered the
    banner.  Unlike the present logger, the former one renders the
    banner again once [bannerEnabled(true)] is called after a
    rendering. *)
Theorem legacy_banner_needs_enabling
        (E : Env) (sprintf : list Legacy.arg -> string)
        (translate : string -> list string -> string)
        (version copyright : string) (s : Legacy.t) (cs : list Legacy.call) :
  let run := Legacy.run E sprintf translate version copyright in
  let banner := Legacy.banner E sprintf translate version copyright in
  legacyRenders (snd (run s cs))
  <= Nat.b2n (Legacy.var_bannerEnabled s) + enablings cs
  /\ (enablings cs = 0 -> legacyRenders (snd (run s cs)) <= 1)
  /\ Legacy.var_bannerEnabled (fst (banner s)) = false
  /\ Legacy.bannerWasRendered (fst (run s cs))
     = Legacy.bannerWasRendered s || (0 <? legacyRenders (snd (run s cs)))%nat
  /\ (Legacy.var_bannerEnabled s = true ->
      legacyRenders
        (snd (run s [ Legacy.CBanner; Legacy.CBannerEnabled (VBool true);
                      Legacy.CBanner ])) = 2
      /\ legacyRenders (snd (run s [ Legacy.CBanner; Legacy.CBanner ])) = 1).
Proof.
  cbn zeta.
  destruct (legacy_bound E sprintf translate version copyright cs s) as (B & W).
  split; [exact B|]. split.
  { intros Z. rewrite Z in B. destruct (Legacy.var_bannerEnabled s);
      cbn [Nat.b2n] in B; lia. }
  split; [reflexivity|]. split; [exact W|].
  intros En. cbn. rewrite En. split; reflexivity.
Qed.

Section LegacyLogFacts.

Import Legacy.

Variable sprintf : list arg -> string.

Lemma dropNulls_last (xs : list arg) (l : arg) :
  isNull l = false ->
  exists ys, dropNulls (xs ++ [l]) = (ys ++ [l])%list.
Proof.
  intros N. induction xs as [|x xs (ys & IH)].
  - exists []. cbn. rewrite N. reflexivity.
  - cbn [app dropNulls]. destruct (isNull x).
    + exists ys. exact IH.
    + exists (x :: xs). reflexivity.
Qed.

(** Popping the trailing nulls keeps a first argument that is not
    [null]. *)
Lemma popNulls_head (l : arg) (rest : list arg) :
  isNull l = false -> exists kept, popNulls (l :: rest) = l :: kept.
Proof.
  intros N. unfold popNulls. cbn [rev].
  destruct (dropNulls_last (rev rest) l N) as (ys & ->).
  exists (rev ys). rewrite rev_app_distr. reflexivity.
Qed.

Lemma popNulls_null (xs : list arg) :
  popNulls (xs ++ [Prim VNull]) = popNulls xs.
Proof.
  unfold popNulls. rewrite rev_app_distr. reflexivity.
Qed.

Lemma inLevels_not_null (a : arg) : inLevels a = true -> isNull a = false.
Proof.
  destruct a as [[| | | |]|]; try reflexivity. discriminate.
Qed.

(** After the first two steps the first argument is a level. *)
Lemma withLevel_head (args : list arg) :
  exists l rest, withLevel (blankIfEmpty args) = l :: rest /\ inLevels l = true.
Proof.
  unfold withLevel.
  destruct (inLevels (nth 0 (blankIfEmpty args) (Prim VUndefined))) eqn:L.
  - destruct args as [|a args]; [discriminate L|].
    exists a, args. split; [reflexivity | exact L].
  - exists (Prim (VStr "_")), (blankIfEmpty args). split; reflexivity.
Qed.

End LegacyLogFacts.

(** X17.  The former [logger.log] always hands the logging package a
    level that the table of levels knows.  Whatever the arguments,
    [log] ends with one call of the original [log], and the level it
    passes is a key of the table (or one that the table inherits):
    the first argument when that names a level, and the general entry
    [_] otherwise.  Without arguments the general entry is a single
    space.  A first argument that names no level is the message of a
    general entry.  A level name that [getLevels()] returns, given
    alone, is taken as the level, and the message is empty. *)
Theorem legacy_log_level_is_known
        (sprintf : list Legacy.arg -> string) (args : list Legacy.arg)
        (a : Legacy.arg) (l : string) :
  (exists level msg,
      Legacy.log sprintf args = [Legacy.Forward level msg]
      /\ Legacy.inLevels level = true)
  /\ Legacy.log sprintf [] = [Legacy.Forward (Legacy.Prim (VStr "_")) " "]
  /\ (Legacy.inLevels a = false ->
      Legacy.log sprintf [a]
      = [Legacy.Forward (Legacy.Prim (VStr "_")) (Legacy.textOf (Some a))])
  /\ (In l Legacy.getLevels ->
      Legacy.log sprintf [Legacy.Prim (VStr l)]
      = [Legacy.Forward (Legacy.Prim (VStr l)) ""]
      /\ Legacy.log sprintf [Legacy.Prim (VStr l); a]
         = [Legacy.Forward (Legacy.Prim (VStr l)) (Legacy.textOf (Some a))])
  /\ Legacy.getLevels = ["trace"; "debug"; "info"; "warn"; "error"].
Proof.
  split; [|split; [reflexivity|split; [|split; [|reflexivity]]]].
  - unfold Legacy.log.
    destruct (withLevel_head args) as (lv & rest & -> & L).
    destruct (popNulls_head lv rest (inLevels_not_null lv L)) as (kept & ->).
    destruct kept as [|k kept]; cbn [Legacy.setSecond nth];
      eexists; eexists; (split; [reflexivity | exact L]).
  - intros L. unfold Legacy.log, Legacy.withLevel.
    cbn [Legacy.blankIfEmpty nth]. rewrite L.
    unfold Legacy.popNulls. cbn [rev app Legacy.dropNulls].
    destruct (Legacy.isNull a) eqn:N.
    + destruct a as [[| | | |]|]; try discriminate N. reflexivity.
    + reflexivity.
  - intros H. cbn in H.
    destruct H as [<-|[<-|[<-|[<-|[<-|[]]]]]]; split;
      try reflexivity;
      unfold Legacy.log, Legacy.withLevel; cbn [Legacy.blankIfEmpty nth];
      change (Legacy.inLevels (Legacy.Prim (VStr _))) with true; cbn iota;
      unfold Legacy.popNulls; cbn [rev app Legacy.dropNulls];
      (destruct (Legacy.isNull a) eqn:N;
       [destruct a as [[| | | |]|]; try discriminate N; reflexivity
       | reflexivity]).
Qed.

(** X18.  What the former [logger.log] makes of its arguments.  A
    [null] at the end of the arguments is dropped: after at least one
    argument it changes nothing.  The message is always a string: the
    empty string for [null] and [undefined], the stack of an error
    (or, when it has none, its text) with a line feed, and the string
    of any other value: a string as it is, [true] and [false] for the
    booleans, and for a number the digits that the language prints
    (with an exponent from 1e21 on).  With further arguments after the
    message, the text passed on is that of [sprintf] applied to the
    message and those arguments. *)
Theorem legacy_log_message
        (sprintf : list Legacy.arg -> string) (args : list Legacy.arg)
        (l : string) (a b : Legacy.arg) (stack text : string) :
  (args <> [] ->
   Legacy.log sprintf (args ++ [Legacy.Prim VNull]) = Legacy.log sprintf args)
  /\ (In l Legacy.getLevels ->
      Legacy.log sprintf [Legacy.Prim (VStr l); Legacy.Prim VNull]
      = [Legacy.Forward (Legacy.Prim (VStr l)) ""]
      /\ Legacy.log sprintf [Legacy.Prim (VStr l); Legacy.Prim VUndefined]
         = [Legacy.Forward (Legacy.Prim (VStr l)) ""]
      /\ (stack <> "" ->
          Legacy.log sprintf [Legacy.Prim (VStr l); Legacy.Err (Some stack) text]
          = [Legacy.Forward (Legacy.Prim (VStr l)) (stack ++ lf)])
      /\ Legacy.log sprintf [Legacy.Prim (VStr l); Legacy.Err None text]
         = [Legacy.Forward (Legacy.Prim (VStr l)) (text ++ lf)]
      /\ (Legacy.isNull b = false ->
          Legacy.log sprintf [Legacy.Prim (VStr l); a; b]
          = [Legacy.Forward (Legacy.Prim (VStr l))
               (sprintf [Legacy.Prim (VStr (Legacy.textOf (Some a))); b])]))
  /\ (forall s, Legacy.textOf (Some (Legacy.Prim (VStr s))) = s)
  /\ (forall t, Legacy.textOf (Some (Legacy.Prim (VBool t)))
                = if t then "true" else "false")
  /\ (forall n, Legacy.textOf (Some (Legacy.Prim (VNum n)))
                = JS.numberToString n)
  /\ JS.numberToString 42 = "42"
  /\ JS.numberToString (-7) = "-7"
  /\ JS.numberToString (2 ^ 53) = "9007199254740992"
  /\ JS.numberToString (2 ^ 64) = "18446744073709552000"
  /\ JS.numberToString (10 ^ 21) = "1e+21"
  /\ JS.numberToString (2 ^ 70) = "1.1805916207174113e+21".
Proof.
  split; [|split;
           [|split; [reflexivity|split; [intros []; reflexivity|
              split; [reflexivity|repeat split; vm_compute; reflexivity]]]]].
  - intros N. unfold Legacy.log.
    replace (Legacy.blankIfEmpty (args ++ [Legacy.Prim VNull]))
      with (Legacy.blankIfEmpty args ++ [Legacy.Prim VNull])%list
      by (destruct args; [contradiction | reflexivity]).
    replace (Legacy.withLevel (Legacy.blankIfEmpty args ++ [Legacy.Prim VNull]))
      with (Legacy.withLevel (Legacy.blankIfEmpty args) ++ [Legacy.Prim VNull])%list.
    + rewrite popNulls_null. reflexivity.
    + unfold Legacy.withLevel. destruct args as [|x args]; [contradiction|].
      cbn [Legacy.blankIfEmpty app nth].
      destruct (Legacy.inLevels x); reflexivity.
  - intros H. cbn in H.
    destruct H as [<-|[<-|[<-|[<-|[<-|[]]]]]];
      (split; [reflexivity|]); (split; [reflexivity|]);
      (split; [intros S; apply String.eqb_neq in S;
               unfold Legacy.log, Legacy.withLevel; cbn [Legacy.blankIfEmpty nth];
               change (Legacy.inLevels (Legacy.Prim (VStr _))) with true; cbn iota;
               unfold Legacy.popNulls; cbn [rev app Legacy.dropNulls Legacy.isNull];
               cbn [nth_error Legacy.textOf]; rewrite S; reflexivity|]);
      (split; [reflexivity|]);
      intros B; unfold Legacy.log, Legacy.withLevel; cbn [Legacy.blankIfEmpty nth];
      change (Legacy.inLevels (Legacy.Prim (VStr _))) with true; cbn iota;
      unfold Legacy.popNulls; cbn [rev app Legacy.dropNulls]; rewrite B;
      reflexivity.
Qed.

(* ================================================================== *)
(** * The warning about the encoding of the terminal *)
(* ================================================================== *)

Lemma split_nonempty (s : string) : Titanium.split s <> [].
Proof.
  induction s as [|c s IH]; cbn; [discriminate|].
  destruct (c =? ".")%char; [discriminate|].
  destruct (Titanium.split s); [contradiction | discriminate].
Qed.

Lemma split_dotless (s : string) : dotless s = true -> Titanium.split s = [s].
Proof.
  induction s as [|c s IH]; cbn; [reflexivity|].
  destruct (c =? ".")%char; cbn; [discriminate|].
  intros H. rewrite (IH H). reflexivity.
Qed.

Lemma last_cons {A : Type} (x : A) (xs : list A) (d : A) :
  xs <> [] -> last (x :: xs) d = last xs d.
Proof. destruct xs; [contradiction | reflexivity]. Qed.

Lemma split_dot (p s : string) :
  (1 <? List.length (Titanium.split (p ++ String "." s)))%nat = true
  /\ last (Titanium.split (p ++ String "." s)) "" = last (Titanium.split s) "".
Proof.
  induction p as [|c p (IH1 & IH2)].
  - cbn [String.append Titanium.split]. cbn.
    pose proof (split_nonempty s) as N.
    destruct (Titanium.split s) as [|x xs] eqn:S; [contradiction|].
    split; reflexivity.
  - cbn [String.append Titanium.split].
    destruct (Titanium.split (p ++ String "." s)) as [|part parts] eqn:S;
      [discriminate IH1|].
    destruct parts as [|q parts]; [discriminate IH1|].
    destruct (c =? ".")%char.
    + split; [reflexivity|]. rewrite <- IH2. reflexivity.
    + split; [reflexivity|]. rewrite <- IH2. reflexivity.
Qed.

Lemma dot_not_empty (p s : string) : (p ++ String "." s =? "") = false.
Proof. destruct p; reflexivity. Qed.

Lemma existsb_isWarn_logger (out : list Legacy.event) :
  existsb isWarn (map Titanium.FromLogger out) = false.
Proof. induction out as [|e out IH]; [reflexivity | exact IH]. Qed.

Lemma preValidate_shown
      (E : Env) (sprintf : list Legacy.arg -> string)
      (translate : string -> list string -> string)
      (version copyright : string)
      (LANG : option string) (hide : bool) (s : Legacy.t) :
  Titanium.preValidate E sprintf translate version copyright false LANG hide s
  = (fst (Legacy.banner E sprintf translate version copyright s),
     (map Titanium.FromLogger
          (snd (Legacy.banner E sprintf translate version copyright s))
      ++ (if Legacy.var_bannerWasRendered s || Legacy.var_bannerEnabled s then
            match LANG with
            | Some enc =>
                if negb (enc =? "") && negb hide
                then Titanium.encodingWarning E translate (Titanium.split enc)
                else []
            | None => []
            end
          else [])
      ++ [Titanium.Finished])%list).
Proof. reflexivity. Qed.

(** X20.  The listener of [cli:pre-validate] of the former entry
    point.  It always ends by calling [finished], once.  For a command
    that skips the banner it does nothing else.  Otherwise it asks the
    former logger for the banner, which leaves the banner disabled, and
    it warns about the encoding of the terminal only if the banner was
    rendered, now or before, the warning is not hidden in the
    configuration, and [LANG] holds a full stop.  For a [LANG] of the
    form [language.charset] it then warns exactly when the charset, in
    lower case, is not [utf-8]; a [LANG] without a full stop never
    warns. *)
Theorem encoding_warning_follows_banner
        (E : Env) (sprintf : list Legacy.arg -> string)
        (translate : string -> list string -> string)
        (version copyright : string)
        (skip : bool) (LANG : option string) (hide : bool) (s : Legacy.t) :
  let result :=
    Titanium.preValidate E sprintf translate version copyright skip LANG hide s in
  let rendered := Legacy.bannerWasRendered s || Legacy.var_bannerEnabled s in
  let warns := existsb isWarn (snd result) in
  (exists before, snd result = (before ++ [Titanium.Finished])%list
                  /\ existsb isFinished before = false)
  /\ (skip = true -> result = (s, [Titanium.Finished]))
  /\ (skip = false ->
      Legacy.bannerWasRendered (fst result) = rendered
      /\ Legacy.var_bannerEnabled (fst result) = false)
  /\ (warns = true ->
      skip = false /\ rendered = true /\ hide = false
      /\ exists enc, LANG = Some enc /\ dotless enc = false)
  /\ (forall lang charset,
        LANG = Some (lang ++ "." ++ charset) -> dotless charset = true ->
        skip = false -> rendered = true -> hide = false ->
        (warns = true <-> Titanium.lower charset <> "utf-8"))
  /\ (forall enc, LANG = Some enc -> dotless enc = true -> warns = false).
Proof.
  cbn zeta. unfold Titanium.preValidate.
  destruct skip.
  { split; [exists []; split; reflexivity|].
    split; [reflexivity|]. split; [discriminate|].
    split; [discriminate|]. split; [discriminate|]. reflexivity. }
  fold (Titanium.preValidate E sprintf translate version copyright false LANG hide s).
  rewrite preValidate_shown. cbn [fst snd].
  unfold Legacy.bannerWasRendered.
  set (out := snd (Legacy.banner E sprintf translate version copyright s)).
  set (rendered := Legacy.var_bannerWasRendered s || Legacy.var_bannerEnabled s).
  set (W := if rendered then _ else []).
  assert (Wf : existsb isFinished W = false).
  { subst W. destruct rendered; [|reflexivity].
    destruct LANG as [enc|]; [|reflexivity].
    destruct (negb (enc =? "") && negb hide); [|reflexivity].
    unfold Titanium.encodingWarning. destruct (_ && _); reflexivity. }
  assert (Lf : forall l, existsb isFinished (map Titanium.FromLogger l) = false).
  { induction l as [|e l IH]; [reflexivity | exact IH]. }
  assert (Ww : existsb isWarn (map Titanium.FromLogger out ++ W ++ [Titanium.Finished])
               = existsb isWarn W).
  { rewrite !existsb_app, existsb_isWarn_logger. cbn. rewrite orb_false_r.
    reflexivity. }
  rewrite Ww.
  split.
  { exists (map Titanium.FromLogger out ++ W)%list.
    split; [rewrite <- app_assoc; reflexivity|].
    rewrite existsb_app, Lf, Wf. reflexivity. }
  split; [discriminate|]. split; [intros _; split; reflexivity|].
  split.
  { intros H. split; [reflexivity|]. subst W.
    destruct rendered; [|discriminate H]. split; [reflexivity|].
    destruct LANG as [enc|]; [|discriminate H].
    destruct (enc =? "") eqn:Ee; cbn [negb andb] in H; [discriminate H|].
    destruct hide; cbn [negb] in H; [discriminate H|].
    split; [reflexivity|]. exists enc. split; [reflexivity|].
    destruct (dotless enc) eqn:D; [|reflexivity].
    rewrite (split_dotless enc D) in H. discriminate H. }
  split.
  { intros lang charset -> D _ R ->. subst W. rewrite R.
    change (lang ++ "." ++ charset) with (lang ++ String "." charset).
    rewrite dot_not_empty. cbn [negb andb].
    unfold Titanium.encodingWarning.
    destruct (split_dot lang charset) as (S1 & S2). rewrite S1, S2.
    rewrite (split_dotless charset D). cbn [last andb].
    destruct (Titanium.lower charset =? "utf-8") eqn:L; cbn [negb].
    - apply String.eqb_eq in L. split; [discriminate | intros N; contradiction].
    - apply String.eqb_neq in L. split; [intros _; exact L | reflexivity]. }
  intros enc -> D. subst W. destruct rendered; [|reflexivity].
  destruct (negb (enc =? "") && negb hide); [|reflexivity].
  rewrite (split_dotless enc D). reflexivity.
Qed.

(* ================================================================== *)
(** * The title of a setup screen *)
(* ================================================================== *)

Section TitleFacts.

Variable U : Type.
Variables boxLeft boxRight boxDash space newline : U.
Variables gray bold : list U -> list U.

Lemma filler_single (d : U) (n : nat) : forall cur,
  cur = [] \/ cur = [d] -> Setup.filler U n [d] cur = repeat d n.
Proof.
  induction n as [|n IH]; intros cur H; [reflexivity|].
  cbn [Setup.filler repeat].
  destruct H as [-> | ->]; f_equal; apply IH; left; reflexivity.
Qed.

Lemma padStart_single (s : list U) (target : Z) (d : U) :
  Setup.padStart U s target [d]
  = (repeat d (Z.to_nat target - List.length s) ++ s)%list.
Proof.
  unfold Setup.padStart. rewrite filler_single by (right; reflexivity).
  reflexivity.
Qed.

Lemma padEnd_single (s : list U) (target : Z) (d : U) :
  Setup.padEnd U s target [d]
  = (s ++ repeat d (Z.to_nat target - List.length s))%list.
Proof.
  unfold Setup.padEnd. rewrite filler_single by (right; reflexivity).
  reflexivity.
Qed.

End TitleFacts.

(** X21.  The title of a setup screen is centred on a line of 56
    columns.  [screenTitle] writes a line feed, the rule before the
    title in gray, the title in bold, the rule after it in gray and a
    line feed.  The rule before is a run of dashes closed by the left
    box character and a space, the rule after a space and the right
    box character followed by a run of dashes.  For a title of at most
    52 code units the two rules and the title fill exactly 56 columns,
    and the rule after the title is as long as the rule before it or
    one longer; for a longer title no dash is left and the rules are
    the bare box characters. *)
Theorem screen_title_is_centred
        (U : Type) (boxLeft boxRight boxDash space newline : U)
        (gray bold : list U -> list U) (title : list U) :
  let before := Setup.leftRule U boxLeft boxDash space title in
  let after := Setup.rightRule U boxRight boxDash space title in
  let n := List.length title in
  Setup.screenTitle U boxLeft boxRight boxDash space newline gray bold title
  = ([newline] ++ gray before ++ bold title ++ gray after ++ [newline])%list
  /\ before = (repeat boxDash (List.length before - 2) ++ [boxLeft; space])%list
  /\ after = ([space; boxRight] ++ repeat boxDash (List.length after - 2))%list
  /\ (n <= 52 ->
      List.length before + n + List.length after = 56
      /\ (List.length after = List.length before
          \/ List.length after = S (List.length before)))
  /\ (52 < n -> before = [boxLeft; space] /\ after = [space; boxRight]).
Proof.
  cbn zeta. split; [reflexivity|].
  unfold Setup.leftRule, Setup.rightRule.
  rewrite padStart_single, padEnd_single.
  unfold Setup.pad, Setup.margin. cbn zeta. cbn [List.length].
  set (n := List.length title).
  set (m := (50 - Z.of_nat n + 4)%Z).
  rewrite !length_app, !repeat_length. cbn [List.length].
  split; [f_equal; f_equal; lia|].
  split; [f_equal; f_equal; lia|].
  split.
  - intros H.
    assert (P : (1 <= m / 2 /\ m / 2 <= m - 1 /\ m - 1 <= 2 * (m / 2) <= m)%Z).
    { subst m. Z.to_euclidean_division_equations. lia. }
    subst m. split; [lia|]. lia.
  - intros H.
    assert (P : (m / 2 <= 0 /\ m - m / 2 <= 1)%Z).
    { subst m. Z.to_euclidean_division_equations. lia. }
    replace (Z.to_nat (m / 2 + 1) - 2) with 0 by lia.
    replace (Z.to_nat (m - m / 2 + 1) - 2) with 0 by lia.
    split; reflexivity.
Qed.

(* ================================================================== *)
(** * The banner before the help and the text of the banner *)
(* ================================================================== *)



(** X22.  The banner shows the text of the last [setBanner].  When
    [banner()] renders after any sequence of calls, what it writes is
    the text composed by the last [setBanner] of the sequence, and the
    text that the logger had when there was none (the empty string on
    a new logger).  The text is the name in bold cyan, the version,
    the version of the SDK when it is truthy, the copyright and the
    lines that ask for help, each part on the line the code gives it.
    Setting a text after the banner was rendered does not render it
    again. *)
Theorem banner_shows_last_text
        (E : Env) (s : Logger.t) (cs : list Logger.call) (a : Logger.about) :
  let s1 := fst (Logger.run E s cs) in
  let sdk := match Logger.sdkVersion a with
             | Some v => if v =? "" then "" else " SDK v" ++ v
             | None => ""
             end in
  (banner_gates s1 ->
   snd (Logger.banner s1)
   = [ Write Stdout (lastBanner E cs (Logger.getBanner s)); Write Stdout lf;
       Emit "cli:logger-banner" ])
  /\ Logger.getBanner Logger.new = ""
  /\ Logger.getBanner (Logger.setBanner E s a)
     = bold E (cyan E (Logger.name a)) ++ " v" ++ Logger.version a ++ sdk ++ lf
       ++ Logger.copyright a ++ lf ++ lf ++ "Want to help? "
       ++ cyan E "https://tidev.io/donate" ++ " or "
       ++ cyan E "https://tidev.io/contribute" ++ lf
  /\ lastBanner E (cs ++ [Logger.CSetBanner a]) (Logger.getBanner s)
     = Logger.getBanner (Logger.setBanner E s a)
  /\ (Logger.bannerWasRendered s = true ->
      Logger.banner (Logger.setBanner E s a) = (Logger.setBanner E s a, [])).
Proof.
  cbn zeta. split; [|split; [reflexivity|split; [reflexivity|split]]].
  - intros (G1 & G2 & G3 & G4).
    destruct (run_settings E cs s) as (_ & _ & _ & _ & A5). cbn zeta in A5.
    unfold Logger.banner, Logger.banner_due. rewrite G1, G2, G3, G4.
    cbn [andb negb snd]. rewrite A5. reflexivity.
  - generalize (Logger.getBanner s).
    induction cs as [|c cs IH]; intros b; [reflexivity|].
    cbn [app lastBanner]. apply IH.
  - intros R. unfold Logger.banner, Logger.banner_due.
    unfold Logger.bannerWasRendered in R.
    cbn [Logger.setBanner Logger.priv_bannerRendered]. rewrite R.
    rewrite andb_false_r. reflexivity.
Qed.

(* ================================================================== *)
(** * The further properties on concrete inputs *)
(* ================================================================== *)

(** An [info] line at the threshold of a new logger is written the
    same at the threshold of [debug], and so is what [render] writes at
    level 5. *)
Lemma lower_threshold_shows_more_witness :
  snd (Logger.step plain (Logger.setLevel Logger.new "debug")
         (Logger.CInfo 0 (Some "ready") []))
  = snd (Logger.step plain Logger.new (Logger.CInfo 0 (Some "ready") []))
  /\ Logger.render plain (Logger.setLevel Logger.new "debug") 0 5 Stderr "late"
     = Logger.render plain Logger.new 0 5 Stderr "late".
Proof.
  assert (L : (2 <= 3)%Z) by (intros H; discriminate H).
  destruct (lower_threshold_shows_more plain
              (Logger.setLevel Logger.new "debug") Logger.new 2 3
              eq_refl eq_refl L eq_refl) as (H1 & H2).
  split; [apply H1; reflexivity | apply H2; discriminate].
Defined.

(** The [log-level] option of the logging descriptor, given the
    value [trace]: its hook calls the callback with [trace]. *)
Lemma callback_gets_value_or_default_witness :
  exists h,
    In h (Commander.preActionHooks
            (snd (fst (fst (Dispatch.parseOptions
                              [("--log-level", Some "trace"); ("-f", None)] []
                              readyCli loggingNode)))))
    /\ snd (fst (Dispatch.runHook h readyCli
                   (snd (fst (fst (Dispatch.parseOptions
                                     [("--log-level", Some "trace"); ("-f", None)]
                                     [] readyCli loggingNode))))))
       = [ ConsoleLog "preAction build --log-level"; Invoke 0 (VStr "trace") ].
Proof.
  assert (S : "log-level" <> "sdk") by discriminate.
  assert (B : blank (Registrar.newSubcommand plain "build"))
    by (split; reflexivity).
  assert (U : unambiguous loggingNode = true) by (vm_compute; reflexivity).
  set (X := Dispatch.parseOptions [("--log-level", Some "trace"); ("-f", None)] []
              readyCli loggingNode).
  assert (P : X = (fst (fst (fst X)), snd (fst (fst X)), snd (fst X), Normal []))
    by (vm_compute; reflexivity).
  destruct (callback_gets_value_or_default plain "build"
              (Registrar.newSubcommand plain "build") loggingConf
              _ "log-level" _ 0
              [("--log-level", Some "trace"); ("-f", None)] readyCli
              _ _ _ _
              B eq_refl (or_introl eq_refl) S eq_refl U P)
    as (Hk & He & _).
  eexists. split; [exact Hk | exact (He readyCli)].
Defined.



(* ================================================================== *)
(** * The values of flags *)
(* ================================================================== *)

Section FlagFacts.

Import Commander Dispatch.

Lemma flagOption_negate n meta :
  negate (Registrar.flagOption n meta) = JS.startsWith "no-" n.
Proof. unfold negate. rewrite flagOption_long. reflexivity. Qed.

Lemma flagOption_default n meta :
  defaultValue (Registrar.flagOption n meta) = VUndefined.
Proof.
  unfold Registrar.flagOption. destruct (Descriptor.Flag.hidden meta); reflexivity.
Qed.

Lemma flagOption_is_flag n meta :
  is_flag (Registrar.flagOption n meta) ("--" ++ n) = true.
Proof.
  unfold is_flag. rewrite flagOption_long, String.eqb_refl.
  destruct (short _); [apply orb_true_r | reflexivity].
Qed.

(** An option without a default that is not a negation leaves the
    value under its attribute as it was. *)
Lemma addOption_value_kept c o :
  negate o = false -> JS.defined (defaultValue o) = false ->
  getOptionValue (addOption c o) (attributeName o)
  = getOptionValue c (attributeName o).
Proof.
  intros N D. unfold addOption. rewrite N, D. reflexivity.
Qed.

Lemma addOptions_value_kept os o : forall c,
  In o os -> NoDup (map attributeName os) ->
  negate o = false -> JS.defined (defaultValue o) = false ->
  getOptionValue (addOptions c os) (attributeName o)
  = getOptionValue c (attributeName o).
Proof.
  induction os as [|a os IH]; intros c I N Hn Hd; [contradiction|].
  inversion N as [|? ? Na Nl]; subst.
  cbn [addOptions fold_left]. destruct I as [-> | I].
  - change (fold_left addOption os (addOption c o))
      with (addOptions (addOption c o) os).
    rewrite addOptions_value_other.
    + apply addOption_value_kept; assumption.
    + intros o' I' E. apply Na. rewrite <- E. apply in_map, I'.
  - change (fold_left addOption os (addOption c a))
      with (addOptions (addOption c a) os).
    rewrite IH by assumption. apply addOption_value_other.
    intros E. apply Na. rewrite E. apply in_map, I.
Qed.

(** X25.  Take an entry [name: meta] of the flags map of a descriptor
    and the node that the registrar wires from the descriptor on a
    blank node, its switches being unambiguous.  A flag has no default:
    unless its name is a negation ([no-...]), the node holds under the
    attribute of the flag what it held before the registration.  After
    any command line that is parsed to the end: if no switch of the flag
    occurs in it, the value is unchanged; if one occurs, the node holds
    [true] ([false] for a negation), whatever stands after the switch. *)
Theorem flag_is_unset_until_supplied
        (E : Env) (cmdName : string) (cmd : Commander.Command)
        (conf : Descriptor.conf) (fs : list (string * Descriptor.Flag.t))
        (name : string) (meta : Descriptor.Flag.t) :
  blank cmd ->
  Descriptor.flags conf = Some fs ->
  In (name, meta) fs ->
  let node := fst (Registrar.applyCommandConfig E cmdName cmd conf) in
  let o := Registrar.flagOption name meta in
  let key := Commander.attributeName o in
  unambiguous node = true ->
  Commander.is_flag o ("--" ++ name) = true
  /\ (JS.startsWith "no-" name = false ->
      Commander.getOptionValue node key = Commander.getOptionValue cmd key)
  /\ forall argv cli cli' node' out unknown,
       Dispatch.parseOptions argv [] cli node = (cli', node', out, Normal unknown) ->
       (omitted o argv ->
        Commander.getOptionValue node' key = Commander.getOptionValue node key)
       /\ (forall pre flag val post,
             argv = (pre ++ (flag, val) :: post)%list ->
             Commander.is_flag o flag = true -> omitted o post ->
             Commander.getOptionValue node' key
             = VBool (negb (JS.startsWith "no-" name))).
Proof.
  intros B F I node o key U.
  destruct (applyCommandConfig_extends E cmdName cmd conf) as (H1 & _ & _ & H4).
  fold node in H1, H4.
  assert (Ir : In o (registered conf)).
  { unfold registered, flagOptions. rewrite F. apply in_or_app. left.
    exact (in_map (fun e => Registrar.flagOption (fst e) (snd e)) _ (name, meta) I). }
  assert (Io : In o (Commander.options node)).
  { rewrite H1. apply in_or_app. right. exact Ir. }
  split; [apply flagOption_is_flag|]. split.
  - intros Neg. rewrite (value_ext _ _ key H4). unfold key.
    apply addOptions_value_kept.
    + exact Ir.
    + destruct B as (B1 & _). rewrite B1 in H1. cbn [app] in H1.
      unfold unambiguous in U. apply andb_prop in U as [_ U].
      rewrite H1 in U. apply distinct_NoDup, U.
    + unfold o. rewrite flagOption_negate. exact Neg.
    + unfold o. rewrite flagOption_default. reflexivity.
  - intros argv cli cli' node' out unknown P.
    assert (R : Commander.getOptionValue node' key
                = resolve o argv (Commander.getOptionValue node key))
      by exact (parse_values o argv _ _ _ _ _ _ _
                  (registered_sound E cmdName cmd conf B U) Io P).
    split.
    + intros Om. rewrite R. apply resolve_omitted, Om.
    + intros pre flag val post -> Fl Om. rewrite R, resolve_app. cbn [resolve].
      rewrite Fl, resolve_omitted by exact Om. unfold stored.
      destruct (flagOption_boolean name meta) as (Tk & _). fold o in Tk.
      rewrite Tk. unfold o. rewrite flagOption_negate. reflexivity.
Qed.

End FlagFacts.

(** The [force] flag of the logging descriptor: undefined on the wired
    node, [true] after [-f], the word after it notwithstanding. *)
Lemma flag_is_unset_until_supplied_witness :
  Commander.getOptionValue loggingNode "force" = VUndefined
  /\ Commander.getOptionValue
       (snd (fst (fst (Dispatch.parseOptions [("-f", Some "yes")] []
                         readyCli loggingNode))))
       "force" = VBool true.
Proof.
  assert (B : blank (Registrar.newSubcommand plain "build"))
    by (split; reflexivity).
  assert (U : unambiguous loggingNode = true) by (vm_compute; reflexivity).
  destruct (flag_is_unset_until_supplied plain "build"
              (Registrar.newSubcommand plain "build") loggingConf
              _ "force" _ B eq_refl (or_introl eq_refl) U)
    as (_ & H0 & H).
  split; [exact (H0 eq_refl)|].
  set (X := Dispatch.parseOptions [("-f", Some "yes")] [] readyCli loggingNode).
  assert (P : X = (fst (fst (fst X)), snd (fst (fst X)), snd (fst X), Normal []))
    by (vm_compute; reflexivity).
  destruct (H [("-f", Some "yes")] readyCli _ _ _ _ P) as (_ & A).
  exact (A [] "-f" (Some "yes") [] eq_refl eq_refl (Forall_nil _)).
Defined.
